(** * In-situ data services: audit tool, indexing pipeline, authenticator

    A shallow embedding of three Python modules of the repository,

    - [parquet_cli/audit_tool/audit_tool.py]
    - [parquet_flask/cdms_lambda_func/index_to_es/parquet_file_es_indexer.py]
    - [parquet_flask/authenticator/authenticator_aws_secret_manager.py]

    and the properties of them that the specification states.

    Conventions.  A Python [str] is a [string]; every character stands for
    one code point below 256.  [None] is the [None] of an [option].  A dict
    that is only read by key is a [gmap]; a dict that is serialised keeps
    its insertion order in an association list.  Calls that leave the
    process (S3, OpenSearch, SQS, SNS, Lambda, the file system) are recorded
    in a trace, in the order the interpreter performs them.  Logging is not
    modelled: no property below depends on a log line. *)

From Stdlib Require Import ZArith Ascii String.
From stdpp Require Import gmap strings list pretty.

Set Warnings "-register-all".

Open Scope string_scope.
Open Scope list_scope.
Open Scope stdpp_scope.

(** * The programs *)

(** ** Python string primitives *)

Module Py.

(** [s[-1]], when [s] is not empty. *)
Fixpoint last_char (s : string) : option ascii :=
  match s with
  | EmptyString => None
  | String c EmptyString => Some c
  | String _ r => last_char r
  end.

(** [s.startswith(p)]. *)
Definition startswith (s p : string) : bool := String.prefix p s.

(** [needle in hay] on two strings: [needle] occurs at some offset. *)
Fixpoint contains (needle hay : string) : bool :=
  String.prefix needle hay
  || match hay with
     | EmptyString => false
     | String _ r => contains needle r
     end.

(** [c.isspace()] for a code point below 256. *)
Definition isspace (c : ascii) : bool :=
  let n := N_of_ascii c in
  ((9 <=? n) && (n <=? 13) || (28 <=? n) && (n <=? 32)
   || (n =? 133) || (n =? 160))%N.

Fixpoint lstrip (s : string) : string :=
  match s with
  | EmptyString => EmptyString
  | String c r => if isspace c then lstrip r else s
  end.

Fixpoint rstrip (s : string) : string :=
  match s with
  | EmptyString => EmptyString
  | String c r =>
      match rstrip r with
      | EmptyString => if isspace c then EmptyString else String c EmptyString
      | r' => String c r'
      end
  end.

(** [s.strip()]. *)
Definition strip (s : string) : string := rstrip (lstrip s).

(** [c.lower()] for a code point below 256: the ASCII capitals and the
    Latin-1 capitals (U+00C0 to U+00DE, the multiplication sign apart)
    move up by 32. *)
Definition lower_char (c : ascii) : ascii :=
  let n := N_of_ascii c in
  if ((65 <=? n) && (n <=? 90)
      || (192 <=? n) && (n <=? 222) && negb (n =? 215))%N
  then ascii_of_N (n + 32) else c.

(** [s.lower()]. *)
Fixpoint lower (s : string) : string :=
  match s with
  | EmptyString => EmptyString
  | String c r => String (lower_char c) (lower r)
  end.

(** The line feed: the string Python writes as a backslash and [n]. *)
Definition newline : string := String "010" EmptyString.

(** Truthiness of an optional string: [None] and the empty string are
    falsy. *)
Definition truthy (o : option string) : bool :=
  match o with
  | None | Some EmptyString => false
  | Some _ => true
  end.

(** [f'{n:,}']: decimal digits, a comma between groups of three counted
    from the right. *)
Fixpoint group3 (rev_digits : list ascii) (k : nat) : list ascii :=
  match rev_digits with
  | [] => []
  | d :: r =>
      match k, r with
      | _, [] => [d]
      | 2, _ => d :: ","%char :: group3 r 0
      | _, _ => d :: group3 r (S k)
      end
  end.

Definition fmt_thousands (n : nat) : string :=
  string_of_list_ascii
    (rev (group3 (rev (list_ascii_of_string (pretty n))) 0)).

End Py.

(** ** [json.dumps] *)

Module Json.

(** A Python value that [json.dumps] accepts or [json.loads] returns.  A
    float is kept by the text [json.dumps] prints for it. *)
Inductive json :=
| JNull
| JBool (b : bool)
| JInt (z : Z)
| JFloat (text : string)
| JString (s : string)
| JArray (items : list json)
| JObject (members : list (string * json)).

Definition hex_digit (n : N) : ascii :=
  match String.get (N.to_nat n) "0123456789abcdef" with
  | Some c => c
  | None => "0"%char
  end.

Definition quote : ascii := "034"%char.
Definition backslash : ascii := "092"%char.

(** One character of [py_encode_basestring_ascii]: the two characters
    with a short escape of their own, the five control characters with a
    letter escape, printable ASCII as it is, everything else as a
    [\uXXXX] escape of four lower-case hex digits. *)
Definition escape_char (c : ascii) : string :=
  let n := N_of_ascii c in
  if (n =? 34)%N then String backslash (String quote EmptyString)
  else if (n =? 92)%N then String backslash (String backslash EmptyString)
  else if (n =? 10)%N then String backslash "n"
  else if (n =? 13)%N then String backslash "r"
  else if (n =? 9)%N then String backslash "t"
  else if (n =? 8)%N then String backslash "b"
  else if (n =? 12)%N then String backslash "f"
  else if ((32 <=? n) && (n <=? 126))%N then String c EmptyString
  else String backslash
         (String "u" (String "0" (String "0"
            (String (hex_digit (n / 16)) (String (hex_digit (n mod 16))
               EmptyString))))).

Fixpoint escape (s : string) : string :=
  match s with
  | EmptyString => EmptyString
  | String c r => escape_char c +:+ escape r
  end.

(** A string literal: the escaped text between two quotes. *)
Definition dumps_str (s : string) : string :=
  String quote (escape s +:+ String quote EmptyString).

(** [json.dumps(j)] with the default separators, [', '] between items
    and [': '] after a key. *)
Fixpoint dumps (j : json) : string :=
  match j with
  | JNull => "null"
  | JBool true => "true"
  | JBool false => "false"
  | JInt z => pretty z
  | JFloat text => text
  | JString s => dumps_str s
  | JArray items =>
      "[" +:+
      (fix go (l : list json) : string :=
         match l with
         | [] => "]"
         | [x] => dumps x +:+ "]"
         | x :: r => dumps x +:+ ", " +:+ go r
         end) items
  | JObject members =>
      "{" +:+
      (fix go (l : list (string * json)) : string :=
         match l with
         | [] => "}"
         | [(k, v)] => dumps_str k +:+ ": " +:+ dumps v +:+ "}"
         | (k, v) :: r => dumps_str k +:+ ": " +:+ dumps v +:+ ", " +:+ go r
         end) members
  end.

End Json.

Import Json.

(** ** The audit tool: pure helpers *)

(** [append_slash] (lines 44 to 52): [None] and the empty string come
    back as they are, a string whose last character is not a slash gets
    one. *)
Definition append_slash (str : option string) : option string :=
  match str with
  | None => None
  | Some s =>
      if decide (s = EmptyString) then Some s
      else if negb (bool_decide (Py.last_char s = Some "/"%char))
           then Some (s +:+ "/")
           else Some s
  end.

(** The dict [s3_event] that [key_to_sqs_msg] builds (lines 56 to 66). *)
Definition s3_event (key bucket : string) : json :=
  JObject
    [("Records",
      JArray
        [JObject
           [("eventName", JString "ObjectCreated:Put");
            ("s3",
             JObject
               [("bucket", JObject [("name", JString bucket)]);
                ("object", JObject [("key", JString key)])])]])].

(** [key_to_sqs_msg] (lines 55 to 70). *)
Definition key_to_sqs_msg (key bucket : string) : string :=
  dumps (s3_event key bucket).

(** ** The audit tool: data *)

(** One entry of a listing page's ['Contents']: the dict S3 returns for an
    object, with its key and the metadata that make two entries differ. *)
Record S3Object := { Key : string; LastModified : Z; ETag : string }.

#[global] Instance S3Object_eq_dec : EqDecision S3Object.
Proof. solve_decision. Defined.

(** What a caller can pass as [resume_from_key]: a string (what the
    re-invocation payload carries) or a dict. *)
Inductive py_value :=
| PyStr (s : string)
| PyDict (o : S3Object).

(** [v == o] for a listing entry [o]: a string never equals a dict. *)
Definition py_eq_obj (v : py_value) (o : S3Object) : bool :=
  match v with
  | PyStr _ => false
  | PyDict o' => bool_decide (o' = o)
  end.

(** [v in keys]. *)
Definition py_in (v : py_value) (keys : list S3Object) : bool :=
  existsb (py_eq_obj v) keys.

(** [keys.index(v)]: the first position that holds a value equal to [v];
    [None] where Python raises [ValueError]. *)
Fixpoint py_index (v : py_value) (keys : list S3Object) : option nat :=
  match keys with
  | [] => None
  | o :: r => if py_eq_obj v o then Some 0 else S <$> py_index v r
  end.

(** What [opensearch_client.get] hands back. [RespDict found] is a dict;
    [found] is the truth value stored under ['found'], [None] when the dict
    has no such key. *)
Inductive es_response :=
| RespNone
| RespNotDict
| RespDict (found : option bool).

(** The outcome of a get: a response, the [NotFoundError] of the client
    library, or any other exception. *)
Inductive es_result :=
| EsReturns (r : es_response)
| EsNotFoundError
| EsOtherError.

(** The Lambda context object: the [n]-th call of
    [get_remaining_time_in_millis] in this invocation (counted from 0)
    returns [get_remaining_time_in_millis n]. *)
Record LambdaContext := {
  function_name : string;
  get_remaining_time_in_millis : nat → Z
}.

(** What the process finds around it and only reads: [os.environ], the
    pages the S3 paginator yields for a bucket and a prefix (a page without
    ['Contents'] is [None]), and the answer of the catalog to a get by
    index and id. *)
Record Ambient := {
  environ : gmap string string;
  s3_paginate : string → string → list (option (list S3Object));
  opensearch_get : string → string → es_result
}.

(** Calls that leave the process. *)
Inductive Event :=
| EvListObjects (bucket prefix : string)
| EvEsGet (index id : string)
| EvFileOpen (path : string)
| EvFileWrite (path data : string)
| EvSqsSend (queue : option string) (body : string)
| EvSnsPublish (topic message subject : string)
| EvLambdaInvoke (fn invocation_type payload : string).

#[global] Instance Event_eq_dec : EqDecision Event.
Proof. solve_decision. Defined.

(** What a run changes: the files, the calls made so far (oldest first) and
    the number of times the clock of the Lambda context was read. *)
Record World := {
  files : gmap string string;
  trace : list Event;
  clock_reads : nat
}.

(** The exceptions that leave a function: the two the sources raise or
    cause by name, the [AttributeError] of an attribute read on [None],
    and one constructor for every other exception. *)
Inductive Exn :=
| ValueError (msg : string)
| SystemExit (code : Z)
| AttributeError
| OtherException.

(** How a call ends. *)
Inductive Outcome (A : Type) :=
| Returned (a : A)
| Raised (e : Exn).
Arguments Returned {A} a.
Arguments Raised {A} e.

(** A computation reads and changes a state and returns or raises. *)
Definition St (S A : Type) : Type := S → Outcome A * S.

#[global] Instance St_ret {S} : MRet (St S) := λ A a s, (Returned a, s).

#[global] Instance St_bind {S} : MBind (St S) := λ A B f m s,
  match m s with
  | (Returned a, s') => f a s'
  | (Raised e, s') => (Raised e, s')
  end.

Definition raise {S A} (e : Exn) : St S A := λ s, (Raised e, s).

(** The computations of the audit tool work on the world. *)
Abbreviation M := (St World).

Definition emit (e : Event) : M unit := λ w,
  (Returned tt,
   {| files := files w; trace := trace w ++ [e];
      clock_reads := clock_reads w |}).

(** [for x in l: body(x)]. *)
Fixpoint for_each {A} (l : list A) (body : A → M unit) : M unit :=
  match l with
  | [] => mret tt
  | x :: r => body x ;; for_each r body
  end.

(** [open(path, 'w')] truncates or creates the file. *)
Definition file_open_w (path : string) : M unit := λ w,
  (Returned tt,
   {| files := <[path := EmptyString]> (files w);
      trace := trace w ++ [EvFileOpen path];
      clock_reads := clock_reads w |}).

(** [f.write(data)] appends to the open file. *)
Definition file_write (path data : string) : M unit := λ w,
  (Returned tt,
   {| files := <[path := default EmptyString (files w !! path) +:+ data]>
                 (files w);
      trace := trace w ++ [EvFileWrite path data];
      clock_reads := clock_reads w |}).

(** [lambda_ctx is not None and
    lambda_ctx.get_remaining_time_in_millis() < (60 * 1000)]: the clock is
    read only when there is a context. *)
Definition time_is_short (lambda_ctx : option LambdaContext) : M bool :=
  match lambda_ctx with
  | None => mret false
  | Some ctx => λ w,
      (Returned
         (bool_decide
            (get_remaining_time_in_millis ctx (clock_reads w) < 60 * 1000)%Z),
       {| files := files w; trace := trace w;
          clock_reads := S (clock_reads w) |})
  end.

(** ** The audit tool: [audit] *)

(** The settings [audit] reads from the environment and keeps in local
    variables of the same names. *)
Record Config := {
  AWS_ACCESS_KEY_ID : string;
  AWS_SECRET_ACCESS_KEY : string;
  AWS_SESSION_TOKEN : option string;
  OPENSEARCH_ENDPOINT : string;
  OPENSEARCH_PORT : string;
  OPENSEARCH_INDEX : string;
  OPENSEARCH_PATH_PREFIX : string;
  OPENSEARCH_BUCKET : string;
  OPENSEARCH_ID_PREFIX : string
}.

(** An optional string inside an f-string. *)
Definition fstr (o : option string) : string := default "None" o.

(** The two checks of the environment (lines 77 to 94).  [None] is where
    the source logs an error and calls [exit(1)].  The port defaults to
    443 and the id prefix to an f-string over the bucket, so neither is
    ever [None]. *)
Definition read_config (env : gmap string string) : option Config :=
  match env !! "AWS_ACCESS_KEY_ID", env !! "AWS_SECRET_ACCESS_KEY" with
  | Some access_key, Some secret_key =>
      let bucket := env !! "OPENSEARCH_BUCKET" in
      match env !! "OPENSEARCH_ENDPOINT",
            append_slash
              (Some (default ("s3://" +:+ fstr bucket +:+ "/")
                             (env !! "OPENSEARCH_ID_PREFIX"))),
            env !! "OPENSEARCH_INDEX",
            append_slash (env !! "OPENSEARCH_PATH_PREFIX"),
            bucket with
      | Some endpoint, Some id_prefix, Some index, Some path_prefix,
        Some bucket =>
          Some {| AWS_ACCESS_KEY_ID := access_key;
                  AWS_SECRET_ACCESS_KEY := secret_key;
                  AWS_SESSION_TOKEN := env !! "AWS_SESSION_TOKEN";
                  OPENSEARCH_ENDPOINT := endpoint;
                  OPENSEARCH_PORT := default "443" (env !! "OPENSEARCH_PORT");
                  OPENSEARCH_INDEX := index;
                  OPENSEARCH_PATH_PREFIX := path_prefix;
                  OPENSEARCH_BUCKET := bucket;
                  OPENSEARCH_ID_PREFIX := id_prefix |}
      | _, _, _, _, _ => None
      end
  | _, _ => None
  end.

(** [os.path.join] of a single path is that path. *)
Definition os_path_join (p : string) : string := p.

(** The local variables of the scan.  Python's [audit] returns [None]; the
    model returns these so that properties can speak of [missing_keys]. *)
Record Locals := {
  count : nat;
  error_count : nat;
  error_s3_keys : list string;
  missing_keys : list string;
  need_to_resume : bool;
  resume_from_key : option py_value
}.

(** The three branches that record a key as missing. *)
Definition record_missing (key : string) (st : Locals) : Locals :=
  {| count := count st;
     error_count := S (error_count st);
     error_s3_keys := error_s3_keys st ++ [key];
     missing_keys := missing_keys st ++ [key];
     need_to_resume := need_to_resume st;
     resume_from_key := resume_from_key st |}.

(** The last handler: the error is counted and nothing else. *)
Definition record_error (st : Locals) : Locals :=
  {| count := count st;
     error_count := S (error_count st);
     error_s3_keys := error_s3_keys st;
     missing_keys := missing_keys st;
     need_to_resume := need_to_resume st;
     resume_from_key := resume_from_key st |}.

(** The two assignments before the [break]. *)
Definition suspended (obj : S3Object) (st : Locals) : Locals :=
  {| count := count st;
     error_count := error_count st;
     error_s3_keys := error_s3_keys st;
     missing_keys := missing_keys st;
     need_to_resume := true;
     resume_from_key := Some (PyStr (Key obj)) |}.

Definition count_up (st : Locals) : Locals :=
  {| count := S (count st);
     error_count := error_count st;
     error_s3_keys := error_s3_keys st;
     missing_keys := missing_keys st;
     need_to_resume := need_to_resume st;
     resume_from_key := resume_from_key st |}.

(** What the [try] statement does with the outcome of the get (lines
    166 to 183).  A response
    that is [None] or not a dict, or whose ['found'] is falsy, is missing;
    so is [NotFoundError].  A dict without ['found'] raises [KeyError]
    inside the [try], which the last handler catches like any other
    exception. *)
Definition classify (r : es_result) (key : string) (st : Locals) : Locals :=
  match r with
  | EsReturns RespNone => record_missing key st
  | EsReturns RespNotDict => record_missing key st
  | EsReturns (RespDict (Some found)) =>
      if negb found then record_missing key st else st
  | EsReturns (RespDict None) => record_error st
  | EsNotFoundError => record_missing key st
  | EsOtherError => record_error st
  end.

Section Audit.

Variable amb : Ambient.
Variable cfg : Config.
Variable lambda_ctx : option LambdaContext.

(** The id under which the catalog is asked for an object. *)
Definition opensearch_id (obj : S3Object) : string :=
  os_path_join (OPENSEARCH_ID_PREFIX cfg +:+ Key obj).

(** The body of the main loop after the time check (lines 165 to
    183). *)
Definition check_object (obj : S3Object) (st : Locals) : M Locals :=
  let st := count_up st in
  emit (EvEsGet (OPENSEARCH_INDEX cfg) (opensearch_id obj)) ;;
  mret (classify
          (opensearch_get amb (OPENSEARCH_INDEX cfg) (opensearch_id obj))
          (Key obj) st).

(** [for obj in keys: ...], with its [break] (lines 156 to 186). *)
Fixpoint scan (keys : list S3Object) (st : Locals) : M Locals :=
  match keys with
  | [] => mret st
  | obj :: rest =>
      short ← time_is_short lambda_ctx;
      if (short : bool) then mret (suspended obj st)
      else
        st' ← check_object obj st;
        scan rest st'
  end.

(** The pages are walked and their entries collected (lines 130 to
    143); every page is one call to S3. *)
Definition list_keys : M (list S3Object) :=
  let pages :=
    s3_paginate amb (OPENSEARCH_BUCKET cfg) (OPENSEARCH_PATH_PREFIX cfg) in
  for_each pages
    (λ _, emit (EvListObjects (OPENSEARCH_BUCKET cfg)
                              (OPENSEARCH_PATH_PREFIX cfg))) ;;
  mret (concat (map (default []) pages)).

(** Where the scan starts (lines 145 to 150): at the resume key when it
    is in the listing, at the beginning otherwise. *)
Definition start_index (resume : option py_value) (keys : list S3Object)
  : M nat :=
  match resume with
  | Some v =>
      if py_in v keys then
        match py_index v keys with
        | Some i => mret i
        | None => raise (ValueError "is not in list")
        end
      else mret 0
  | None => mret 0
  end.

(** The output (lines 191 to 213): a file of keys, or one queue message
    a key and a notification. *)
Definition write_results (format : string)
    (output_file sns_topic : option string) (missing : list string)
  : M unit :=
  if decide (format = "plain") then
    match output_file with
    | Some path =>
        if Py.truthy output_file then
          file_open_w path ;;
          for_each missing (λ key, file_write path (key +:+ Py.newline))
        else mret tt
    | None => mret tt
    end
  else
    let sqs_messages :=
      map (λ k, key_to_sqs_msg k (OPENSEARCH_BUCKET cfg)) missing in
    for_each sqs_messages (λ m, emit (EvSqsSend output_file m)) ;;
    match sns_topic with
    | Some topic =>
        if Py.truthy sns_topic then
          emit (EvSnsPublish topic
                  ("Parquet stats audit found "
                   +:+ Py.fmt_thousands (length missing)
                   +:+ " missing keys. Trying to republish to SQS.")
                  "Insitu audit")
        else mret tt
    | None => mret tt
    end.

(** The payload of the re-invocation, [json.dumps] of a dict with the
    resume key.  When the loop has set [need_to_resume] the resume key is
    the string stored with it; the two other cases make the function
    total. *)
Definition resume_payload (v : option py_value) : string :=
  dumps (JObject
           [("ResumeFromKey",
             match v with
             | Some (PyStr k) => JString k
             | Some (PyDict o) =>
                 JObject [("Key", JString (Key o));
                          ("LastModified", JInt (LastModified o));
                          ("ETag", JString (ETag o))]
             | None => JNull
             end)]).

(** [if need_to_resume: lambda_client.invoke(...)] (lines 215 to
    220). *)
Definition reinvoke (st : Locals) : M unit :=
  if need_to_resume st then
    match lambda_ctx with
    | Some ctx =>
        emit (EvLambdaInvoke (function_name ctx) "Event"
                (resume_payload (resume_from_key st)))
    | None => raise AttributeError
    end
  else mret tt.

(** [audit] from the listing on.  The session, the request signer and
    the clients that the source builds before the listing make no call
    that is recorded here. *)
Definition audit_run (format : string)
    (output_file sns_topic : option string) (resume : option py_value)
  : M Locals :=
  keys ← list_keys;
  index ← start_index resume keys;
  let keys := drop index keys in
  st ← scan keys
         {| count := 0; error_count := 0; error_s3_keys := [];
            missing_keys := []; need_to_resume := false;
            resume_from_key := resume |};
  write_results format output_file sns_topic (missing_keys st) ;;
  reinvoke st ;;
  mret st.

End Audit.

(** [audit(format, output_file, sns_topic, resume_from_key, lambda_ctx)]
    (lines 73 to 222). *)
Definition audit (amb : Ambient) (format : string)
    (output_file sns_topic : option string) (resume : option py_value)
    (lambda_ctx : option LambdaContext) : M Locals :=
  if bool_decide (format = "mock-s3") && negb (Py.truthy output_file) then
    raise (ValueError "Output file MUST be defined with mock-s3 output format")
  else
    match read_config (environ amb) with
    | None => raise (SystemExit 1)
    | Some cfg =>
        audit_run amb cfg lambda_ctx format output_file sns_topic resume
    end.

(** The world a process starts in: no call made, the clock not read. *)
Definition initial_world (fs : gmap string string) : World :=
  {| files := fs; trace := []; clock_reads := 0 |}.

(** ** The indexing pipeline: [ParquetFileEsIndexer] *)

Module Indexer.

(** A record of the triggering event as [S3ToSqs] presents it:
    [get_s3_url(i)] and [get_event_name(i)] for the [i]-th of [size()]
    records.  The class [S3ToSqs], which parses the event, stays outside
    the model: the event enters it already split into these records. *)
Record S3Record := { s3_url : string; event_name : string }.

(** A document of the index: a dict of JSON values. *)
Abbreviation Doc := (gmap string json).

(** What [S3StatExtractor(url).start()] returns: an object with the
    attribute [s3_url] and the method [to_json()]. *)
Record S3Stat := { stat_s3_url : string; to_json : Doc }.

(** The calls received by the index behind [ESAbstract]. *)
Inductive EsCall :=
| EsIndexOne (doc : Doc) (doc_id : string)
| EsDeleteById (doc_id : string).

(** The attribute [__s3_url] of the indexer and the calls it made to the
    index, oldest first. *)
Record State := { self_s3_url : option string; es_calls : list EsCall }.

Definition call (c : EsCall) : St State unit := λ st,
  (Returned tt,
   {| self_s3_url := self_s3_url st; es_calls := es_calls st ++ [c] |}).

Definition set_s3_url (url : string) : St State unit := λ st,
  (Returned tt, {| self_s3_url := Some url; es_calls := es_calls st |}).

Definition get_s3_url : St State (option string) := λ st,
  (Returned (self_s3_url st), st).

Definition ignoring_phrases : list string := ["spark-staging"; "_temporary"].

Section Collaborators.

(** The extraction of statistics, which reads S3 and the local disk:
    [None] where it raises. *)
Variable s3_stat_extractor : string → option S3Stat.
Variable local_statistics : string → option Doc.

(** [extract_stats_locally] (lines 45 to 51): download, read the
    statistics, delete the local copy. *)
Definition extract_stats_locally : St State Doc :=
  url ← get_s3_url;
  match url ≫= local_statistics with
  | Some stats_json => mret stats_json
  | None => raise OtherException
  end.

(** The dict display [{'s3_url': url, **a, **b}]: later entries replace
    earlier ones with the same key. *)
Definition merged (url : string) (a b : Doc) : Doc :=
  b ∪ (a ∪ {[ "s3_url" := JString url ]}).

(** [ingest_file] (lines 60 to 68). *)
Definition ingest_file : St State unit :=
  url ← get_s3_url;
  match url with
  | None => raise (ValueError "s3 url is null. Set it first")
  | Some url =>
      match s3_stat_extractor url with
      | None => raise OtherException
      | Some s3_stat =>
          parquet_stat ← extract_stats_locally;
          call (EsIndexOne (merged url (to_json s3_stat) parquet_stat)
                           (stat_s3_url s3_stat))
      end
  end.

(** [remove_file] (lines 70 to 75). *)
Definition remove_file : St State unit :=
  url ← get_s3_url;
  match url with
  | None => raise (ValueError "s3 url is null. Set it first")
  | Some url => call (EsDeleteById url)
  end.

(** The body of the loop of [start] for one record (lines 90 to
    103). *)
Definition process (r : S3Record) : St State unit :=
  set_s3_url (s3_url r) ;;
  if existsb (λ k, Py.contains k (s3_url r)) ignoring_phrases then mret tt
  else
    let s3_event := Py.lower (Py.strip (event_name r)) in
    if Py.startswith s3_event "objectcreated" then ingest_file
    else if Py.startswith s3_event "objectremoved" then remove_file
    else mret tt.

(** [start(event)], for the records of the event (lines 77 to 104). *)
Fixpoint start (records : list S3Record) : St State unit :=
  match records with
  | [] => mret tt
  | r :: rest => process r ;; start rest
  end.

(** *** What the specification says of a record *)

Definition is_staging (url : string) : bool :=
  Py.contains "spark-staging" url || Py.contains "_temporary" url.

Definition is_created (name : string) : bool :=
  Py.startswith (Py.lower (Py.strip name)) "objectcreated".

Definition is_removed (name : string) : bool :=
  Py.startswith (Py.lower (Py.strip name)) "objectremoved".

(** The record asks for an extraction: it is no staging file and names a
    creation. *)
Definition needs_stats (r : S3Record) : bool :=
  negb (is_staging (s3_url r)) && is_created (event_name r).

(** Both extractions return for the file. *)
Definition extractable (url : string) : Prop :=
  is_Some (s3_stat_extractor url) ∧ is_Some (local_statistics url).

(** The calls the specification expects for a record: none for a staging
    file, one upsert for a creation, one delete by the url for a removal,
    none for any other event name. *)
Definition expected_calls (r : S3Record) : list EsCall :=
  if is_staging (s3_url r) then []
  else if is_created (event_name r) then
    match s3_stat_extractor (s3_url r), local_statistics (s3_url r) with
    | Some s3_stat, Some parquet_stat =>
        [EsIndexOne (merged (s3_url r) (to_json s3_stat) parquet_stat)
                    (stat_s3_url s3_stat)]
    | _, _ => []
    end
  else if is_removed (event_name r) then [EsDeleteById (s3_url r)]
  else [].

End Collaborators.

End Indexer.

(** ** The authenticator: [AuthenticatorAwsSecretManager] *)

Module Authenticator.

(** A value of the dict handed to [authenticate]: a string or something
    that is none. *)
Inductive value :=
| VStr (s : string)
| VOther.

(** The attribute [__token]: the empty string at first, later whatever
    JSON value the secret holds under the credential key. *)
Record State := { token : json }.

(** [__init__] (lines 27 to 30). *)
Definition init : State := {| token := JString EmptyString |}.

Definition auth_cred_key : string := "auth_cred".

(** [d[key]] on a JSON value: the member of a dict; [None] where Python
    raises, a [KeyError] for a dict without the key and a [TypeError] for
    every value that is no dict. *)
Definition subscript (j : json) (key : string) : option json :=
  match j with
  | JObject members => snd <$> List.find (λ m, bool_decide (m.1 = key)) members
  | _ => None
  end.

(** [key in j] on a JSON value: a key of a dict, a substring of a string,
    an element of a list; [None] where Python raises [TypeError]. *)
Definition contains_key (j : json) (key : string) : option bool :=
  match j with
  | JObject members => Some (existsb (λ m, bool_decide (m.1 = key)) members)
  | JString s => Some (Py.contains key s)
  | JArray items =>
      Some (existsb
              (λ item, match item with
                       | JString s => bool_decide (s = key)
                       | _ => false
                       end) items)
  | _ => None
  end.

(** [s != j] for a string [s] and a JSON value [j]. *)
Definition differs (s : string) (j : json) : bool :=
  match j with
  | JString t => negb (bool_decide (s = t))
  | _ => true
  end.

Section Collaborators.

(** [AwsSecretManager.get_secret] and [json.loads], [None] where they
    raise; and the expression
    [base64.standard_b64decode(v.encode()).decode()] for a string [v],
    [None] where one of its three calls raises. *)
Variable get_secret : string → option string.
Variable json_loads : string → option json.
Variable b64decode_text : string → option string.

Definition set_token (t : json) : St State unit := λ _,
  (Returned tt, {| token := t |}).

Definition get_token : St State json := λ st, (Returned (token st), st).

(** [get_auth_credentials(cred_name)] (lines 32 to 41).  The two
    messages are cut short where the source goes on with the cause or the
    value. *)
Definition get_auth_credentials (cred_name : string) : St State json :=
  match get_secret cred_name with
  | None =>
      raise (ValueError
               ("error while retrieving secret manager value: " +:+ cred_name))
  | Some token_str =>
      match json_loads token_str ≫= λ j, subscript j auth_cred_key with
      | None => raise OtherException
      | Some secret_json =>
          match contains_key secret_json auth_cred_key with
          | None => raise OtherException
          | Some false =>
              raise (ValueError ("invalid json. missing " +:+ auth_cred_key))
          | Some true =>
              match subscript secret_json auth_cred_key with
              | None => raise OtherException
              | Some t => set_token t ;; mret secret_json
              end
          end
      end
  end.

(** The body of the [try] for the value under [Authorization]: [None]
    where it raises, which it does for a value without [encode], that is
    for everything but a string, and where the decoding raises. *)
Definition decoded (v : value) : option string :=
  match v with
  | VStr s => b64decode_text s
  | VOther => None
  end.

(** [authenticate(input_auth_cred)] (lines 43 to 52): [None] for a
    match, a message otherwise. *)
Definition authenticate (input_auth_cred : gmap string value)
  : St State (option string) :=
  match input_auth_cred !! "Authorization" with
  | None => mret (Some "missing key: Authorization")
  | Some v =>
      match decoded v with
      | None =>
          mret (Some "unable to base64 decode the value from Authorization")
      | Some input_auth_value =>
          t ← get_token;
          if differs input_auth_value t
          then mret (Some "mismatch incoming base64 token vs existing token")
          else mret None
      end
  end.

End Collaborators.

End Authenticator.

(** * The vocabulary of the properties *)

(** ** The scan, described without the monad *)

(** The world after [evs] more calls and [reads] more clock reads. *)
Definition after (w : World) (evs : list Event) (reads : nat) : World :=
  {| files := files w; trace := trace w ++ evs;
     clock_reads := clock_reads w + reads |}.

(** Whether the [try] statement appends the key to [missing_keys]. *)
Definition is_missing (r : es_result) : bool :=
  match r with
  | EsReturns RespNone | EsReturns RespNotDict | EsNotFoundError => true
  | EsReturns (RespDict (Some found)) => negb found
  | EsReturns (RespDict None) | EsOtherError => false
  end.

Section ScanTerms.

Variable amb : Ambient.
Variable cfg : Config.
Variable lambda_ctx : option LambdaContext.

(** The answer of the catalog for an object. *)
Definition answer (obj : S3Object) : es_result :=
  opensearch_get amb (OPENSEARCH_INDEX cfg) (opensearch_id cfg obj).

Definition lookup_event (obj : S3Object) : Event :=
  EvEsGet (OPENSEARCH_INDEX cfg) (opensearch_id cfg obj).

(** The local variables after the objects of [objs] were checked. *)
Definition checked (objs : list S3Object) (st : Locals) : Locals :=
  fold_left (λ st obj, classify (answer obj) (Key obj) (count_up st))
            objs st.

(** The keys of the objects the [try] statement records as missing. *)
Definition missing_of (objs : list S3Object) : list string :=
  map Key (List.filter (λ obj, is_missing (answer obj)) objs).

(** The clock reads that [n] passes of the loop make. *)
Definition ticks (n : nat) : nat :=
  match lambda_ctx with Some _ => n | None => 0 end.

(** The [n] reads of the clock from read number [from] on all show a
    minute or more. *)
Definition unhurried (from n : nat) : Prop :=
  ∀ ctx, lambda_ctx = Some ctx →
    ∀ i, i < n →
         (60 * 1000 ≤ get_remaining_time_in_millis ctx (from + i))%Z.

(** How many of [n] objects the loop checks when its first read of the
    clock is read number [from]: all outside a Lambda, and in a Lambda
    those before the first read that shows less than a minute. *)
Fixpoint within_budget (from n : nat) : nat :=
  match n with
  | 0 => 0
  | S n' =>
      match lambda_ctx with
      | None => n
      | Some ctx =>
          if bool_decide
               (get_remaining_time_in_millis ctx from < 60 * 1000)%Z
          then 0
          else S (within_budget (S from) n')
      end
  end.

End ScanTerms.

(** ** The output, described without the monad *)

(** The text of the report: every key followed by a newline. *)
Definition report (missing : list string) : string :=
  foldr (λ key text, (key +:+ Py.newline) +:+ text)
        EmptyString missing.

Section OutputTerms.

Variable cfg : Config.

Definition write_event (path key : string) : Event :=
  EvFileWrite path (key +:+ Py.newline).

Definition send_event (queue : option string) (key : string) : Event :=
  EvSqsSend queue (key_to_sqs_msg key (OPENSEARCH_BUCKET cfg)).

Definition publish_event (topic : string) (n : nat) : Event :=
  EvSnsPublish topic
    ("Parquet stats audit found " +:+ Py.fmt_thousands n
     +:+ " missing keys. Trying to republish to SQS.")
    "Insitu audit".

(** The notification of requeue mode: one when a topic is set. *)
Definition summary (sns_topic : option string) (n : nat) : list Event :=
  match sns_topic with
  | Some topic =>
      if Py.truthy sns_topic then [publish_event topic n] else []
  | None => []
  end.

End OutputTerms.

(** ** A whole run *)

Section RunTerms.

Variable amb : Ambient.
Variable cfg : Config.
Variable lambda_ctx : option LambdaContext.

(** The listing: the entries of all pages, in the order S3 yields
    them. *)
Definition listing : list S3Object :=
  concat (map (default [])
            (s3_paginate amb (OPENSEARCH_BUCKET cfg)
               (OPENSEARCH_PATH_PREFIX cfg))).

Definition list_events : list Event :=
  map (λ _, EvListObjects (OPENSEARCH_BUCKET cfg)
              (OPENSEARCH_PATH_PREFIX cfg))
      (s3_paginate amb (OPENSEARCH_BUCKET cfg) (OPENSEARCH_PATH_PREFIX cfg)).

(** The position the scan starts at. *)
Definition start_of (resume : option py_value) (keys : list S3Object)
  : nat :=
  default 0 (resume ≫= λ v, py_index v keys).

(** The objects the loop walks over. *)
Definition to_scan (resume : option py_value) : list S3Object :=
  drop (start_of resume listing) listing.

Definition locals0 (resume : option py_value) : Locals :=
  {| count := 0; error_count := 0; error_s3_keys := [];
     missing_keys := []; need_to_resume := false;
     resume_from_key := resume |}.

End RunTerms.

(** ** The two shapes of a run *)

Section ShapeTerms.

Variable amb : Ambient.
Variable cfg : Config.

(** The calls of the output step. *)
Definition sink_events (format : string)
    (output_file sns_topic : option string) (missing : list string)
  : list Event :=
  if decide (format = "plain") then
    match output_file with
    | Some path =>
        if Py.truthy output_file
        then EvFileOpen path :: map (write_event path) missing
        else []
    | None => []
    end
  else
    map (send_event cfg output_file) missing
    ++ summary sns_topic (length missing).

(** The files after the output step. *)
Definition sink_files (format : string) (output_file : option string)
    (missing : list string) (fs : gmap string string)
  : gmap string string :=
  if decide (format = "plain") then
    match output_file with
    | Some path =>
        if Py.truthy output_file then <[path := report missing]> fs else fs
    | None => fs
    end
  else fs.

(** The payload that carries the key of [obj] to the next
    invocation. *)
Definition invoke_event (ctx : LambdaContext) (obj : S3Object) : Event :=
  EvLambdaInvoke (function_name ctx) "Event"
    (resume_payload (Some (PyStr (Key obj)))).

(** What a run that is not cut short leaves behind. *)
Definition completed (format : string)
    (output_file sns_topic : option string) (resume : option py_value)
    (lambda_ctx : option LambdaContext) (w : World)
  : Outcome Locals * World :=
  let objs := to_scan amb cfg resume in
  (Returned (checked amb cfg objs (locals0 resume)),
   {| files := sink_files format output_file (missing_of amb cfg objs)
                 (files w);
      trace :=
        trace w ++ list_events amb cfg ++ map (lookup_event cfg) objs
        ++ sink_events format output_file sns_topic
             (missing_of amb cfg objs);
      clock_reads := clock_reads w + ticks lambda_ctx (length objs) |}).

(** What a run leaves behind that stops before [obj], after the objects
    of [pre]. *)
Definition interrupted (format : string)
    (output_file sns_topic : option string) (resume : option py_value)
    (ctx : LambdaContext) (pre : list S3Object) (obj : S3Object)
    (w : World) : Outcome Locals * World :=
  (Returned (suspended obj (checked amb cfg pre (locals0 resume))),
   {| files := sink_files format output_file (missing_of amb cfg pre)
                 (files w);
      trace :=
        trace w ++ list_events amb cfg ++ map (lookup_event cfg) pre
        ++ sink_events format output_file sns_topic
             (missing_of amb cfg pre)
        ++ [invoke_event ctx obj];
      clock_reads := clock_reads w + S (length pre) |}).

End ShapeTerms.

(** ** The catalog and the calls of a run *)

(** The catalog holds exactly the documents of [catalog]: a get of one of
    them returns it, marked as found, and a get of any other id is
    answered with not found, by the exception or by the flag. *)
Definition serves (amb : Ambient) (cfg : Config) (catalog : gset string)
  : Prop :=
  ∀ id,
    if decide (id ∈ catalog)
    then opensearch_get amb (OPENSEARCH_INDEX cfg) id
         = EsReturns (RespDict (Some true))
    else opensearch_get amb (OPENSEARCH_INDEX cfg) id = EsNotFoundError
         ∨ opensearch_get amb (OPENSEARCH_INDEX cfg) id
           = EsReturns (RespDict (Some false)).

(** The listed keys whose document is not in the catalog, in listing
    order. *)
Definition absent_keys (amb : Ambient) (cfg : Config)
    (catalog : gset string) : list string :=
  map Key
    (List.filter (λ o, bool_decide (opensearch_id cfg o ∉ catalog))
       (listing amb cfg)).

(** The ids the catalog was asked for, in the order of the calls. *)
Definition lookup_id (e : Event) : option string :=
  match e with
  | EvEsGet _ id => Some id
  | _ => None
  end.

Definition lookups (tr : list Event) : list string := omap lookup_id tr.

(** How often [key] occurs in a list of keys. *)
Definition occurrences (key : string) (l : list string) : nat :=
  length (List.filter (λ k, bool_decide (k = key)) l).

(** ** The reconcile message on the wire *)

(** White space that JSON allows between tokens. *)
Definition json_ws (c : ascii) : bool :=
  let n := N_of_ascii c in
  ((n =? 32) || (n =? 9) || (n =? 10) || (n =? 13))%N.

(** A JSON text without the white space between its tokens.  [in_str]
    holds inside a string literal and [esc] after a backslash in one;
    characters of a string literal are kept as they are. *)
Fixpoint minify (in_str esc : bool) (s : string) : string :=
  match s with
  | EmptyString => EmptyString
  | String c r =>
      if in_str then
        if esc then String c (minify true false r)
        else if (N_of_ascii c =? 92)%N then String c (minify true true r)
        else if (N_of_ascii c =? 34)%N then String c (minify false false r)
        else String c (minify true false r)
      else if (N_of_ascii c =? 34)%N then String c (minify true false r)
      else if json_ws c then minify false false r
      else String c (minify false false r)
  end.

Definition compact (s : string) : string := minify false false s.

(** The wire format as the specification writes it, compact, with the
    bucket and the key as JSON string literals. *)
Definition wire_format (bucket key : string) : string :=
  "{" +:+ dumps_str "Records" +:+ ":" +:+ "[" +:+ "{"
  +:+ dumps_str "eventName" +:+ ":" +:+ dumps_str "ObjectCreated:Put"
  +:+ "," +:+ dumps_str "s3" +:+ ":" +:+ "{"
  +:+ dumps_str "bucket" +:+ ":" +:+ "{"
  +:+ dumps_str "name" +:+ ":" +:+ dumps_str bucket +:+ "}"
  +:+ "," +:+ dumps_str "object" +:+ ":" +:+ "{"
  +:+ dumps_str "key" +:+ ":" +:+ dumps_str key +:+ "}" +:+ "}" +:+ "}"
  +:+ "]" +:+ "}".

(** The messages put on a queue and the notifications published, in the
    order of the calls. *)
Definition sent_message (e : Event) : option (option string * string) :=
  match e with
  | EvSqsSend queue body => Some (queue, body)
  | _ => None
  end.

Definition sent (tr : list Event) : list (option string * string) :=
  omap sent_message tr.

Definition published_message (e : Event)
  : option (string * string * string) :=
  match e with
  | EvSnsPublish topic message subject => Some (topic, message, subject)
  | _ => None
  end.

Definition published (tr : list Event) : list (string * string * string) :=
  omap published_message tr.

(** ** Example data *)

Module Example.

Definition obj (key : string) : S3Object :=
  {| Key := key; LastModified := 1700000000; ETag := "etag-" +:+ key |}.

Definition env : gmap string string :=
  list_to_map
    [("AWS_ACCESS_KEY_ID", "AKIAEXAMPLE");
     ("AWS_SECRET_ACCESS_KEY", "secret");
     ("OPENSEARCH_ENDPOINT", "search.example.org");
     ("OPENSEARCH_INDEX", "parquet_stats_alias");
     ("OPENSEARCH_PATH_PREFIX", "");
     ("OPENSEARCH_BUCKET", "insitu");
     ("OPENSEARCH_ID_PREFIX", "s3://insitu")].

Definition cfg : Config :=
  {| AWS_ACCESS_KEY_ID := "AKIAEXAMPLE";
     AWS_SECRET_ACCESS_KEY := "secret";
     AWS_SESSION_TOKEN := None;
     OPENSEARCH_ENDPOINT := "search.example.org";
     OPENSEARCH_PORT := "443";
     OPENSEARCH_INDEX := "parquet_stats_alias";
     OPENSEARCH_PATH_PREFIX := "";
     OPENSEARCH_BUCKET := "insitu";
     OPENSEARCH_ID_PREFIX := "s3://insitu/" |}.

(** The catalog of the end-to-end scenario: of [a], [b], [c] and [d]
    only [b] has a record. *)
Definition catalog : gset string := {[ "s3://insitu/b" ]}.

Definition get_from (catalog : gset string) (index id : string)
  : es_result :=
  if decide (id ∈ catalog) then EsReturns (RespDict (Some true))
  else EsNotFoundError.

Definition amb : Ambient :=
  {| environ := env;
     s3_paginate := λ _ _,
       [Some [obj "a"; obj "b"]; None; Some [obj "c"; obj "d"]];
     opensearch_get := get_from catalog |}.

(** A catalog whose lookup of [a] fails with an error that is not
    [NotFoundError], and that has no record of [b]. *)
Definition amb_failing : Ambient :=
  {| environ := env;
     s3_paginate := λ _ _, [Some [obj "a"; obj "b"]];
     opensearch_get := λ _ id,
       if decide (id = "s3://insitu/a") then EsOtherError
       else EsNotFoundError |}.

(** A Lambda context whose clock shows 100 seconds at the first read
    and 30 seconds less at every further one. *)
Definition ctx : LambdaContext :=
  {| function_name := "audit-lambda";
     get_remaining_time_in_millis := λ n, (100000 - 30000 * Z.of_nat n)%Z |}.

(** A Lambda context that is out of time from the start. *)
Definition ctx_late : LambdaContext :=
  {| function_name := "audit-lambda";
     get_remaining_time_in_millis := λ _, 0%Z |}.

(** An environment whose id prefix is the empty string. *)
Definition env_empty_prefix : gmap string string :=
  <["OPENSEARCH_ID_PREFIX" := EmptyString]> env.

End Example.

(** An event of four records: a file under [_temporary], a creation with
    blanks around its name, a removal, and an event that is neither. *)
Definition example_records : list Indexer.S3Record :=
  [ {| Indexer.s3_url := "s3://insitu/_temporary/0/part-0.parquet";
       Indexer.event_name := "ObjectCreated:Put" |};
    {| Indexer.s3_url := "s3://insitu/a.parquet";
       Indexer.event_name := "  ObjectCreated:Put " |};
    {| Indexer.s3_url := "s3://insitu/b.parquet";
       Indexer.event_name := "ObjectRemoved:Delete" |};
    {| Indexer.s3_url := "s3://insitu/c.parquet";
       Indexer.event_name := "ObjectRestore:Post" |} ].

Definition example_s3_stat (url : string) : option Indexer.S3Stat :=
  Some {| Indexer.stat_s3_url := url;
          Indexer.to_json := {[ "bucket" := JString "insitu" ]} |}.

Definition example_statistics (url : string) : option Indexer.Doc :=
  Some {[ "total" := JInt 10 ]}.

(** * Further programs and vocabulary *)

(** ** The command line *)

(** What [parser.parse_args()] returns (lines 227 to 261): the format,
    one of the two choices and [plain] by default, and the output, [None]
    without the option. *)
Record Args := { args_format : string; args_output : option string }.

(** The script as a program (line 262): [audit(args.format,
    args.output)], the three other parameters at their defaults. *)
Definition main (amb : Ambient) (args : Args) : M Locals :=
  audit amb (args_format args) (args_output args) None None None.

(** ** The settings and the calls of a run *)

(** The variables of the environment without which [audit] exits. *)
Definition required_settings : list string :=
  ["AWS_ACCESS_KEY_ID"; "AWS_SECRET_ACCESS_KEY"; "OPENSEARCH_ENDPOINT";
   "OPENSEARCH_INDEX"; "OPENSEARCH_PATH_PREFIX"; "OPENSEARCH_BUCKET"].

Definition is_invoke (e : Event) : bool :=
  match e with
  | EvLambdaInvoke _ _ _ => true
  | _ => false
  end.

(** The lookup ended in the last handler: it raised an exception other
    than [NotFoundError], or returned a dict without ['found']. *)
Definition is_other_error (r : es_result) : bool :=
  match r with
  | EsReturns (RespDict None) | EsOtherError => true
  | _ => false
  end.

(** The example environment without an id prefix. *)
Definition env_without_id_prefix : gmap string string :=
  delete "OPENSEARCH_ID_PREFIX" Example.env.

Definition is_lookup_call (e : Event) : bool :=
  match e with
  | EvEsGet _ _ => true
  | _ => false
  end.

(** The calls of the output step: to the file, the queue and the
    topic. *)
Definition is_output_call (e : Event) : bool :=
  match e with
  | EvFileOpen _ | EvFileWrite _ _ | EvSqsSend _ _ | EvSnsPublish _ _ _ =>
      true
  | _ => false
  end.

(** How many of the objects of [objs] have a lookup that ends in the
    last handler. *)
Definition failed_lookups (amb : Ambient) (cfg : Config)
    (objs : list S3Object) : nat :=
  length (List.filter (λ obj, is_other_error (answer amb cfg obj)) objs).

(** A bucket in which nothing is listed: one page without
    ['Contents']. *)
Definition empty_bucket : Ambient :=
  {| environ := Example.env;
     s3_paginate := λ _ _, [None];
     opensearch_get := Example.get_from Example.catalog |}.

(** An entry that the example does not list. *)
Definition unlisted_entry : S3Object := Example.obj "z".

(** ** Reading the reconcile message back *)

(** The value of a lower-case hex digit. *)
Definition hex_value (c : ascii) : option N :=
  let n := N_of_ascii c in
  if ((48 <=? n) && (n <=? 57))%N then Some (n - 48)%N
  else if ((97 <=? n) && (n <=? 102))%N then Some (n - 87)%N
  else None.

(** The character that a letter after a backslash stands for. *)
Definition unescape_letter (e : ascii) : option ascii :=
  let n := N_of_ascii e in
  if (n =? 34)%N then Some quote
  else if (n =? 92)%N then Some backslash
  else if (n =? 110)%N then Some "010"%char
  else if (n =? 114)%N then Some "013"%char
  else if (n =? 116)%N then Some "009"%char
  else if (n =? 98)%N then Some "008"%char
  else if (n =? 102)%N then Some "012"%char
  else None.

(** A JSON string literal read from behind its opening quote: the text
    up to the closing quote, with the escapes that [json.dumps] writes
    for code points below 256 undone, and what follows the closing
    quote. *)
Fixpoint read_literal (s : string) : option (string * string) :=
  match s with
  | EmptyString => None
  | String c r =>
      if (N_of_ascii c =? 34)%N then Some (EmptyString, r)
      else if (N_of_ascii c =? 92)%N then
        match r with
        | String e r' =>
            if (N_of_ascii e =? 117)%N then
              match r' with
              | String "0" (String "0" (String h (String l r''))) =>
                  match hex_value h, hex_value l, read_literal r'' with
                  | Some a, Some b, Some (t, rest) =>
                      Some (String (ascii_of_N (16 * a + b)) t, rest)
                  | _, _, _ => None
                  end
              | _ => None
              end
            else
              match unescape_letter e, read_literal r' with
              | Some c', Some (t, rest) => Some (String c' t, rest)
              | _, _ => None
              end
        | EmptyString => None
        end
      else
        match read_literal r with
        | Some (t, rest) => Some (String c t, rest)
        | None => None
        end
  end.

(** [s] without its beginning [p], when it begins with [p]. *)
Fixpoint skip (p s : string) : option string :=
  match p, s with
  | EmptyString, _ => Some s
  | String a p', String b s' => if Ascii.eqb a b then skip p' s' else None
  | String _ _, EmptyString => None
  end.

(** The fixed text of the message: up to the bucket, between the bucket
    and the key, and after the key. *)
Definition message_head : string :=
  "{" +:+ dumps_str "Records" +:+ ": [{" +:+ dumps_str "eventName"
  +:+ ": " +:+ dumps_str "ObjectCreated:Put" +:+ ", " +:+ dumps_str "s3"
  +:+ ": {" +:+ dumps_str "bucket" +:+ ": {" +:+ dumps_str "name"
  +:+ ": " +:+ String quote EmptyString.

Definition message_mid : string :=
  "}, " +:+ dumps_str "object" +:+ ": {" +:+ dumps_str "key" +:+ ": "
  +:+ String quote EmptyString.

Definition message_tail : string := "}}}]}".

(** The bucket and the key of a reconcile message. *)
Definition read_message (body : string) : option (string * string) :=
  match skip message_head body with
  | Some s1 =>
      match read_literal s1 with
      | Some (bucket, s2) =>
          match skip message_mid s2 with
          | Some s3 =>
              match read_literal s3 with
              | Some (key, s4) =>
                  if decide (s4 = message_tail) then Some (bucket, key)
                  else None
              | None => None
              end
          | None => None
          end
      | None => None
      end
  | None => None
  end.

(** A character of printable ASCII, from the blank to the tilde. *)
Definition printable_ascii (c : ascii) : bool :=
  let n := N_of_ascii c in ((32 <=? n) && (n <=? 126))%N.

Fixpoint printable (s : string) : bool :=
  match s with
  | EmptyString => true
  | String c r => printable_ascii c && printable r
  end.

(** ** Event names and extractors *)

(** A string of white space only. *)
Fixpoint all_space (s : string) : bool :=
  match s with
  | EmptyString => true
  | String c r => Py.isspace c && all_space r
  end.

(** An extraction of the S3 statistics that raises for a file of the
    name [broken] and returns for every other. *)
Definition broken_s3_stat (url : string) : option Indexer.S3Stat :=
  if Py.contains "broken" url then None else example_s3_stat url.

(** An event whose first record cannot be extracted and whose second
    is a removal. *)
Definition broken_records : list Indexer.S3Record :=
  [ {| Indexer.s3_url := "s3://insitu/broken.parquet";
       Indexer.event_name := "ObjectCreated:Put" |};
    {| Indexer.s3_url := "s3://insitu/b.parquet";
       Indexer.event_name := "ObjectRemoved:Delete" |} ].

(** ** An example secret *)

(** A secret manager that holds one secret, a JSON reader that knows its
    text, and a decoder that knows one header value. *)
Definition example_get_secret (cred_name : string) : option string :=
  if decide (cred_name = "insitu-auth") then Some "secret-text" else None.

Definition example_json_loads (text : string) : option json :=
  if decide (text = "secret-text")
  then Some (JObject
               [("auth_cred",
                 JObject [("auth_cred", JString "user:pass")])])
  else None.

Definition example_b64decode (v : string) : option string :=
  if decide (v = "dXNlcjpwYXNz") then Some "user:pass" else None.

(** ** The text of the reconcile message, written out *)

(** The double quote, by its code. *)
Definition dq : string := String "034" EmptyString.

(** A JSON string literal of a text that needs no escape: the text
    between two quotes. *)
Definition lit (s : string) : string := dq +:+ s +:+ dq.

(** A character that a JSON string literal holds as it is: printable
    ASCII other than the quote and the backslash. *)
Definition plain_char (c : ascii) : bool :=
  let n := N_of_ascii c in
  ((32 <=? n) && (n <=? 126) && negb (n =? 34) && negb (n =? 92))%N.

Fixpoint plain_text (s : string) : bool :=
  match s with
  | EmptyString => true
  | String c r => plain_char c && plain_text r
  end.

(** The text of the message for a bucket and a key of such characters,
    as [json.dumps] prints it: a blank after every colon and comma. *)
Definition event_text (bucket key : string) : string :=
  "{" +:+ lit "Records" +:+ ": [{" +:+ lit "eventName" +:+ ": "
  +:+ lit "ObjectCreated:Put" +:+ ", " +:+ lit "s3" +:+ ": {"
  +:+ lit "bucket" +:+ ": {" +:+ lit "name" +:+ ": " +:+ lit bucket
  +:+ "}, " +:+ lit "object" +:+ ": {" +:+ lit "key" +:+ ": "
  +:+ lit key +:+ "}}}]}".

(** The same message as the specification prints it, without
    blanks. *)
Definition spec_text (bucket key : string) : string :=
  "{" +:+ lit "Records" +:+ ":[{" +:+ lit "eventName" +:+ ":"
  +:+ lit "ObjectCreated:Put" +:+ "," +:+ lit "s3" +:+ ":{"
  +:+ lit "bucket" +:+ ":{" +:+ lit "name" +:+ ":" +:+ lit bucket
  +:+ "}," +:+ lit "object" +:+ ":{" +:+ lit "key" +:+ ":"
  +:+ lit key +:+ "}}}]}".

(** * Properties *)

(** ** The loop *)

Lemma after_0 w : after w [] 0 = w.
Proof.
  destruct w; unfold after; simpl. by rewrite app_nil_r, Nat.add_0_r.
Qed.

Lemma after_after w e1 n1 e2 n2 :
  after (after w e1 n1) e2 n2 = after w (e1 ++ e2) (n1 + n2).
Proof. unfold after; simpl. by rewrite app_assoc, Nat.add_assoc. Qed.

Lemma missing_keys_classify r key st :
  missing_keys (classify r key st)
  = missing_keys st ++ (if is_missing r then [key] else []).
Proof.
  destruct r as [[| |[[|]|]]| |]; simpl; by rewrite ?app_nil_r.
Qed.

Lemma need_to_resume_classify r key st :
  need_to_resume (classify r key st) = need_to_resume st.
Proof. by destruct r as [[| |[[|]|]]| |]. Qed.

Lemma resume_from_key_classify r key st :
  resume_from_key (classify r key st) = resume_from_key st.
Proof. by destruct r as [[| |[[|]|]]| |]. Qed.

Lemma count_classify r key st : count (classify r key st) = count st.
Proof. by destruct r as [[| |[[|]|]]| |]. Qed.

Section Scan.

Variable amb : Ambient.
Variable cfg : Config.
Variable lambda_ctx : option LambdaContext.

Lemma missing_keys_checked objs st :
  missing_keys (checked amb cfg objs st)
  = missing_keys st ++ missing_of amb cfg objs.
Proof.
  unfold checked, missing_of.
  revert st; induction objs as [|obj objs IH]; intros st; simpl.
  - by rewrite app_nil_r.
  - rewrite IH, missing_keys_classify. simpl.
    destruct (is_missing (answer amb cfg obj)); simpl.
    + by rewrite <- app_assoc.
    + by rewrite app_nil_r.
Qed.

Lemma count_checked objs st :
  count (checked amb cfg objs st) = count st + length objs.
Proof.
  unfold checked.
  revert st; induction objs as [|obj objs IH]; intros st; simpl.
  - lia.
  - rewrite IH, count_classify. simpl. lia.
Qed.

Lemma need_to_resume_checked objs st :
  need_to_resume (checked amb cfg objs st) = need_to_resume st.
Proof.
  unfold checked.
  revert st; induction objs as [|obj objs IH]; intros st; simpl; [done|].
  by rewrite IH, need_to_resume_classify.
Qed.

Lemma resume_from_key_checked objs st :
  resume_from_key (checked amb cfg objs st) = resume_from_key st.
Proof.
  unfold checked.
  revert st; induction objs as [|obj objs IH]; intros st; simpl; [done|].
  by rewrite IH, resume_from_key_classify.
Qed.

Lemma checked_app l1 l2 st :
  checked amb cfg (l1 ++ l2) st = checked amb cfg l2 (checked amb cfg l1 st).
Proof. unfold checked. by rewrite fold_left_app. Qed.

Lemma time_is_short_unhurried w :
  unhurried lambda_ctx (clock_reads w) 1 →
  time_is_short lambda_ctx w
  = (Returned false, after w [] (ticks lambda_ctx 1)).
Proof.
  intros Hok. unfold time_is_short, ticks, unhurried in *.
  destruct lambda_ctx as [ctx|].
  - specialize (Hok ctx eq_refl 0 ltac:(lia)).
    rewrite Nat.add_0_r in Hok.
    rewrite bool_decide_eq_false_2 by lia.
    unfold after. by rewrite app_nil_r, Nat.add_1_r.
  - by rewrite after_0.
Qed.

Lemma within_budget_unhurried from n :
  unhurried lambda_ctx from n → within_budget lambda_ctx from n = n.
Proof.
  revert from. induction n as [|n IH]; intros from Hok; [done|].
  simpl. destruct lambda_ctx as [ctx|] eqn:Hctx; [|done].
  rewrite bool_decide_eq_false_2.
  - f_equal. apply IH. intros ctx' [= <-] i Hi.
    replace (S from + i) with (from + S i) by lia.
    apply Hok; [done|lia].
  - specialize (Hok ctx eq_refl 0 ltac:(lia)).
    rewrite Nat.add_0_r in Hok. lia.
Qed.

Lemma within_budget_short ctx from k m :
  lambda_ctx = Some ctx →
  unhurried lambda_ctx from k →
  (get_remaining_time_in_millis ctx (from + k) < 60 * 1000)%Z →
  within_budget lambda_ctx from (k + S m) = k.
Proof.
  intros Hctx. revert from. induction k as [|k IH]; intros from Hok Hshort.
  - simpl. rewrite Hctx, bool_decide_eq_true_2; [done|].
    by rewrite Nat.add_0_r in Hshort.
  - simpl. rewrite Hctx, bool_decide_eq_false_2.
    + f_equal. rewrite <- Hctx. apply IH.
      * intros ctx' Hctx' i Hi.
        replace (S from + i) with (from + S i) by lia.
        apply Hok; [done|lia].
      * by replace (S from + k) with (from + S k) by lia.
    + specialize (Hok ctx Hctx 0 ltac:(lia)).
      rewrite Nat.add_0_r in Hok. lia.
Qed.

(** While the clock shows a minute or more the loop checks one object
    after the other. *)
Lemma scan_unhurried pre rest st w :
  unhurried lambda_ctx (clock_reads w) (length pre) →
  scan amb cfg lambda_ctx (pre ++ rest) st w
  = scan amb cfg lambda_ctx rest (checked amb cfg pre st)
      (after w (map (lookup_event cfg) pre) (ticks lambda_ctx (length pre))).
Proof.
  revert st w. induction pre as [|obj pre IH]; intros st w Hok.
  - simpl. unfold ticks. destruct lambda_ctx; by rewrite after_0.
  - simpl app. simpl scan. unfold mbind at 1, St_bind at 1.
    rewrite time_is_short_unhurried; last first.
    { intros ctx Hctx i Hi. apply Hok; simpl; [done|lia]. }
    unfold mbind at 1, St_bind at 1. unfold check_object.
    unfold mbind at 1, St_bind at 1. unfold emit, mret, St_ret. simpl.
    rewrite IH; last first.
    { intros ctx Hctx i Hi. simpl.
      replace (clock_reads w + ticks lambda_ctx 1 + i)
        with (clock_reads w + S i).
      - apply Hok; simpl; [done|lia].
      - unfold ticks. rewrite Hctx. lia. }
    f_equal. unfold after, ticks. simpl.
    rewrite app_nil_r, <- app_assoc. simpl.
    destruct lambda_ctx; f_equal; lia.
Qed.

(** A run of the loop that the clock never cuts short. *)
Lemma scan_complete keys st w :
  unhurried lambda_ctx (clock_reads w) (length keys) →
  scan amb cfg lambda_ctx keys st w
  = (Returned (checked amb cfg keys st),
     after w (map (lookup_event cfg) keys) (ticks lambda_ctx (length keys))).
Proof.
  intros Hok. rewrite <- (app_nil_r keys) at 1.
  by rewrite scan_unhurried.
Qed.

(** With the clock short the loop stops before it looks the object
    up. *)
Lemma scan_short ctx obj rest st w :
  lambda_ctx = Some ctx →
  (get_remaining_time_in_millis ctx (clock_reads w) < 60 * 1000)%Z →
  scan amb cfg lambda_ctx (obj :: rest) st w
  = (Returned (suspended obj st), after w [] 1).
Proof.
  intros Hctx Hshort. simpl scan. unfold mbind, St_bind, time_is_short.
  rewrite Hctx, bool_decide_eq_true_2 by done.
  unfold mret, St_ret, after. by rewrite app_nil_r, Nat.add_1_r.
Qed.

End Scan.

(** ** The output and the re-invocation, described without the monad *)

Lemma str_app_cons a s t : String a s +:+ t = String a (s +:+ t).
Proof. reflexivity. Qed.

Lemma str_app_nil_l s : EmptyString +:+ s = s.
Proof. reflexivity. Qed.

Lemma str_app_nil_r s : s +:+ EmptyString = s.
Proof. induction s as [|a s IH]; [done|]. by rewrite str_app_cons, IH. Qed.

Lemma str_app_assoc s t u : (s +:+ t) +:+ u = s +:+ (t +:+ u).
Proof.
  induction s as [|a s IH]; [done|]. by rewrite !str_app_cons, IH.
Qed.

Lemma report_cons key missing :
  report (key :: missing)
  = (key +:+ Py.newline) +:+ report missing.
Proof. reflexivity. Qed.

Lemma for_each_emit {A} (f : A → Event) (l : list A) w :
  for_each l (λ x, emit (f x)) w = (Returned tt, after w (map f l) 0).
Proof.
  revert w. induction l as [|x l IH]; intros w; simpl.
  - unfold mret, St_ret. by rewrite after_0.
  - unfold mbind, St_bind, emit. rewrite IH. f_equal.
    unfold after; simpl. rewrite <- app_assoc. simpl. f_equal; lia.
Qed.

Lemma for_each_file_write path (missing : list string) w :
  for_each missing
    (λ key, file_write path (key +:+ Py.newline)) w
  = match missing with
    | [] => (Returned tt, w)
    | _ =>
      (Returned tt,
       {| files :=
            <[path := default EmptyString (files w !! path)
                      +:+ report missing]> (files w);
          trace :=
            trace w
            ++ map (λ key,
                      EvFileWrite path (key +:+ Py.newline))
                 missing;
          clock_reads := clock_reads w |})
    end.
Proof.
  revert w. induction missing as [|key missing IH]; intros w; [done|].
  simpl for_each. unfold mbind, St_bind. unfold file_write at 1.
  rewrite IH. destruct missing as [|key' missing].
  - simpl. by rewrite str_app_nil_r.
  - f_equal. cbn [files trace clock_reads].
    rewrite lookup_insert_eq, insert_insert_eq. cbn [default]. unfold id.
    f_equal.
    + f_equal. rewrite (report_cons key). by rewrite str_app_assoc.
    + by rewrite <- app_assoc.
Qed.

Section Output.

Variable cfg : Config.

(** Report mode with a destination: the file is created or truncated
    and holds the report. *)
Lemma write_results_plain path sns_topic missing w :
  path ≠ EmptyString →
  write_results cfg "plain" (Some path) sns_topic missing w
  = (Returned tt,
     {| files := <[path := report missing]> (files w);
        trace := trace w ++ EvFileOpen path :: map (write_event path) missing;
        clock_reads := clock_reads w |}).
Proof.
  intros Hpath. unfold write_results.
  rewrite decide_True by done.
  replace (Py.truthy (Some path)) with true
    by (by destruct path as [|a s]).
  unfold mbind, St_bind, file_open_w.
  rewrite for_each_file_write. destruct missing as [|key missing].
  - done.
  - cbn [files trace clock_reads].
    rewrite lookup_insert_eq, insert_insert_eq. cbn [default]. unfold id.
    rewrite str_app_nil_l. f_equal. f_equal.
    by rewrite <- app_assoc.
Qed.

(** Report mode without a destination: nothing leaves the process. *)
Lemma write_results_plain_none output_file sns_topic missing w :
  Py.truthy output_file = false →
  write_results cfg "plain" output_file sns_topic missing w
  = (Returned tt, w).
Proof.
  intros Hfalsy. unfold write_results. rewrite decide_True by done.
  destruct output_file as [path|]; [|done]. by rewrite Hfalsy.
Qed.

(** Every other format: a message for each key, then the
    notification. *)
Lemma write_results_requeue format output_file sns_topic missing w :
  format ≠ "plain" →
  write_results cfg format output_file sns_topic missing w
  = (Returned tt,
     after w (map (send_event cfg output_file) missing
              ++ summary sns_topic (length missing)) 0).
Proof.
  intros Hformat. unfold write_results.
  rewrite decide_False by done.
  unfold mbind, St_bind.
  rewrite (for_each_emit (EvSqsSend output_file)).
  rewrite map_map. fold (send_event cfg output_file).
  unfold summary. destruct sns_topic as [topic|].
  - destruct (Py.truthy (Some topic)).
    + unfold emit. f_equal. unfold after; simpl.
      rewrite <- app_assoc. f_equal; lia.
    + unfold mret, St_ret. by rewrite app_nil_r.
  - unfold mret, St_ret. by rewrite app_nil_r.
Qed.

End Output.

(** ** A whole run *)

Section Run.

Variable amb : Ambient.
Variable cfg : Config.
Variable lambda_ctx : option LambdaContext.

Lemma list_keys_spec w :
  list_keys amb cfg w
  = (Returned (listing amb cfg), after w (list_events amb cfg) 0).
Proof.
  unfold list_keys, mbind, St_bind.
  by rewrite (for_each_emit
                (λ _, EvListObjects (OPENSEARCH_BUCKET cfg)
                        (OPENSEARCH_PATH_PREFIX cfg))).
Qed.

Lemma py_index_in v keys :
  py_in v keys = true → is_Some (py_index v keys).
Proof.
  unfold py_in. induction keys as [|o keys IH]; simpl; [done|].
  destruct (py_eq_obj v o); simpl; [by eexists|].
  intros [i Hi]%IH. rewrite Hi. by eexists.
Qed.

Lemma py_index_not_in v keys :
  py_in v keys = false → py_index v keys = None.
Proof.
  unfold py_in. induction keys as [|o keys IH]; simpl; [done|].
  destruct (py_eq_obj v o); simpl; [done|].
  intros Hnot. by rewrite IH.
Qed.

(** The guard [resume_from_key in keys] keeps [keys.index] from
    raising. *)
Lemma start_index_spec resume keys w :
  start_index resume keys w = (Returned (start_of resume keys), w).
Proof.
  unfold start_index, start_of. destruct resume as [v|]; [|done]. simpl.
  destruct (py_in v keys) eqn:Hin.
  - destruct (py_index_in _ _ Hin) as [i Hi]. by rewrite Hi.
  - by rewrite (py_index_not_in _ _ Hin).
Qed.

(** A string is never found in the listing, whose entries are dicts. *)
Lemma py_index_str s keys : py_index (PyStr s) keys = None.
Proof. induction keys as [|o keys IH]; simpl; [done|]. by rewrite IH. Qed.

Lemma to_scan_str s : to_scan amb cfg (Some (PyStr s)) = listing amb cfg.
Proof. unfold to_scan, start_of. simpl. by rewrite py_index_str. Qed.

Lemma to_scan_none : to_scan amb cfg None = listing amb cfg.
Proof. done. Qed.

(** A run that the clock does not cut short: the listing, a lookup for
    every object to scan, the output for the keys found missing, no
    re-invocation. *)
Lemma audit_run_complete format output_file sns_topic resume w :
  unhurried lambda_ctx
    (clock_reads w) (length (to_scan amb cfg resume)) →
  audit_run amb cfg lambda_ctx format output_file sns_topic resume w
  = match
      write_results cfg format output_file sns_topic
        (missing_of amb cfg (to_scan amb cfg resume))
        (after w
           (list_events amb cfg
            ++ map (lookup_event cfg) (to_scan amb cfg resume))
           (ticks lambda_ctx (length (to_scan amb cfg resume))))
    with
    | (Returned _, w') =>
        (Returned (checked amb cfg (to_scan amb cfg resume) (locals0 resume)),
         w')
    | (Raised e, w') => (Raised e, w')
    end.
Proof.
  intros Hok. unfold audit_run.
  unfold mbind at 1, St_bind at 1. rewrite list_keys_spec.
  unfold mbind at 1, St_bind at 1. rewrite start_index_spec.
  unfold mbind at 1, St_bind at 1.
  fold (to_scan amb cfg resume) (locals0 resume).
  rewrite scan_complete by (simpl; by rewrite Nat.add_0_r).
  rewrite after_after. simpl.
  unfold mbind at 1, St_bind at 1.
  rewrite missing_keys_checked. simpl.
  destruct (write_results _ _ _ _ _ _) as [[[]|e] w']; [|done].
  unfold mbind, St_bind, reinvoke.
  by rewrite need_to_resume_checked.
Qed.

(** A run that finds the clock short before the object at position
    [length pre]: the objects before it are looked up, the output is
    written for the keys found missing among them, and the function
    invokes itself with the key of that object. *)
Lemma audit_run_suspended format output_file sns_topic resume
    ctx pre obj rest w :
  lambda_ctx = Some ctx →
  to_scan amb cfg resume = pre ++ obj :: rest →
  unhurried lambda_ctx (clock_reads w) (length pre) →
  (get_remaining_time_in_millis ctx (clock_reads w + length pre)
   < 60 * 1000)%Z →
  audit_run amb cfg lambda_ctx format output_file sns_topic resume w
  = match
      write_results cfg format output_file sns_topic
        (missing_of amb cfg pre)
        (after w (list_events amb cfg ++ map (lookup_event cfg) pre)
           (S (length pre)))
    with
    | (Returned _, w') =>
        (Returned (suspended obj (checked amb cfg pre (locals0 resume))),
         after w'
           [EvLambdaInvoke (function_name ctx) "Event"
              (resume_payload (Some (PyStr (Key obj))))] 0)
    | (Raised e, w') => (Raised e, w')
    end.
Proof.
  intros Hctx Hsplit Hok Hshort. unfold audit_run.
  unfold mbind at 1, St_bind at 1. rewrite list_keys_spec.
  unfold mbind at 1, St_bind at 1. rewrite start_index_spec.
  unfold mbind at 1, St_bind at 1.
  fold (to_scan amb cfg resume) (locals0 resume).
  rewrite Hsplit, scan_unhurried by (simpl; by rewrite Nat.add_0_r).
  rewrite after_after.
  rewrite (scan_short _ _ _ ctx); [|done|]; last first.
  { unfold ticks. rewrite Hctx. by simpl. }
  rewrite after_after, app_nil_r.
  replace (0 + ticks lambda_ctx (length pre) + 1) with (S (length pre))
    by (unfold ticks; rewrite Hctx; lia).
  unfold mbind at 1, St_bind at 1.
  cbn [suspended missing_keys]. rewrite missing_keys_checked. simpl app.
  destruct (write_results _ _ _ _ _ _) as [[[]|e] w']; [|done].
  unfold mbind, St_bind, reinvoke. rewrite Hctx.
  change (need_to_resume (suspended obj ?st)) with true.
  change (resume_from_key (suspended obj ?st))
    with (Some (PyStr (Key obj))).
  unfold emit, mret, St_ret. f_equal. unfold after. f_equal; lia.
Qed.

End Run.

(** ** The two shapes of a run *)

Section Shapes.

Variable amb : Ambient.
Variable cfg : Config.

Lemma write_results_spec format output_file sns_topic missing w :
  write_results cfg format output_file sns_topic missing w
  = (Returned tt,
     {| files := sink_files format output_file missing (files w);
        trace :=
          trace w ++ sink_events cfg format output_file sns_topic missing;
        clock_reads := clock_reads w |}).
Proof.
  unfold sink_events, sink_files.
  destruct (decide (format = "plain")) as [->|Hformat].
  - destruct (Py.truthy output_file) eqn:Htruthy.
    + destruct output_file as [path|]; [|done].
      apply write_results_plain.
      intros ->. simpl in Htruthy. done.
    + rewrite write_results_plain_none by done.
      destruct w, output_file; rewrite ?Htruthy; simpl;
        by rewrite app_nil_r.
  - rewrite write_results_requeue by done.
    unfold after. by rewrite Nat.add_0_r.
Qed.

Lemma audit_run_completed format output_file sns_topic resume
    lambda_ctx w :
  unhurried lambda_ctx (clock_reads w)
    (length (to_scan amb cfg resume)) →
  audit_run amb cfg lambda_ctx format output_file sns_topic resume w
  = completed amb cfg format output_file sns_topic resume lambda_ctx w.
Proof.
  intros Hok. rewrite audit_run_complete by done.
  rewrite write_results_spec. unfold completed, after. simpl.
  by rewrite <- !app_assoc.
Qed.

Lemma audit_run_interrupted format output_file sns_topic resume
    ctx pre obj rest w :
  to_scan amb cfg resume = pre ++ obj :: rest →
  unhurried (Some ctx) (clock_reads w) (length pre) →
  (get_remaining_time_in_millis ctx (clock_reads w + length pre)
   < 60 * 1000)%Z →
  audit_run amb cfg (Some ctx) format output_file sns_topic resume w
  = interrupted amb cfg format output_file sns_topic resume ctx pre obj
      w.
Proof.
  intros Hsplit Hok Hshort.
  rewrite (audit_run_suspended amb cfg (Some ctx) _ _ _ _ ctx pre obj rest)
    by done.
  rewrite write_results_spec. unfold interrupted, after, invoke_event.
  simpl. rewrite <- !app_assoc. do 2 f_equal. lia.
Qed.

(** The clock decides between the two: either every read before an
    object shows a minute or more, or there is a first one that shows
    less. *)
Lemma clock_cases lambda_ctx from (keys : list S3Object) :
  unhurried lambda_ctx from (length keys)
  ∨ ∃ ctx pre obj rest,
      lambda_ctx = Some ctx ∧ keys = pre ++ obj :: rest
      ∧ unhurried lambda_ctx from (length pre)
      ∧ (get_remaining_time_in_millis ctx (from + length pre)
         < 60 * 1000)%Z.
Proof.
  destruct lambda_ctx as [ctx|]; [|left; by intros ctx ?].
  induction keys as [|obj keys IH] using rev_ind.
  - left. intros ctx' _ i Hi. simpl in Hi. lia.
  - destruct IH as [Hok|(ctx' & pre & obj' & rest & Hctx & -> & Hok & Hshort)].
    + destruct (decide (get_remaining_time_in_millis ctx
                          (from + length keys) < 60 * 1000)%Z)
        as [Hshort|Hlong].
      * right. exists ctx, keys, obj, []. done.
      * left. intros ctx' [= <-] i Hi. rewrite length_app in Hi.
        simpl in Hi. destruct (decide (i = length keys)) as [->|Hne].
        -- lia.
        -- apply Hok; [done|lia].
    + right. exists ctx', pre, obj', (rest ++ [obj]).
      by rewrite <- app_assoc.
Qed.

(** Every run of the part after the two checks has one of the two
    shapes, and the clock tells which. *)
Lemma audit_run_cases format output_file sns_topic resume lambda_ctx w :
  (unhurried lambda_ctx (clock_reads w) (length (to_scan amb cfg resume))
   ∧ audit_run amb cfg lambda_ctx format output_file sns_topic resume w
     = completed amb cfg format output_file sns_topic resume lambda_ctx w)
  ∨ ∃ ctx pre obj rest,
      lambda_ctx = Some ctx
      ∧ to_scan amb cfg resume = pre ++ obj :: rest
      ∧ unhurried lambda_ctx (clock_reads w) (length pre)
      ∧ (get_remaining_time_in_millis ctx (clock_reads w + length pre)
         < 60 * 1000)%Z
      ∧ audit_run amb cfg lambda_ctx format output_file sns_topic resume w
        = interrupted amb cfg format output_file sns_topic resume ctx pre
            obj w.
Proof.
  destruct (clock_cases lambda_ctx (clock_reads w) (to_scan amb cfg resume))
    as [Hok|(ctx & pre & obj & rest & -> & Hsplit & Hok & Hshort)].
  - left. split; [done|]. by apply audit_run_completed.
  - right. exists ctx, pre, obj, rest. split_and!; [done..|].
    by eapply audit_run_interrupted.
Qed.

End Shapes.

(** ** Report mode and the first check *)

Lemma missing_of_serves amb cfg catalog objs :
  serves amb cfg catalog →
  missing_of amb cfg objs
  = map Key
      (List.filter (λ o, bool_decide (opensearch_id cfg o ∉ catalog)) objs).
Proof.
  intros Hserves. unfold missing_of. f_equal.
  apply List.filter_ext. intros o. unfold answer.
  specialize (Hserves (opensearch_id cfg o)).
  destruct (decide (opensearch_id cfg o ∈ catalog)) as [Hin|Hout].
  - rewrite Hserves. simpl. by rewrite bool_decide_eq_false_2 by auto.
  - rewrite bool_decide_eq_true_2 by done.
    by destruct Hserves as [-> | ->].
Qed.

(** The first check of [audit] passes when the format is not ['mock-s3']
    or there is a destination. *)
Lemma audit_configured amb cfg format output_file sns_topic resume
    lambda_ctx w :
  (format = "mock-s3" → Py.truthy output_file = true) →
  read_config (environ amb) = Some cfg →
  audit amb format output_file sns_topic resume lambda_ctx w
  = audit_run amb cfg lambda_ctx format output_file sns_topic resume w.
Proof.
  intros Hdest Hcfg. unfold audit. rewrite Hcfg.
  destruct (bool_decide (format = "mock-s3")) eqn:Hformat; [|done].
  apply bool_decide_eq_true in Hformat. by rewrite (Hdest Hformat).
Qed.

(** C1.  One run without a resume key and without time pressure: the
    missing keys are exactly the listed keys that have no document in the
    catalog, in listing order, whatever the output mode; in report mode
    with a destination file, the file holds those keys in that order, each
    followed by a newline. *)
Theorem audit_reports_absent_keys amb cfg (catalog : gset string)
    lambda_ctx fs :
  read_config (environ amb) = Some cfg →
  serves amb cfg catalog →
  unhurried lambda_ctx 0 (length (listing amb cfg)) →
  (∀ format output_file sns_topic,
     (format = "mock-s3" → Py.truthy output_file = true) →
     ∃ st w',
       audit amb format output_file sns_topic None lambda_ctx
         (initial_world fs) = (Returned st, w')
       ∧ missing_keys st = absent_keys amb cfg catalog)
  ∧ (∀ path sns_topic,
       path ≠ EmptyString →
       ∃ st w',
         audit amb "plain" (Some path) sns_topic None lambda_ctx
           (initial_world fs) = (Returned st, w')
         ∧ missing_keys st = absent_keys amb cfg catalog
         ∧ files w' !! path = Some (report (absent_keys amb cfg catalog))).
Proof.
  intros Hcfg Hserves Hok. split.
  - intros format output_file sns_topic Hdest.
    rewrite (audit_configured amb cfg) by done.
    rewrite audit_run_completed by done.
    eexists _, _. split; [done|].
    rewrite missing_keys_checked, to_scan_none. simpl.
    by apply missing_of_serves.
  - intros path sns_topic Hpath.
    rewrite (audit_configured amb cfg) by done.
    rewrite audit_run_completed by done.
    eexists _, _. split; [done|].
    rewrite missing_keys_checked, to_scan_none. simpl.
    rewrite (missing_of_serves amb cfg catalog) by done.
    split; [done|]. unfold sink_files. simpl.
    destruct path as [|a s]; [done|]. by rewrite lookup_insert_eq.
Qed.

Lemma example_serves : serves Example.amb Example.cfg Example.catalog.
Proof.
  intros id. simpl. unfold Example.get_from.
  destruct (decide (id ∈ Example.catalog)); auto.
Defined.

Lemma example_unhurried n : unhurried None 0 n.
Proof. intros ctx Hctx. discriminate Hctx. Defined.

(** The end-to-end scenario of report mode: of [a], [b], [c] and [d] only
    [b] is in the catalog, and the file holds [a], [c] and [d]. *)
Lemma audit_reports_absent_keys_witness :
  ∃ st w',
    audit Example.amb "plain" (Some "missing.txt") None None None
      (initial_world ∅) = (Returned st, w')
    ∧ missing_keys st = ["a"; "c"; "d"]
    ∧ files w' !! "missing.txt"
      = Some ("a" +:+ Py.newline +:+ "c" +:+ Py.newline
              +:+ "d" +:+ Py.newline).
Proof.
  destruct (audit_reports_absent_keys Example.amb Example.cfg
              Example.catalog None ∅ eq_refl example_serves
              (example_unhurried _)) as [_ Hfile].
  destruct (Hfile "missing.txt" None ltac:(done))
    as (st & w' & Hrun & Hmissing & Hcontent).
  exists st, w'. split; [exact Hrun|]. split.
  - rewrite Hmissing. vm_compute. reflexivity.
  - rewrite Hcontent. vm_compute. reflexivity.
Defined.

(** C5.  Requeue mode without a destination, be it [None] or the empty
    string: [audit] raises before it touches anything; the world, with its
    record of the calls made, is as it was. *)
Theorem requeue_without_destination_fails_first amb sns_topic resume
    lambda_ctx w :
  audit amb "mock-s3" None sns_topic resume lambda_ctx w
  = (Raised
       (ValueError "Output file MUST be defined with mock-s3 output format"),
     w)
  ∧ audit amb "mock-s3" (Some EmptyString) sns_topic resume lambda_ctx w
    = (Raised
         (ValueError "Output file MUST be defined with mock-s3 output format"),
       w).
Proof. split; reflexivity. Qed.

(** ** Suspension *)

Lemma lookups_app tr1 tr2 : lookups (tr1 ++ tr2) = lookups tr1 ++ lookups tr2.
Proof. apply omap_app. Qed.

Lemma lookups_none (tr : list Event) :
  Forall (λ e, lookup_id e = None) tr → lookups tr = [].
Proof.
  induction 1 as [|e tr He _ IH]; [done|].
  unfold lookups in *. simpl. by rewrite He.
Qed.

Lemma lookups_list_events amb cfg : lookups (list_events amb cfg) = [].
Proof.
  apply lookups_none. unfold list_events. by apply Forall_map, Forall_true.
Qed.

Lemma lookups_lookup_events cfg objs :
  lookups (map (lookup_event cfg) objs) = map (opensearch_id cfg) objs.
Proof.
  induction objs as [|o objs IH]; [done|].
  unfold lookups in *. simpl. f_equal. exact IH.
Qed.

Lemma lookups_sink_events cfg format output_file sns_topic missing :
  lookups (sink_events cfg format output_file sns_topic missing) = [].
Proof.
  apply lookups_none. unfold sink_events.
  destruct (decide (format = "plain")).
  - destruct output_file as [path|]; [|done].
    destruct (Py.truthy (Some path)); [|done].
    constructor; [done|]. by apply Forall_map, Forall_true.
  - apply Forall_app. split; [by apply Forall_map, Forall_true|].
    unfold summary. destruct sns_topic as [topic|]; [|done].
    destruct (Py.truthy (Some topic)); [|done]. by constructor.
Qed.



(** ** The outcomes of a lookup *)

Lemma occurrences_cons key k l :
  occurrences key (k :: l)
  = (if bool_decide (k = key) then 1 else 0) + occurrences key l.
Proof. unfold occurrences. simpl. by destruct (bool_decide (k = key)). Qed.

Lemma occurrences_not_listed amb cfg key objs :
  key ∉ map Key objs → occurrences key (missing_of amb cfg objs) = 0.
Proof.
  unfold missing_of. induction objs as [|o objs IH]; [done|].
  intros [Hne Hnot]%not_elem_of_cons. simpl.
  destruct (is_missing (answer amb cfg o)); simpl; [|by apply IH].
  rewrite occurrences_cons, bool_decide_eq_false_2 by done. by apply IH.
Qed.

(** With no key listed twice, the key of a checked object is among the
    missing keys once or not at all. *)
Lemma occurrences_missing_of amb cfg objs obj :
  NoDup (map Key objs) → obj ∈ objs →
  occurrences (Key obj) (missing_of amb cfg objs)
  = if is_missing (answer amb cfg obj) then 1 else 0.
Proof.
  induction objs as [|o objs IH]; [by intros _ ?%elem_of_nil|].
  simpl. intros [Hfresh Hnodup]%NoDup_cons [->|Hin]%elem_of_cons.
  - unfold missing_of. simpl.
    destruct (is_missing (answer amb cfg o)); simpl.
    + rewrite occurrences_cons, bool_decide_eq_true_2 by done.
      fold (missing_of amb cfg objs).
      by rewrite occurrences_not_listed.
    + fold (missing_of amb cfg objs). by rewrite occurrences_not_listed.
  - assert (Key o ≠ Key obj) as Hne.
    { intros Heq. apply Hfresh. rewrite Heq.
      by apply list_elem_of_fmap_2. }
    unfold missing_of. simpl.
    destruct (is_missing (answer amb cfg o)); simpl.
    + rewrite occurrences_cons, bool_decide_eq_false_2 by done.
      by apply IH.
    + by apply IH.
Qed.

(** C2, as the code has it.  Every run returns, and for the objects it
    checked, [count] many from the start of the scan: the catalog was
    asked once for each, in order; how many they are depends on the clock
    and on the number of objects alone, not on what the lookups answered,
    and without time pressure they are all objects to scan; with no key
    listed twice, a key is among the missing keys exactly once when its
    lookup returned [None], something that is no dict or a dict whose
    ['found'] is falsy, or raised [NotFoundError], and not at all when
    the document was found, when the dict had no ['found'], or when the
    lookup raised any other exception. *)
Theorem lookup_outcomes_recorded amb cfg lambda_ctx format output_file
    sns_topic resume fs :
  read_config (environ amb) = Some cfg →
  (format = "mock-s3" → Py.truthy output_file = true) →
  ∃ st w',
    audit amb format output_file sns_topic resume lambda_ctx
      (initial_world fs) = (Returned st, w')
    ∧ lookups (trace w')
      = map (opensearch_id cfg) (take (count st) (to_scan amb cfg resume))
    ∧ count st
      = within_budget lambda_ctx 0 (length (to_scan amb cfg resume))
    ∧ (unhurried lambda_ctx 0 (length (to_scan amb cfg resume)) →
       count st = length (to_scan amb cfg resume))
    ∧ (NoDup (map Key (take (count st) (to_scan amb cfg resume))) →
       ∀ obj, obj ∈ take (count st) (to_scan amb cfg resume) →
         match answer amb cfg obj with
         | EsReturns RespNone
         | EsReturns RespNotDict
         | EsReturns (RespDict (Some false))
         | EsNotFoundError =>
             occurrences (Key obj) (missing_keys st) = 1
         | EsReturns (RespDict (Some true))
         | EsReturns (RespDict None)
         | EsOtherError =>
             occurrences (Key obj) (missing_keys st) = 0
         end).
Proof.
  intros Hcfg Hdest.
  rewrite (audit_configured amb cfg) by done.
  assert (∀ objs obj,
            NoDup (map Key objs) → obj ∈ objs →
            match answer amb cfg obj with
            | EsReturns RespNone
            | EsReturns RespNotDict
            | EsReturns (RespDict (Some false))
            | EsNotFoundError =>
                occurrences (Key obj) (missing_of amb cfg objs) = 1
            | EsReturns (RespDict (Some true))
            | EsReturns (RespDict None)
            | EsOtherError =>
                occurrences (Key obj) (missing_of amb cfg objs) = 0
            end) as Hocc.
  { intros objs obj Hnodup Hin.
    rewrite (occurrences_missing_of amb cfg objs obj) by done.
    by destruct (answer amb cfg obj) as [[| |[[|]|]]| |]. }
  destruct (audit_run_cases amb cfg format output_file sns_topic resume
              lambda_ctx (initial_world fs))
    as [[Hall ->]
       |(ctx & pre & obj & rest & -> & Hsplit & Hlong & Hshort & ->)].
  - unfold completed. eexists _, _. split; [reflexivity|].
    cbn [trace initial_world].
    rewrite count_checked, missing_keys_checked. simpl.
    rewrite firstn_all.
    rewrite !lookups_app, lookups_list_events, lookups_lookup_events,
      lookups_sink_events, app_nil_r.
    split_and!; [done| |done|].
    + by rewrite within_budget_unhurried.
    + intros Hnodup obj Hobj. by apply Hocc.
  - unfold interrupted. eexists _, _. split; [reflexivity|].
    cbn [trace initial_world suspended count missing_keys].
    rewrite count_checked, missing_keys_checked. simpl.
    rewrite Hsplit, take_app_length.
    rewrite !lookups_app, lookups_list_events, lookups_lookup_events,
      lookups_sink_events.
    simpl. rewrite app_nil_r.
    split_and!; [done| | |].
    + rewrite length_app. simpl length.
      by rewrite (within_budget_short _ ctx).
    + intros Hok. exfalso.
      specialize (Hok ctx eq_refl (length pre)).
      rewrite length_app in Hok. simpl in Hok, Hshort. lia.
    + intros Hnodup o Ho. by apply Hocc.
Qed.

(** A run over [a] and [b] where the lookup of [a] raises an error other
    than [NotFoundError] and [b] is not found: both are checked, [b] is
    reported once and [a] is not. *)
Lemma lookup_outcomes_recorded_witness :
  ∃ st w',
    audit Example.amb_failing "plain" None None None None (initial_world ∅)
    = (Returned st, w')
    ∧ lookups (trace w') = ["s3://insitu/a"; "s3://insitu/b"]
    ∧ count st = 2
    ∧ occurrences "a" (missing_keys st) = 0
    ∧ occurrences "b" (missing_keys st) = 1.
Proof.
  destruct (lookup_outcomes_recorded Example.amb_failing Example.cfg None
              "plain" None None None ∅ eq_refl ltac:(done))
    as (st & w' & Hrun & Hlookups & _ & Hcount & Hocc).
  specialize (Hcount (example_unhurried _)).
  change (length (to_scan Example.amb_failing Example.cfg None)) with 2
    in Hcount.
  rewrite Hcount in Hlookups, Hocc.
  assert (NoDup
            (map Key (take 2 (to_scan Example.amb_failing Example.cfg None))))
    as Hnodup.
  { apply (bool_decide_unpack _). vm_compute. exact I. }
  exists st, w'. split_and!.
  - exact Hrun.
  - exact Hlookups.
  - exact Hcount.
  - apply (Hocc Hnodup (Example.obj "a")).
    apply (bool_decide_unpack _). vm_compute. exact I.
  - apply (Hocc Hnodup (Example.obj "b")).
    apply (bool_decide_unpack _). vm_compute. exact I.
Defined.

(** C2 as the specification words it does not hold: the lookup of [a]
    fails with an error that is not [NotFoundError], and [a] is counted
    as an error but is not among the missing keys. *)
Lemma other_lookup_error_is_not_reported :
  answer Example.amb_failing Example.cfg (Example.obj "a") = EsOtherError
  ∧ (audit Example.amb_failing "plain" None None None None
       (initial_world ∅)).1
    = Returned {| count := 2; error_count := 2; error_s3_keys := ["b"];
                  missing_keys := ["b"]; need_to_resume := false;
                  resume_from_key := None |}.
Proof. split; vm_compute; reflexivity. Qed.

(** ** Resuming *)

(** C3 at a failing input.  The listing holds [a], [b], [c] and [d] and
    the run is asked to resume from the key [c], as a re-invocation asks
    it: the scan starts from [a] all the same. *)
Theorem resume_from_listed_key_rescans :
  lookups
    (trace (audit Example.amb "plain" None None (Some (PyStr "c")) None
              (initial_world ∅)).2)
  = ["s3://insitu/a"; "s3://insitu/b"; "s3://insitu/c"; "s3://insitu/d"].
Proof. vm_compute. reflexivity. Qed.

(** The same for every listing and every key: a resume key that is a
    string changes nothing but the local variable that holds it. *)
Lemma resume_from_string_is_ignored amb format output_file sns_topic key
    lambda_ctx w :
  (audit amb format output_file sns_topic (Some (PyStr key)) lambda_ctx w).2
  = (audit amb format output_file sns_topic None lambda_ctx w).2.
Proof.
  unfold audit.
  destruct (bool_decide (format = "mock-s3") && negb (Py.truthy output_file));
    [done|].
  destruct (read_config (environ amb)) as [cfg|]; [|done].
  destruct (clock_cases lambda_ctx (clock_reads w) (listing amb cfg))
    as [Hok|(ctx & pre & obj & rest & -> & Hsplit & Hok & Hshort)].
  - rewrite !audit_run_completed by (by rewrite ?to_scan_str).
    unfold completed. by rewrite to_scan_str.
  - rewrite !(audit_run_interrupted amb cfg _ _ _ _ ctx pre obj rest)
      by (by rewrite ?to_scan_str).
    done.
Qed.

(** The resume logic does start at a listed entry when it is given the
    entry itself, the dict, in place of its key. *)
Lemma resume_from_entry_skips pre obj rest :
  obj ∉ pre →
  drop (default 0 (py_index (PyDict obj) (pre ++ obj :: rest)))
       (pre ++ obj :: rest)
  = obj :: rest.
Proof.
  induction pre as [|o pre IH]; simpl.
  - intros _. by rewrite bool_decide_eq_true_2.
  - intros [Hne Hnot]%not_elem_of_cons.
    rewrite bool_decide_eq_false_2 by done.
    specialize (IH Hnot).
    destruct (py_index (PyDict obj) (pre ++ obj :: rest)) as [i|] eqn:Hi.
    + exact IH.
    + exfalso. clear IH. induction pre as [|o' pre IH']; simpl in Hi.
      * by rewrite bool_decide_eq_true_2 in Hi.
      * apply not_elem_of_cons in Hnot as [Hne' Hnot'].
        rewrite bool_decide_eq_false_2 in Hi by done.
        destruct (py_index (PyDict obj) (pre ++ obj :: rest)); [done|].
        by apply IH'.
Qed.

(** ** Two runs over the same listing and the same answers *)

Lemma missing_of_app amb cfg l1 l2 :
  missing_of amb cfg (l1 ++ l2)
  = missing_of amb cfg l1 ++ missing_of amb cfg l2.
Proof. unfold missing_of. by rewrite List.filter_app, map_app. Qed.

Lemma missing_of_prefix amb cfg l1 l2 :
  l1 `prefix_of` l2 →
  missing_of amb cfg l1 `prefix_of` missing_of amb cfg l2.
Proof.
  intros [k ->]. rewrite missing_of_app. by apply prefix_app_r.
Qed.

(** The missing keys depend on the ambient only through the answers to
    the objects looked up. *)
Lemma missing_of_ext amb1 cfg1 amb2 cfg2 objs :
  (∀ obj, obj ∈ objs → answer amb1 cfg1 obj = answer amb2 cfg2 obj) →
  missing_of amb1 cfg1 objs = missing_of amb2 cfg2 objs.
Proof.
  intros Hsame. unfold missing_of. f_equal.
  apply List.filter_ext_in. intros obj Hin.
  by rewrite Hsame by (by apply list_elem_of_In).
Qed.

(** Every run returns, having checked the objects of a prefix of the
    objects to scan, all of them when the clock did not cut it short; its
    missing keys are those of that prefix. *)
Lemma audit_checks_a_prefix amb cfg lambda_ctx format output_file sns_topic
    resume fs :
  read_config (environ amb) = Some cfg →
  (format = "mock-s3" → Py.truthy output_file = true) →
  ∃ st w' pre,
    audit amb format output_file sns_topic resume lambda_ctx
      (initial_world fs) = (Returned st, w')
    ∧ pre `prefix_of` to_scan amb cfg resume
    ∧ missing_keys st = missing_of amb cfg pre
    ∧ (unhurried lambda_ctx 0 (length (to_scan amb cfg resume)) →
       pre = to_scan amb cfg resume).
Proof.
  intros Hcfg Hdest. rewrite (audit_configured amb cfg) by done.
  destruct (audit_run_cases amb cfg format output_file sns_topic resume
              lambda_ctx (initial_world fs))
    as [[Hall ->]
       |(ctx & pre & obj & rest & -> & Hsplit & Hlong & Hshort & ->)].
  - eexists _, _, (to_scan amb cfg resume). unfold completed.
    split_and!; [reflexivity|done| |done].
    by rewrite missing_keys_checked.
  - eexists _, _, pre. unfold interrupted.
    split_and!; [reflexivity| | |].
    + rewrite Hsplit. by apply prefix_app_r.
    + cbn [suspended missing_keys]. by rewrite missing_keys_checked.
    + intros Hok. exfalso.
      specialize (Hok ctx eq_refl (length pre)).
      rewrite Hsplit, length_app in Hok. simpl in Hok, Hshort. lia.
Qed.

(** C8, as the code has it.  Two runs that see the same listing, start
    from the same resume key and get the same answer from the catalog for
    every listed object (all else may differ: format, destination, topic,
    files, credentials, Lambda context) both return; when the clock cuts
    neither short their missing keys are the same list, and in any case
    the missing keys of one are the beginning of the missing keys of the
    other. *)
Theorem same_inputs_same_missing_keys amb1 amb2 cfg1 cfg2 ctx1 ctx2
    format1 format2 out1 out2 sns1 sns2 resume fs1 fs2 :
  read_config (environ amb1) = Some cfg1 →
  read_config (environ amb2) = Some cfg2 →
  (format1 = "mock-s3" → Py.truthy out1 = true) →
  (format2 = "mock-s3" → Py.truthy out2 = true) →
  listing amb1 cfg1 = listing amb2 cfg2 →
  (∀ obj, obj ∈ listing amb1 cfg1 →
          answer amb1 cfg1 obj = answer amb2 cfg2 obj) →
  ∃ st1 w1 st2 w2,
    audit amb1 format1 out1 sns1 resume ctx1 (initial_world fs1)
    = (Returned st1, w1)
    ∧ audit amb2 format2 out2 sns2 resume ctx2 (initial_world fs2)
      = (Returned st2, w2)
    ∧ (unhurried ctx1 0 (length (to_scan amb1 cfg1 resume)) →
       unhurried ctx2 0 (length (to_scan amb2 cfg2 resume)) →
       missing_keys st1 = missing_keys st2)
    ∧ (missing_keys st1 `prefix_of` missing_keys st2
       ∨ missing_keys st2 `prefix_of` missing_keys st1).
Proof.
  intros Hcfg1 Hcfg2 Hdest1 Hdest2 Hlisting Hanswers.
  destruct (audit_checks_a_prefix amb1 cfg1 ctx1 format1 out1 sns1 resume
              fs1 Hcfg1 Hdest1)
    as (st1 & w1 & pre1 & Hrun1 & Hpre1 & Hmissing1 & Hall1).
  destruct (audit_checks_a_prefix amb2 cfg2 ctx2 format2 out2 sns2 resume
              fs2 Hcfg2 Hdest2)
    as (st2 & w2 & pre2 & Hrun2 & Hpre2 & Hmissing2 & Hall2).
  assert (to_scan amb2 cfg2 resume = to_scan amb1 cfg1 resume) as Hscan
    by (unfold to_scan; by rewrite Hlisting).
  rewrite Hscan in Hpre2, Hall2.
  assert (∀ pre, pre `prefix_of` to_scan amb1 cfg1 resume →
                 missing_of amb2 cfg2 pre = missing_of amb1 cfg1 pre)
    as Hext.
  { intros pre [k Hk]. symmetry. apply missing_of_ext.
    intros obj Hobj. apply Hanswers.
    apply (subseteq_drop (start_of resume (listing amb1 cfg1))).
    fold (to_scan amb1 cfg1 resume). rewrite Hk.
    apply elem_of_app. by left. }
  exists st1, w1, st2, w2. split_and!; [done|done| |].
  - rewrite Hscan. intros Hok1 Hok2.
    rewrite Hmissing1, Hmissing2, (Hall1 Hok1), (Hall2 Hok2).
    symmetry. by apply Hext.
  - rewrite Hmissing1, Hmissing2, (Hext pre2 Hpre2).
    destruct (prefix_weak_total _ _ _ Hpre1 Hpre2) as [H12|H21].
    + left. by apply missing_of_prefix.
    + right. by apply missing_of_prefix.
Qed.

(** Report mode into a file and requeue mode with a notification, over
    the example listing and catalog, in a Lambda with time to spare and
    outside of one: the same missing keys. *)
Lemma same_inputs_same_missing_keys_witness :
  ∃ st1 w1 st2 w2,
    audit Example.amb "plain" (Some "missing.txt") None None None
      (initial_world ∅) = (Returned st1, w1)
    ∧ audit Example.amb "mock-s3" (Some "queue-url") (Some "topic-arn")
        None (Some {| function_name := "audit-lambda";
                      get_remaining_time_in_millis := λ _, 900000%Z |})
        (initial_world ∅) = (Returned st2, w2)
    ∧ missing_keys st1 = missing_keys st2.
Proof.
  destruct (same_inputs_same_missing_keys Example.amb Example.amb
              Example.cfg Example.cfg None
              (Some {| function_name := "audit-lambda";
                       get_remaining_time_in_millis := λ _, 900000%Z |})
              "plain" "mock-s3" (Some "missing.txt") (Some "queue-url")
              None (Some "topic-arn") None ∅ ∅
              eq_refl eq_refl ltac:(done) ltac:(done) eq_refl
              ltac:(done))
    as (st1 & w1 & st2 & w2 & Hrun1 & Hrun2 & Hsame & _).
  exists st1, w1, st2, w2. split_and!; [exact Hrun1|exact Hrun2|].
  apply Hsame.
  - apply example_unhurried.
  - intros ctx [= <-] i Hi. simpl. lia.
Defined.

(** C8 as the specification words it does not hold: the same listing and
    the same catalog, once outside a Lambda and once in a Lambda that is
    out of time.  The first run reports [a], [c] and [d], the second
    nothing. *)
Lemma time_budget_changes_missing_keys :
  (audit Example.amb "plain" None None None None (initial_world ∅)).1
  = Returned {| count := 4; error_count := 3;
                error_s3_keys := ["a"; "c"; "d"];
                missing_keys := ["a"; "c"; "d"];
                need_to_resume := false; resume_from_key := None |}
  ∧ (audit Example.amb "plain" None None None (Some Example.ctx_late)
       (initial_world ∅)).1
    = Returned {| count := 0; error_count := 0; error_s3_keys := [];
                  missing_keys := []; need_to_resume := true;
                  resume_from_key := Some (PyStr "a") |}.
Proof. split; vm_compute; reflexivity. Qed.

(** ** The document id *)

Lemma last_char_app_slash s : Py.last_char (s +:+ "/") = Some "/"%char.
Proof.
  induction s as [|a s IH]; [done|].
  rewrite str_app_cons. simpl. rewrite IH.
  destruct (s +:+ "/") eqn:Hs; [|done].
  by destruct s.
Qed.

(** What [append_slash] returns for a string is empty or ends with a
    slash. *)
Lemma append_slash_ends s s' :
  append_slash (Some s) = Some s' →
  s' = EmptyString ∨ Py.last_char s' = Some "/"%char.
Proof.
  unfold append_slash. destruct (decide (s = EmptyString)) as [->|Hne].
  - intros [= <-]. by left.
  - destruct (bool_decide (Py.last_char s = Some "/"%char)) eqn:Hlast;
      simpl; intros [= <-]; right.
    + by apply bool_decide_eq_true in Hlast.
    + apply last_char_app_slash.
Qed.

(** [append_slash] changes nothing when applied a second time. *)
Lemma append_slash_idempotent o :
  append_slash (append_slash o) = append_slash o.
Proof.
  destruct o as [s|]; [|done].
  destruct (append_slash (Some s)) as [s'|] eqn:Hs'; [|done].
  destruct (append_slash_ends s s' Hs') as [->|Hlast]; [done|].
  unfold append_slash. destruct (decide (s' = EmptyString)); [done|].
  by rewrite bool_decide_eq_true_2.
Qed.

Lemma append_slash_empty_iff s s' :
  append_slash (Some s) = Some s' → s' = EmptyString ↔ s = EmptyString.
Proof.
  unfold append_slash. destruct (decide (s = EmptyString)) as [->|Hne].
  - by intros [= <-].
  - destruct (negb _); intros [= <-]; [|done].
    split; [|done]. by destruct s.
Qed.

Lemma read_config_id_prefix env cfg :
  read_config env = Some cfg →
  append_slash
    (Some (default ("s3://" +:+ fstr (env !! "OPENSEARCH_BUCKET") +:+ "/")
                   (env !! "OPENSEARCH_ID_PREFIX")))
  = Some (OPENSEARCH_ID_PREFIX cfg).
Proof.
  unfold read_config. intros Hcfg.
  repeat match type of Hcfg with
         | match ?scrutinee with _ => _ end = _ =>
             destruct scrutinee eqn:?; try discriminate Hcfg
         end.
  by injection Hcfg as <-.
Qed.

(** The ids a run asks the catalog for are ids of listed objects. *)
Lemma audit_lookups_listed amb cfg format output_file sns_topic resume
    lambda_ctx fs id :
  read_config (environ amb) = Some cfg →
  id ∈ lookups
         (trace (audit amb format output_file sns_topic resume lambda_ctx
                   (initial_world fs)).2) →
  ∃ obj, obj ∈ listing amb cfg ∧ id = opensearch_id cfg obj.
Proof.
  intros Hcfg. unfold audit. rewrite Hcfg.
  destruct (bool_decide (format = "mock-s3") && negb (Py.truthy output_file)).
  { simpl. by intros ?%elem_of_nil. }
  assert (∀ pre, pre `prefix_of` to_scan amb cfg resume →
                 id ∈ map (opensearch_id cfg) pre →
                 ∃ obj,
                   obj ∈ listing amb cfg ∧ id = opensearch_id cfg obj)
    as Hpre.
  { intros pre [k Hk] (obj & -> & Hobj)%list_elem_of_fmap.
    exists obj. split; [|done].
    apply (subseteq_drop (start_of resume (listing amb cfg))).
    fold (to_scan amb cfg resume). rewrite Hk. apply elem_of_app. by left. }
  destruct (audit_run_cases amb cfg format output_file sns_topic resume
              lambda_ctx (initial_world fs))
    as [[Hall ->]
       |(ctx & pre & obj & rest & -> & Hsplit & Hlong & Hshort & ->)].
  - unfold completed. cbn [snd trace initial_world].
    rewrite !lookups_app, lookups_list_events, lookups_lookup_events,
      lookups_sink_events, app_nil_r.
    by apply Hpre.
  - unfold interrupted. cbn [snd trace initial_world].
    rewrite !lookups_app, lookups_list_events, lookups_lookup_events,
      lookups_sink_events.
    simpl. rewrite app_nil_r. apply Hpre.
    rewrite Hsplit. by apply prefix_app_r.
Qed.

(** C7, as the code has it.  The id prefix is what [append_slash] makes
    of the configured prefix (by default [s3://], the bucket and a
    slash); it is empty, which it is exactly when the configured prefix
    is the empty string, or ends with a slash, and normalising it again
    changes nothing.  The id of an object is the prefix followed by its
    key, every lookup of every run uses that id, and two objects with the
    same id have the same key. *)
Theorem document_id_is_prefix_plus_key env cfg :
  read_config env = Some cfg →
  append_slash
    (Some (default ("s3://" +:+ fstr (env !! "OPENSEARCH_BUCKET") +:+ "/")
                   (env !! "OPENSEARCH_ID_PREFIX")))
  = Some (OPENSEARCH_ID_PREFIX cfg)
  ∧ (OPENSEARCH_ID_PREFIX cfg = EmptyString
     ∨ Py.last_char (OPENSEARCH_ID_PREFIX cfg) = Some "/"%char)
  ∧ (OPENSEARCH_ID_PREFIX cfg = EmptyString
     ↔ env !! "OPENSEARCH_ID_PREFIX" = Some EmptyString)
  ∧ append_slash (Some (OPENSEARCH_ID_PREFIX cfg))
    = Some (OPENSEARCH_ID_PREFIX cfg)
  ∧ (∀ obj, opensearch_id cfg obj = OPENSEARCH_ID_PREFIX cfg +:+ Key obj)
  ∧ (∀ o1 o2,
       opensearch_id cfg o1 = opensearch_id cfg o2 → Key o1 = Key o2)
  ∧ (∀ amb format output_file sns_topic resume lambda_ctx fs id,
       environ amb = env →
       id ∈ lookups
              (trace (audit amb format output_file sns_topic resume
                        lambda_ctx (initial_world fs)).2) →
       ∃ obj, obj ∈ listing amb cfg
              ∧ id = OPENSEARCH_ID_PREFIX cfg +:+ Key obj).
Proof.
  intros Hcfg. pose proof (read_config_id_prefix env cfg Hcfg) as Hprefix.
  split_and!.
  - exact Hprefix.
  - by eapply append_slash_ends.
  - rewrite (append_slash_empty_iff _ _ Hprefix).
    destruct (env !! "OPENSEARCH_ID_PREFIX") as [s|]; simpl.
    + split; [by intros ->|by intros [= ->]].
    + split; [|done]. intros Hempty. exfalso. revert Hempty.
      by rewrite str_app_cons.
  - rewrite <- Hprefix. apply append_slash_idempotent.
  - done.
  - intros o1 o2. unfold opensearch_id, os_path_join.
    apply String.app_inj.
  - intros amb format output_file sns_topic resume lambda_ctx fs id <-.
    by apply audit_lookups_listed.
Qed.

(** The example environment sets the prefix [s3://insitu], without a
    slash: the ids start with [s3://insitu/]. *)
Lemma document_id_is_prefix_plus_key_witness :
  OPENSEARCH_ID_PREFIX Example.cfg = "s3://insitu/"
  ∧ Py.last_char (OPENSEARCH_ID_PREFIX Example.cfg) = Some "/"%char
  ∧ opensearch_id Example.cfg (Example.obj "a") = "s3://insitu/a".
Proof.
  destruct (document_id_is_prefix_plus_key Example.env Example.cfg eq_refl)
    as (_ & [Hempty|Hslash] & _ & _ & Hid & _).
  - discriminate Hempty.
  - split; [reflexivity|]. split; [exact Hslash|].
    rewrite Hid. reflexivity.
Defined.

(** C7 as the specification words it does not hold: [append_slash]
    leaves the empty string as it is, so with the empty string as the
    configured prefix the id prefix does not end with a slash and the id
    is the bare key. *)
Lemma empty_id_prefix_gets_no_slash :
  append_slash (Some EmptyString) = Some EmptyString
  ∧ ∃ cfg,
      read_config Example.env_empty_prefix = Some cfg
      ∧ OPENSEARCH_ID_PREFIX cfg = EmptyString
      ∧ Py.last_char (OPENSEARCH_ID_PREFIX cfg) = None
      ∧ opensearch_id cfg (Example.obj "a") = "a".
Proof.
  split; [reflexivity|]. eexists. split; [vm_compute; reflexivity|].
  split_and!; reflexivity.
Qed.

(** ** The reconcile message on the wire *)

(** An escaped character holds no quote that would end the literal. *)
Lemma minify_escape_char c rest :
  minify true false (escape_char c +:+ rest)
  = escape_char c +:+ minify true false rest.
Proof. destruct c as [[] [] [] [] [] [] [] []]; reflexivity. Qed.

Lemma minify_escape s rest :
  minify true false (escape s +:+ rest)
  = escape s +:+ minify true false rest.
Proof.
  induction s as [|c s IH]; [done|].
  simpl escape. by rewrite !str_app_assoc, minify_escape_char, IH.
Qed.

(** The minifier steps over a string literal. *)
Lemma minify_dumps_str s rest :
  minify false false (dumps_str s +:+ rest)
  = dumps_str s +:+ minify false false rest.
Proof.
  unfold dumps_str. rewrite !str_app_cons, str_app_assoc.
  change (minify false false (String quote ?x))
    with (String quote (minify true false x)).
  by rewrite minify_escape, str_app_assoc.
Qed.

Lemma minify_punct (c : ascii) rest :
  (N_of_ascii c =? 34)%N = false → json_ws c = false →
  minify false false (String c EmptyString +:+ rest)
  = String c EmptyString +:+ minify false false rest.
Proof. intros Hq Hws. rewrite !str_app_cons. simpl. by rewrite Hq, Hws. Qed.

Lemma minify_sep (c : ascii) rest :
  (N_of_ascii c =? 34)%N = false → json_ws c = false →
  minify false false (String c " " +:+ rest)
  = String c EmptyString +:+ minify false false rest.
Proof. intros Hq Hws. rewrite !str_app_cons. simpl. by rewrite Hq, Hws. Qed.

(** The message that [key_to_sqs_msg] returns, piece by piece. *)
Lemma key_to_sqs_msg_text key bucket :
  key_to_sqs_msg key bucket
  = "{" +:+ dumps_str "Records" +:+ ": " +:+ "[" +:+ "{"
    +:+ dumps_str "eventName" +:+ ": " +:+ dumps_str "ObjectCreated:Put"
    +:+ ", " +:+ dumps_str "s3" +:+ ": " +:+ "{"
    +:+ dumps_str "bucket" +:+ ": " +:+ "{"
    +:+ dumps_str "name" +:+ ": " +:+ dumps_str bucket +:+ "}"
    +:+ ", " +:+ dumps_str "object" +:+ ": " +:+ "{"
    +:+ dumps_str "key" +:+ ": " +:+ dumps_str key +:+ "}" +:+ "}" +:+ "}"
    +:+ "]" +:+ "}".
Proof.
  unfold key_to_sqs_msg, s3_event. cbn [dumps].
  by rewrite !str_app_assoc.
Qed.

(** Without the white space that [json.dumps] puts after colons and
    commas, the message is the wire format of the specification. *)
Lemma key_to_sqs_msg_compact key bucket :
  compact (key_to_sqs_msg key bucket) = wire_format bucket key.
Proof.
  rewrite key_to_sqs_msg_text. unfold compact, wire_format.
  repeat first
    [ rewrite minify_dumps_str
    | rewrite minify_sep by reflexivity
    | rewrite minify_punct by reflexivity ].
  reflexivity.
Qed.

(** ** Requeue mode *)

Lemma sent_app tr1 tr2 : sent (tr1 ++ tr2) = sent tr1 ++ sent tr2.
Proof. apply omap_app. Qed.

Lemma published_app tr1 tr2 :
  published (tr1 ++ tr2) = published tr1 ++ published tr2.
Proof. apply omap_app. Qed.

Lemma omap_all_none {A B} (f : A → option B) (l : list A) :
  Forall (λ x, f x = None) l → omap f l = [].
Proof. induction 1 as [|x l Hx _ IH]; [done|]. simpl. by rewrite Hx. Qed.

Lemma omap_all_some {A B} (f : A → option B) (g : A → B) (l : list A) :
  Forall (λ x, f x = Some (g x)) l → omap f l = map g l.
Proof.
  induction 1 as [|x l Hx _ IH]; [done|]. simpl. rewrite Hx. simpl.
  by f_equal.
Qed.

Section Requeue.

Variable amb : Ambient.
Variable cfg : Config.

Lemma sent_before objs :
  sent (list_events amb cfg ++ map (lookup_event cfg) objs) = [].
Proof.
  apply omap_all_none, Forall_app. unfold list_events.
  split; by apply Forall_map, Forall_true.
Qed.

Lemma published_before objs :
  published (list_events amb cfg ++ map (lookup_event cfg) objs) = [].
Proof.
  apply omap_all_none, Forall_app. unfold list_events.
  split; by apply Forall_map, Forall_true.
Qed.

Lemma sent_sends queue missing :
  sent (map (send_event cfg queue) missing)
  = map (λ key, (queue, key_to_sqs_msg key (OPENSEARCH_BUCKET cfg))) missing.
Proof.
  unfold sent.
  induction missing as [|key missing IH]; [done|]. simpl. by f_equal.
Qed.

Lemma published_sends queue missing :
  published (map (send_event cfg queue) missing) = [].
Proof. by apply omap_all_none, Forall_map, Forall_true. Qed.

Lemma sent_summary sns_topic n : sent (summary sns_topic n) = [].
Proof.
  unfold summary. destruct sns_topic as [topic|]; [|done].
  by destruct (Py.truthy (Some topic)).
Qed.

(** One notification when the topic is a string that is not empty, none
    otherwise. *)
Lemma summary_cases sns_topic n :
  summary sns_topic n
  = match sns_topic with
    | Some (String _ _ as topic) => [publish_event topic n]
    | _ => []
    end.
Proof. by destruct sns_topic as [[|c s]|]. Qed.

End Requeue.

(** ** The text of the messages *)

Lemma skip_app p s : skip p (p +:+ s) = Some s.
Proof.
  induction p as [|a p IH]; [done|].
  rewrite str_app_cons. simpl. by rewrite Ascii.eqb_refl.
Qed.

(** The reader undoes the escape of a character. *)
Lemma read_literal_escape_char c rest :
  read_literal (escape_char c +:+ rest)
  = match read_literal rest with
    | Some (t, rest') => Some (String c t, rest')
    | None => None
    end.
Proof. destruct c as [[] [] [] [] [] [] [] []]; reflexivity. Qed.

Lemma read_literal_escape s rest :
  read_literal (escape s +:+ String quote rest) = Some (s, rest).
Proof.
  induction s as [|c s IH]; [done|].
  simpl escape. by rewrite str_app_assoc, read_literal_escape_char, IH.
Qed.

Lemma key_to_sqs_msg_parts key bucket :
  key_to_sqs_msg key bucket
  = message_head
    +:+ (escape bucket
         +:+ String quote
               (message_mid +:+ (escape key +:+ String quote message_tail))).
Proof.
  rewrite key_to_sqs_msg_text. unfold message_head, message_mid, dumps_str.
  rewrite !str_app_assoc, !str_app_cons, !str_app_assoc, !str_app_cons.
  by rewrite !str_app_nil_l.
Qed.

Lemma read_message_key_to_sqs_msg key bucket :
  read_message (key_to_sqs_msg key bucket) = Some (bucket, key).
Proof.
  rewrite key_to_sqs_msg_parts. unfold read_message.
  rewrite skip_app, read_literal_escape, skip_app, read_literal_escape.
  by rewrite decide_True.
Qed.

Lemma escape_char_plain c :
  plain_char c = true → escape_char c = String c EmptyString.
Proof. by destruct c as [[] [] [] [] [] [] [] []]. Qed.

Lemma escape_plain s : plain_text s = true → escape s = s.
Proof.
  induction s as [|c s IH]; [done|]. simpl.
  intros [Hc Hs]%andb_true_iff.
  by rewrite escape_char_plain, IH.
Qed.

(** The literal of a text that needs no escape is the text between two
    quotes. *)
Lemma dumps_str_plain s : plain_text s = true → dumps_str s = lit s.
Proof.
  intros Hs. unfold dumps_str, lit, dq. rewrite escape_plain by done.
  by rewrite str_app_cons, str_app_nil_l.
Qed.

Lemma key_to_sqs_msg_plain key bucket :
  plain_text key = true → plain_text bucket = true →
  key_to_sqs_msg key bucket = event_text bucket key.
Proof.
  intros Hkey Hbucket. rewrite key_to_sqs_msg_text. unfold event_text.
  rewrite (dumps_str_plain key), (dumps_str_plain bucket) by done.
  rewrite (dumps_str_plain "Records" eq_refl),
    (dumps_str_plain "eventName" eq_refl),
    (dumps_str_plain "ObjectCreated:Put" eq_refl),
    (dumps_str_plain "s3" eq_refl), (dumps_str_plain "bucket" eq_refl),
    (dumps_str_plain "name" eq_refl), (dumps_str_plain "object" eq_refl),
    (dumps_str_plain "key" eq_refl).
  unfold lit, dq.
  repeat
    (progress rewrite ?str_app_assoc, ?str_app_cons, ?str_app_nil_l).
  reflexivity.
Qed.

Lemma wire_format_plain key bucket :
  plain_text key = true → plain_text bucket = true →
  wire_format bucket key = spec_text bucket key.
Proof.
  intros Hkey Hbucket. unfold wire_format, spec_text.
  rewrite (dumps_str_plain key), (dumps_str_plain bucket) by done.
  rewrite (dumps_str_plain "Records" eq_refl),
    (dumps_str_plain "eventName" eq_refl),
    (dumps_str_plain "ObjectCreated:Put" eq_refl),
    (dumps_str_plain "s3" eq_refl), (dumps_str_plain "bucket" eq_refl),
    (dumps_str_plain "name" eq_refl), (dumps_str_plain "object" eq_refl),
    (dumps_str_plain "key" eq_refl).
  unfold lit, dq.
  repeat
    (progress rewrite ?str_app_assoc, ?str_app_cons, ?str_app_nil_l).
  reflexivity.
Qed.

(** C6.  Requeue mode with a queue as the destination.  Whatever the run
    found missing, after the listing and the lookups it puts one message
    for each missing key on that queue, in the order of the keys and
    nothing else; each message is the S3 event of [key_to_sqs_msg], which
    without the white space after colons and commas is the wire format of
    the specification for the bucket and the key; after the messages it
    publishes one notification when a topic is set and none when the
    topic is [None] or empty; what may follow is the re-invocation.  The
    text of a message: the bucket and the key can be read back from it,
    whatever characters they hold; and for a bucket and a key of printable
    ASCII without quote and backslash it is, character by character, the
    text [event_text] with a blank after every colon and comma, and
    without those blanks the text [spec_text] that the specification
    prints. *)
Theorem requeue_sends_one_message_per_key amb cfg queue sns_topic resume
    lambda_ctx fs :
  read_config (environ amb) = Some cfg →
  queue ≠ EmptyString →
  ∃ st w' pre tail,
    audit amb "mock-s3" (Some queue) sns_topic resume lambda_ctx
      (initial_world fs) = (Returned st, w')
    ∧ trace w'
      = (list_events amb cfg ++ map (lookup_event cfg) pre)
        ++ map (λ key,
                  EvSqsSend (Some queue)
                    (key_to_sqs_msg key (OPENSEARCH_BUCKET cfg)))
             (missing_keys st)
        ++ summary sns_topic (length (missing_keys st))
        ++ tail
    ∧ (tail = [] ∨ ∃ ctx obj, tail = [invoke_event ctx obj])
    ∧ sent (trace w')
      = map (λ key,
               (Some queue, key_to_sqs_msg key (OPENSEARCH_BUCKET cfg)))
          (missing_keys st)
    ∧ length (sent (trace w')) = length (missing_keys st)
    ∧ (∀ key,
         compact (key_to_sqs_msg key (OPENSEARCH_BUCKET cfg))
         = wire_format (OPENSEARCH_BUCKET cfg) key)
    ∧ summary sns_topic (length (missing_keys st))
      = match sns_topic with
        | Some (String _ _ as topic) =>
            [EvSnsPublish topic
               ("Parquet stats audit found "
                +:+ Py.fmt_thousands (length (missing_keys st))
                +:+ " missing keys. Trying to republish to SQS.")
               "Insitu audit"]
        | _ => []
        end
    ∧ published (trace w')
      = published (summary sns_topic (length (missing_keys st)))
    ∧ (∀ key,
         read_message (key_to_sqs_msg key (OPENSEARCH_BUCKET cfg))
         = Some (OPENSEARCH_BUCKET cfg, key))
    ∧ (∀ key,
         plain_text key = true →
         plain_text (OPENSEARCH_BUCKET cfg) = true →
         key_to_sqs_msg key (OPENSEARCH_BUCKET cfg)
         = event_text (OPENSEARCH_BUCKET cfg) key
         ∧ compact (key_to_sqs_msg key (OPENSEARCH_BUCKET cfg))
           = spec_text (OPENSEARCH_BUCKET cfg) key).
Proof.
  intros Hcfg Hqueue.
  rewrite (audit_configured amb cfg)
    by (done || by destruct queue as [|c s]).
  assert (∀ (st : Locals) pre tail tr,
            tr = (list_events amb cfg ++ map (lookup_event cfg) pre)
                 ++ sink_events cfg "mock-s3" (Some queue) sns_topic
                      (missing_keys st)
                 ++ tail →
            (tail = [] ∨ ∃ ctx obj, tail = [invoke_event ctx obj]) →
            tr = (list_events amb cfg ++ map (lookup_event cfg) pre)
                 ++ map (λ key,
                           EvSqsSend (Some queue)
                             (key_to_sqs_msg key (OPENSEARCH_BUCKET cfg)))
                      (missing_keys st)
                 ++ summary sns_topic (length (missing_keys st))
                 ++ tail
            ∧ (tail = [] ∨ ∃ ctx obj, tail = [invoke_event ctx obj])
            ∧ sent tr
              = map (λ key,
                       (Some queue,
                        key_to_sqs_msg key (OPENSEARCH_BUCKET cfg)))
                  (missing_keys st)
            ∧ length (sent tr) = length (missing_keys st)
            ∧ (∀ key,
                 compact (key_to_sqs_msg key (OPENSEARCH_BUCKET cfg))
                 = wire_format (OPENSEARCH_BUCKET cfg) key)
            ∧ summary sns_topic (length (missing_keys st))
              = match sns_topic with
                | Some (String _ _ as topic) =>
                    [EvSnsPublish topic
                       ("Parquet stats audit found "
                        +:+ Py.fmt_thousands (length (missing_keys st))
                        +:+ " missing keys. Trying to republish to SQS.")
                       "Insitu audit"]
                | _ => []
                end
            ∧ published tr
              = published (summary sns_topic (length (missing_keys st)))
            ∧ (∀ key,
                 read_message (key_to_sqs_msg key (OPENSEARCH_BUCKET cfg))
                 = Some (OPENSEARCH_BUCKET cfg, key))
            ∧ (∀ key,
                 plain_text key = true →
                 plain_text (OPENSEARCH_BUCKET cfg) = true →
                 key_to_sqs_msg key (OPENSEARCH_BUCKET cfg)
                 = event_text (OPENSEARCH_BUCKET cfg) key
                 ∧ compact (key_to_sqs_msg key (OPENSEARCH_BUCKET cfg))
                   = spec_text (OPENSEARCH_BUCKET cfg) key))
    as Hshape.
  { intros st pre tail tr -> Htail.
    assert (sent tail = [] ∧ published tail = []) as [Hsent_tail Hpub_tail].
    { by destruct Htail as [->|(ctx & obj & ->)]. }
    assert (sent
              ((list_events amb cfg ++ map (lookup_event cfg) pre)
               ++ sink_events cfg "mock-s3" (Some queue) sns_topic
                    (missing_keys st) ++ tail)
            = map (λ key,
                     (Some queue,
                      key_to_sqs_msg key (OPENSEARCH_BUCKET cfg)))
                (missing_keys st)) as Hsent.
    { unfold sink_events. simpl.
      rewrite sent_app, sent_before, !sent_app, sent_sends, sent_summary,
        Hsent_tail.
      simpl. by rewrite !app_nil_r. }
    split_and!.
    - unfold sink_events. simpl. by rewrite <- !app_assoc.
    - done.
    - exact Hsent.
    - by rewrite Hsent, length_map.
    - intros key. apply key_to_sqs_msg_compact.
    - apply summary_cases.
    - unfold sink_events. simpl.
      rewrite published_app, published_before, !published_app,
        published_sends, Hpub_tail.
      simpl. by rewrite !app_nil_r.
    - intros key. apply read_message_key_to_sqs_msg.
    - intros key Hkey Hbucket. split.
      + by apply key_to_sqs_msg_plain.
      + rewrite key_to_sqs_msg_compact. by apply wire_format_plain. }
  destruct (audit_run_cases amb cfg "mock-s3" (Some queue) sns_topic resume
              lambda_ctx (initial_world fs))
    as [[Hall ->]
       |(ctx & pre & obj & rest & -> & Hsplit & Hlong & Hshort & ->)].
  - unfold completed.
    eexists _, _, (to_scan amb cfg resume), []. split; [reflexivity|].
    apply Hshape; [|by left]. cbn [trace initial_world].
    rewrite missing_keys_checked. simpl.
    by rewrite !app_nil_r, <- !app_assoc.
  - unfold interrupted.
    eexists _, _, pre, [invoke_event ctx obj]. split; [reflexivity|].
    apply Hshape; [|right; by eexists _, _].
    cbn [trace initial_world suspended missing_keys].
    rewrite missing_keys_checked. simpl.
    by rewrite <- !app_assoc.
Qed.

(** The end-to-end scenario of requeue mode: of [a], [b], [c] and [d]
    only [b] is in the catalog, the destination is a queue and no topic
    is set.  Three messages, for [a], [c] and [d], and no notification;
    the text of the first is written out, as it is sent and as the
    specification prints it. *)
Lemma requeue_sends_one_message_per_key_witness :
  ∃ st w',
    audit Example.amb "mock-s3" (Some "queue-url") None None None
      (initial_world ∅) = (Returned st, w')
    ∧ sent (trace w')
      = [(Some "queue-url", event_text "insitu" "a");
         (Some "queue-url", event_text "insitu" "c");
         (Some "queue-url", event_text "insitu" "d")]
    ∧ published (trace w') = []
    ∧ event_text "insitu" "a"
      = "{" +:+ dq +:+ "Records" +:+ dq +:+ ": [{" +:+ dq +:+ "eventName"
        +:+ dq +:+ ": " +:+ dq +:+ "ObjectCreated:Put" +:+ dq +:+ ", "
        +:+ dq +:+ "s3" +:+ dq +:+ ": {" +:+ dq +:+ "bucket" +:+ dq
        +:+ ": {" +:+ dq +:+ "name" +:+ dq +:+ ": " +:+ dq +:+ "insitu"
        +:+ dq +:+ "}, " +:+ dq +:+ "object" +:+ dq +:+ ": {" +:+ dq
        +:+ "key" +:+ dq +:+ ": " +:+ dq +:+ "a" +:+ dq +:+ "}}}]}"
    ∧ compact (key_to_sqs_msg "a" "insitu")
      = "{" +:+ dq +:+ "Records" +:+ dq +:+ ":[{" +:+ dq +:+ "eventName"
        +:+ dq +:+ ":" +:+ dq +:+ "ObjectCreated:Put" +:+ dq +:+ ","
        +:+ dq +:+ "s3" +:+ dq +:+ ":{" +:+ dq +:+ "bucket" +:+ dq
        +:+ ":{" +:+ dq +:+ "name" +:+ dq +:+ ":" +:+ dq +:+ "insitu"
        +:+ dq +:+ "}," +:+ dq +:+ "object" +:+ dq +:+ ":{" +:+ dq
        +:+ "key" +:+ dq +:+ ":" +:+ dq +:+ "a" +:+ dq +:+ "}}}]}"
    ∧ read_message (key_to_sqs_msg "a" "insitu") = Some ("insitu", "a")
    ∧ compact (key_to_sqs_msg "a" "insitu") = wire_format "insitu" "a".
Proof.
  destruct (requeue_sends_one_message_per_key Example.amb Example.cfg
              "queue-url" None None None ∅ eq_refl ltac:(done))
    as (st & w' & pre & tail & Hrun & _ & _ & Hsent & _ & Hwire & _ & Hpub
        & Hread & Htext).
  assert (missing_keys st = ["a"; "c"; "d"]) as Hmissing.
  { pose proof (f_equal (λ r : Outcome Locals * World,
                           match r.1 with
                           | Returned s => missing_keys s
                           | Raised _ => []
                           end) Hrun) as Hkeys.
    vm_compute in Hkeys. symmetry. exact Hkeys. }
  exists st, w'. split_and!.
  - exact Hrun.
  - rewrite Hsent, Hmissing. simpl map.
    change (OPENSEARCH_BUCKET Example.cfg) with "insitu" in *.
    destruct (Htext "a" eq_refl eq_refl) as [-> _].
    destruct (Htext "c" eq_refl eq_refl) as [-> _].
    destruct (Htext "d" eq_refl eq_refl) as [-> _].
    reflexivity.
  - rewrite Hpub. reflexivity.
  - reflexivity.
  - destruct (Htext "a" eq_refl eq_refl) as [_ Hcompact].
    etrans; [exact Hcompact|]. reflexivity.
  - apply Hread.
  - apply Hwire.
Defined.

(** ** The indexing pipeline *)

Section IndexerFacts.

Import Indexer.

(** The extraction of statistics, which reads S3 and the local disk:
    [None] where it raises. *)
Variable s3_stats : string → option S3Stat.
Variable local_stats : string → option Doc.

Lemma process_spec r st :
  (needs_stats r = true → extractable s3_stats local_stats (s3_url r)) →
  process s3_stats local_stats r st
  = (Returned tt,
     {| self_s3_url := Some (s3_url r);
        es_calls := es_calls st ++ expected_calls s3_stats local_stats r |}).
Proof.
  intros Hstats. unfold process, expected_calls, needs_stats in *.
  unfold mbind at 1, St_bind at 1, set_s3_url.
  change (existsb (λ k, Py.contains k (s3_url r)) ignoring_phrases)
    with (Py.contains "spark-staging" (s3_url r)
          || (Py.contains "_temporary" (s3_url r) || false)).
  rewrite orb_false_r. fold (is_staging (s3_url r)).
  fold (is_created (event_name r)) (is_removed (event_name r)).
  destruct (is_staging (s3_url r)).
  { unfold mret, St_ret. by rewrite app_nil_r. }
  destruct (is_created (event_name r)).
  { destruct (Hstats eq_refl) as [[s3_stat Hs3] [parquet_stat Hlocal]].
    unfold ingest_file, extract_stats_locally, mbind, St_bind, get_s3_url.
    cbn [self_s3_url]. rewrite Hs3. cbn [self_s3_url option_bind].
    by rewrite Hlocal. }
  destruct (is_removed (event_name r)).
  { done. }
  unfold mret, St_ret. by rewrite app_nil_r.
Qed.

(** C9.  For the records of an event, when the extraction of statistics
    returns for every file that needs it: [start] returns, and the calls
    it made to the index are, record by record and in order, none for a
    url that contains [spark-staging] or [_temporary]; otherwise one
    upsert of the document of the file when the trimmed, lower-cased
    event name starts with [objectcreated]; otherwise one delete by the
    url of the file when it starts with [objectremoved]; and none for any
    other event name. *)
Theorem start_dispatches records st :
  (∀ r, r ∈ records → needs_stats r = true →
        extractable s3_stats local_stats (s3_url r)) →
  ∃ st',
    start s3_stats local_stats records st = (Returned tt, st')
    ∧ es_calls st'
      = es_calls st
        ++ concat (map (expected_calls s3_stats local_stats) records)
    ∧ ∀ r, r ∈ records →
        (is_staging (s3_url r) = true →
         expected_calls s3_stats local_stats r = [])
        ∧ (is_staging (s3_url r) = false →
           is_created (event_name r) = true →
           ∃ s3_stat parquet_stat,
             s3_stats (s3_url r) = Some s3_stat
             ∧ local_stats (s3_url r) = Some parquet_stat
             ∧ expected_calls s3_stats local_stats r
               = [EsIndexOne
                    (merged (s3_url r) (to_json s3_stat) parquet_stat)
                    (stat_s3_url s3_stat)])
        ∧ (is_staging (s3_url r) = false →
           is_created (event_name r) = false →
           is_removed (event_name r) = true →
           expected_calls s3_stats local_stats r
           = [EsDeleteById (s3_url r)])
        ∧ (is_staging (s3_url r) = false →
           is_created (event_name r) = false →
           is_removed (event_name r) = false →
           expected_calls s3_stats local_stats r = []).
Proof.
  intros Hstats.
  assert (∃ st',
            start s3_stats local_stats records st = (Returned tt, st')
            ∧ es_calls st'
              = es_calls st
                ++ concat (map (expected_calls s3_stats local_stats) records))
    as (st' & Hrun & Hcalls).
  { revert st. induction records as [|r records IH]; intros st.
    - exists st. split; [done|]. simpl. by rewrite app_nil_r.
    - simpl start. unfold mbind, St_bind.
      rewrite process_spec
        by (apply Hstats; by apply list_elem_of_here).
      destruct (IH (λ r' Hr', Hstats r' (list_elem_of_further _ _ _ Hr'))
                  {| self_s3_url := Some (s3_url r);
                     es_calls :=
                       es_calls st ++ expected_calls s3_stats local_stats r |})
        as (st' & Hrun & Hcalls).
      exists st'. split; [done|]. rewrite Hcalls. simpl.
      by rewrite app_assoc. }
  exists st'. split_and!; [done|done|].
  intros r Hr. unfold expected_calls. split_and!.
  - by intros ->.
  - intros Hstaging Hcreated. rewrite Hstaging, Hcreated.
    destruct (Hstats r Hr) as [[s3_stat Hs3] [parquet_stat Hlocal]].
    { unfold needs_stats. by rewrite Hstaging, Hcreated. }
    exists s3_stat, parquet_stat. by rewrite Hs3, Hlocal.
  - by intros -> -> ->.
  - by intros -> -> ->.
Qed.

(** An extraction that raises ends [start]: the exception leaves it, and
    the records after the one that failed are not looked at. *)
Lemma start_stops_at_failed_extraction pre r rest st :
  (∀ r', r' ∈ pre → needs_stats r' = true →
         extractable s3_stats local_stats (s3_url r')) →
  needs_stats r = true →
  ¬ extractable s3_stats local_stats (s3_url r) →
  ∃ e st',
    start s3_stats local_stats (pre ++ r :: rest) st = (Raised e, st')
    ∧ es_calls st'
      = es_calls st
        ++ concat (map (expected_calls s3_stats local_stats) pre).
Proof.
  intros Hpre Hneeds Hfails. revert st.
  induction pre as [|r' pre IH]; intros st.
  - simpl. unfold mbind, St_bind, process, needs_stats in *.
    apply andb_true_iff in Hneeds as [Hstaging Hcreated].
    apply negb_true_iff in Hstaging.
    unfold mbind, St_bind, set_s3_url.
    change (existsb (λ k, Py.contains k (s3_url r)) ignoring_phrases)
      with (Py.contains "spark-staging" (s3_url r)
            || (Py.contains "_temporary" (s3_url r) || false)).
    rewrite orb_false_r. fold (is_staging (s3_url r)).
    fold (is_created (event_name r)). rewrite Hstaging, Hcreated.
    unfold ingest_file, extract_stats_locally, mbind, St_bind, get_s3_url.
    cbn [self_s3_url].
    destruct (s3_stats (s3_url r)) as [s3_stat|] eqn:Hs3.
    + cbn [self_s3_url option_bind].
      destruct (local_stats (s3_url r)) as [parquet_stat|] eqn:Hlocal.
      * exfalso. apply Hfails. split; by eexists.
      * eexists _, _. split; [reflexivity|]. simpl. by rewrite app_nil_r.
    + eexists _, _. split; [reflexivity|]. simpl. by rewrite app_nil_r.
  - simpl app. simpl start. unfold mbind, St_bind.
    rewrite process_spec by (apply Hpre; by apply list_elem_of_here).
    destruct (IH (λ r'' Hr'', Hpre r'' (list_elem_of_further _ _ _ Hr''))
                {| self_s3_url := Some (s3_url r');
                   es_calls :=
                     es_calls st ++ expected_calls s3_stats local_stats r' |})
      as (e & st' & Hrun & Hcalls).
    exists e, st'. split; [done|]. rewrite Hcalls. simpl.
    by rewrite app_assoc.
Qed.

End IndexerFacts.

(** The calls for that event: the upsert of [a] and the delete of
    [b]. *)
Lemma start_dispatches_witness :
  ∃ st',
    Indexer.start example_s3_stat example_statistics example_records
      {| Indexer.self_s3_url := None; Indexer.es_calls := [] |}
    = (Returned tt, st')
    ∧ Indexer.es_calls st'
      = [ Indexer.EsIndexOne
            (Indexer.merged "s3://insitu/a.parquet"
               {[ "bucket" := JString "insitu" ]} {[ "total" := JInt 10 ]})
            "s3://insitu/a.parquet";
          Indexer.EsDeleteById "s3://insitu/b.parquet" ].
Proof.
  destruct (start_dispatches example_s3_stat example_statistics
              example_records
              {| Indexer.self_s3_url := None; Indexer.es_calls := [] |})
    as (st' & Hrun & Hcalls & _).
  - intros r _ _. split; by eexists.
  - exists st'. split; [exact Hrun|]. rewrite Hcalls.
    vm_compute. reflexivity.
Defined.

(** ** The authenticator *)

Section AuthenticatorFacts.

Import Authenticator.

(** [AwsSecretManager.get_secret] and [json.loads], [None] where they
    raise; and the expression
    [base64.standard_b64decode(v.encode()).decode()] for a string [v],
    [None] where one of its three calls raises. *)
Variable get_secret : string → option string.
Variable json_loads : string → option json.
Variable b64decode_text : string → option string.

(** A call of [get_auth_credentials] that raises leaves the token as it
    was; one that returns has set it to the value under the credential
    key. *)
Lemma get_auth_credentials_token cred_name st :
  match get_auth_credentials get_secret json_loads cred_name st with
  | (Raised _, st') => st' = st
  | (Returned secret_json, st') =>
      subscript secret_json auth_cred_key = Some (token st')
  end.
Proof.
  unfold get_auth_credentials.
  destruct (get_secret cred_name) as [token_str|]; [|done].
  destruct (json_loads token_str ≫= _) as [secret_json|]; [|done].
  destruct (contains_key secret_json auth_cred_key) as [[|]|]; [|done..].
  by destruct (subscript secret_json auth_cred_key) as [t|] eqn:Ht.
Qed.

(** C10.  [authenticate] always returns and never raises, and leaves the
    token as it is; it returns [None] exactly when the input has the key
    [Authorization], its value is a string that decodes, and the decoded
    text is the token; it returns a message of its own for a missing key,
    for a value that does not decode and for a decoded text that is not
    the token.  The token is the empty string at first, and a call of
    [get_auth_credentials] that raises does not change it. *)
Theorem authenticate_accepts_exactly_the_token input st :
  (∃ r,
     authenticate b64decode_text input st = (Returned r, st)
     ∧ (r = None
        ↔ ∃ v s,
            input !! "Authorization" = Some (VStr v)
            ∧ b64decode_text v = Some s
            ∧ token st = JString s)
     ∧ (input !! "Authorization" = None →
        r = Some "missing key: Authorization")
     ∧ (∀ v,
          input !! "Authorization" = Some v →
          decoded b64decode_text v = None →
          r = Some "unable to base64 decode the value from Authorization")
     ∧ (∀ v s,
          input !! "Authorization" = Some v →
          decoded b64decode_text v = Some s →
          token st ≠ JString s →
          r = Some "mismatch incoming base64 token vs existing token"))
  ∧ token init = JString EmptyString
  ∧ ∀ cred_name,
      match get_auth_credentials get_secret json_loads cred_name st with
      | (Raised _, st') => token st' = token st
      | (Returned secret_json, st') =>
          subscript secret_json auth_cred_key = Some (token st')
      end.
Proof.
  split_and!; [|done|].
  - unfold authenticate.
    destruct (input !! "Authorization") as [v|] eqn:Hinput; last first.
    { eexists. split; [reflexivity|]. split_and!; [|done..].
      split; [done|]. by intros (? & ? & [=] & _). }
    destruct (decoded b64decode_text v) as [s|] eqn:Hdecode; last first.
    { eexists. split; [reflexivity|]. split_and!; [|done| |].
      - split; [done|]. intros (v' & s' & [= ->] & Hs' & _).
        simpl in Hdecode. by rewrite Hdecode in Hs'.
      - done.
      - intros v' s' [= <-]. by rewrite Hdecode. }
    unfold mbind, St_bind, get_token.
    destruct (differs s (token st)) eqn:Hdiffers.
    + eexists. split; [reflexivity|]. split_and!; [|done| |done].
      * split; [done|]. intros (v' & s' & [= ->] & Hs' & Htoken).
        simpl in Hdecode. rewrite Hdecode in Hs'. injection Hs' as <-.
        rewrite Htoken in Hdiffers. simpl in Hdiffers.
        by rewrite bool_decide_eq_true_2 in Hdiffers.
      * intros v' [= <-]. by rewrite Hdecode.
    + assert (token st = JString s) as Htoken.
      { destruct (token st) as [| | | |t| |]; try done.
        simpl in Hdiffers.
        apply negb_false_iff, bool_decide_eq_true in Hdiffers.
        by rewrite Hdiffers. }
      exists None. split; [reflexivity|]. split_and!.
      * split; [|done]. intros _. destruct v as [v|]; [|done].
        by exists v, s.
      * done.
      * intros v' [= <-]. by rewrite Hdecode.
      * intros v' s' [= <-]. rewrite Hdecode. by intros [= <-].
  - intros cred_name.
    pose proof (get_auth_credentials_token cred_name st) as Htoken.
    destruct (get_auth_credentials get_secret json_loads cred_name st)
      as [[secret|e] st'];
      [done|by rewrite Htoken].
Qed.

End AuthenticatorFacts.

(** * Further properties *)

(** ** The settings *)

Lemma append_slash_is_Some s : is_Some (append_slash (Some s)).
Proof.
  unfold append_slash. destruct (decide _); [by eexists|].
  destruct (negb _); by eexists.
Qed.

Lemma read_config_None env :
  read_config env = None
  ↔ ∃ name, name ∈ required_settings ∧ env !! name = None.
Proof.
  split.
  - intros Hnone. unfold read_config in Hnone.
    destruct (env !! "AWS_ACCESS_KEY_ID") eqn:H1; last first.
    { exists "AWS_ACCESS_KEY_ID". split; [|done].
      apply (bool_decide_unpack _). by vm_compute. }
    destruct (env !! "AWS_SECRET_ACCESS_KEY") eqn:H2; last first.
    { exists "AWS_SECRET_ACCESS_KEY". split; [|done].
      apply (bool_decide_unpack _). by vm_compute. }
    destruct (env !! "OPENSEARCH_ENDPOINT") eqn:H3; last first.
    { exists "OPENSEARCH_ENDPOINT". split; [|done].
      apply (bool_decide_unpack _). by vm_compute. }
    destruct (env !! "OPENSEARCH_INDEX") eqn:H4; last first.
    { exists "OPENSEARCH_INDEX". split; [|done].
      apply (bool_decide_unpack _). by vm_compute. }
    destruct (env !! "OPENSEARCH_PATH_PREFIX") as [prefix|] eqn:H5;
      last first.
    { exists "OPENSEARCH_PATH_PREFIX". split; [|done].
      apply (bool_decide_unpack _). by vm_compute. }
    destruct (env !! "OPENSEARCH_BUCKET") eqn:H6; last first.
    { exists "OPENSEARCH_BUCKET". split; [|done].
      apply (bool_decide_unpack _). by vm_compute. }
    exfalso.
    destruct (append_slash_is_Some prefix) as [p Hp].
    destruct (append_slash_is_Some
                (default ("s3://" +:+ fstr (Some s3) +:+ "/")
                         (env !! "OPENSEARCH_ID_PREFIX"))) as [i Hi].
    by rewrite Hp, Hi in Hnone.
  - intros (name & Hin & Hnone). unfold read_config.
    unfold required_settings in Hin.
    repeat (apply elem_of_cons in Hin as [->|Hin]);
      [..|by apply elem_of_nil in Hin];
      rewrite ?Hnone; repeat case_match; simplify_eq; done.
Qed.

(** X1.  [audit] exits with status 1 exactly when one of six variables
    of the environment is not set, and then before it has called
    anything; neither the port nor the id prefix is among the six. *)
Theorem missing_setting_exits_first env :
  (read_config env = None
   ↔ ∃ name, name ∈ required_settings ∧ env !! name = None)
  ∧ ∀ amb format output_file sns_topic resume lambda_ctx w,
      environ amb = env →
      (∃ name, name ∈ required_settings ∧ env !! name = None) →
      (format = "mock-s3" → Py.truthy output_file = true) →
      audit amb format output_file sns_topic resume lambda_ctx w
      = (Raised (SystemExit 1), w).
Proof.
  split; [apply read_config_None|].
  intros amb format output_file sns_topic resume lambda_ctx w <- Hmissing
    Hdest.
  apply read_config_None in Hmissing. unfold audit. rewrite Hmissing.
  destruct (bool_decide (format = "mock-s3")) eqn:Hformat; [|done].
  apply bool_decide_eq_true in Hformat. by rewrite (Hdest Hformat).
Qed.

Lemma read_config_Some env cfg :
  read_config env = Some cfg →
  env !! "OPENSEARCH_BUCKET" = Some (OPENSEARCH_BUCKET cfg)
  ∧ env !! "OPENSEARCH_INDEX" = Some (OPENSEARCH_INDEX cfg)
  ∧ OPENSEARCH_PORT cfg = default "443" (env !! "OPENSEARCH_PORT")
  ∧ append_slash (env !! "OPENSEARCH_PATH_PREFIX")
    = Some (OPENSEARCH_PATH_PREFIX cfg)
  ∧ append_slash
      (Some (default ("s3://" +:+ OPENSEARCH_BUCKET cfg +:+ "/")
                     (env !! "OPENSEARCH_ID_PREFIX")))
    = Some (OPENSEARCH_ID_PREFIX cfg).
Proof.
  unfold read_config.
  destruct (env !! "AWS_ACCESS_KEY_ID") as [access|]; [|done].
  destruct (env !! "AWS_SECRET_ACCESS_KEY") as [secret|]; [|done].
  destruct (env !! "OPENSEARCH_BUCKET") as [bucket|]; last first.
  { intros Hcfg. by repeat case_match. }
  destruct (env !! "OPENSEARCH_ENDPOINT") as [endpoint|]; [|done].
  simpl fstr.
  destruct (append_slash (Some (default _ _))) as [id_prefix|] eqn:Hid;
    [|done].
  destruct (env !! "OPENSEARCH_INDEX") as [index|]; [|done].
  destruct (append_slash (env !! "OPENSEARCH_PATH_PREFIX"))
    as [path_prefix|]; [|done].
  by intros [= <-].
Qed.

(** X2.  What the settings are read into: the bucket and the index as
    they are, the port with the default 443, the path prefix through
    [append_slash]; and without an id prefix in the environment the id of
    an object is [s3://], the bucket, a slash and the key. *)
Theorem unset_id_prefix_defaults_to_bucket env cfg :
  read_config env = Some cfg →
  env !! "OPENSEARCH_BUCKET" = Some (OPENSEARCH_BUCKET cfg)
  ∧ env !! "OPENSEARCH_INDEX" = Some (OPENSEARCH_INDEX cfg)
  ∧ OPENSEARCH_PORT cfg = default "443" (env !! "OPENSEARCH_PORT")
  ∧ append_slash (env !! "OPENSEARCH_PATH_PREFIX")
    = Some (OPENSEARCH_PATH_PREFIX cfg)
  ∧ (env !! "OPENSEARCH_ID_PREFIX" = None →
     OPENSEARCH_ID_PREFIX cfg = "s3://" +:+ OPENSEARCH_BUCKET cfg +:+ "/"
     ∧ ∀ obj,
         opensearch_id cfg obj
         = "s3://" +:+ OPENSEARCH_BUCKET cfg +:+ "/" +:+ Key obj).
Proof.
  intros (Hbucket & Hindex & Hport & Hpath & Hid)%read_config_Some.
  split_and!; [done..|].
  intros Hunset. rewrite Hunset in Hid. cbn [default] in Hid.
  assert (OPENSEARCH_ID_PREFIX cfg
          = "s3://" +:+ OPENSEARCH_BUCKET cfg +:+ "/") as Hprefix.
  { revert Hid. unfold append_slash.
    rewrite decide_False by (by rewrite str_app_cons).
    rewrite <- (str_app_assoc "s3://" (OPENSEARCH_BUCKET cfg) "/").
    rewrite last_char_app_slash, bool_decide_eq_true_2 by done.
    cbn [negb]. by intros [= <-]. }
  split; [done|]. intros obj. unfold opensearch_id, os_path_join.
  rewrite Hprefix. by rewrite !str_app_assoc.
Qed.

(** Without the variable the ids of the example start with the bucket. *)
Lemma unset_id_prefix_defaults_to_bucket_witness :
  ∃ cfg,
    read_config env_without_id_prefix = Some cfg
    ∧ OPENSEARCH_PORT cfg = "443"
    ∧ opensearch_id cfg (Example.obj "a") = "s3://insitu/a".
Proof.
  exists (default Example.cfg (read_config env_without_id_prefix)).
  destruct (unset_id_prefix_defaults_to_bucket env_without_id_prefix
              (default Example.cfg (read_config env_without_id_prefix))
              eq_refl) as (Hbucket & _ & Hport & _ & Hid).
  split; [reflexivity|]. split; [rewrite Hport; reflexivity|].
  destruct (Hid eq_refl) as [_ ->]. vm_compute. reflexivity.
Defined.

(** ** Every run, whatever the clock *)

Lemma error_count_classify r key st :
  error_count (classify r key st)
  = error_count st + (if is_missing r then 1 else 0)
    + (if is_other_error r then 1 else 0).
Proof. destruct r as [[| |[[|]|]]| |]; simpl; lia. Qed.

Lemma error_s3_keys_classify r key st :
  error_s3_keys (classify r key st)
  = error_s3_keys st ++ (if is_missing r then [key] else []).
Proof.
  destruct r as [[| |[[|]|]]| |]; simpl; by rewrite ?app_nil_r.
Qed.

Lemma error_count_checked amb cfg objs st :
  error_count (checked amb cfg objs st)
  = error_count st + length (missing_of amb cfg objs)
    + failed_lookups amb cfg objs.
Proof.
  unfold checked, missing_of, failed_lookups.
  revert st; induction objs as [|obj objs IH]; intros st; simpl; [lia|].
  rewrite IH, error_count_classify. simpl.
  destruct (is_missing (answer amb cfg obj)),
    (is_other_error (answer amb cfg obj)); simpl; lia.
Qed.

Lemma error_s3_keys_checked amb cfg objs st :
  error_s3_keys (checked amb cfg objs st)
  = error_s3_keys st ++ missing_of amb cfg objs.
Proof.
  unfold checked, missing_of.
  revert st; induction objs as [|obj objs IH]; intros st; simpl.
  - by rewrite app_nil_r.
  - rewrite IH, error_s3_keys_classify. simpl.
    destruct (is_missing (answer amb cfg obj)); simpl.
    + by rewrite <- app_assoc.
    + by rewrite app_nil_r.
Qed.

(** The two shapes of a run in one: the objects of a beginning [pre] of
    the objects to scan are checked, the output is that for the keys
    found missing among them, and [tail] is the re-invocation, if there
    is one. *)
Lemma audit_shape amb cfg format output_file sns_topic resume lambda_ctx
    w :
  read_config (environ amb) = Some cfg →
  (format = "mock-s3" → Py.truthy output_file = true) →
  ∃ st w' pre tail,
    audit amb format output_file sns_topic resume lambda_ctx w
    = (Returned st, w')
    ∧ pre `prefix_of` to_scan amb cfg resume
    ∧ count st = length pre
    ∧ missing_keys st = missing_of amb cfg pre
    ∧ error_s3_keys st = missing_of amb cfg pre
    ∧ error_count st
      = length (missing_of amb cfg pre) + failed_lookups amb cfg pre
    ∧ files w'
      = sink_files format output_file (missing_of amb cfg pre) (files w)
    ∧ trace w'
      = trace w ++ list_events amb cfg ++ map (lookup_event cfg) pre
        ++ sink_events cfg format output_file sns_topic
             (missing_of amb cfg pre)
        ++ tail
    ∧ clock_reads w'
      = clock_reads w + ticks lambda_ctx (length pre) + length tail
    ∧ ((need_to_resume st = false ∧ tail = []
        ∧ pre = to_scan amb cfg resume)
       ∨ ∃ ctx obj rest,
           lambda_ctx = Some ctx ∧ need_to_resume st = true
           ∧ resume_from_key st = Some (PyStr (Key obj))
           ∧ tail = [invoke_event ctx obj]
           ∧ to_scan amb cfg resume = pre ++ obj :: rest).
Proof.
  intros Hcfg Hdest. rewrite (audit_configured amb cfg) by done.
  destruct (audit_run_cases amb cfg format output_file sns_topic resume
              lambda_ctx w)
    as [[Hall ->]
       |(ctx & pre & obj & rest & -> & Hsplit & Hlong & Hshort & ->)].
  - eexists _, _, (to_scan amb cfg resume), []. unfold completed.
    split_and!; [reflexivity|done|..]; cbn [files trace clock_reads].
    + by rewrite count_checked.
    + by rewrite missing_keys_checked.
    + by rewrite error_s3_keys_checked.
    + by rewrite error_count_checked.
    + done.
    + by rewrite app_nil_r.
    + simpl. lia.
    + left. by rewrite need_to_resume_checked.
  - eexists _, _, pre, [invoke_event ctx obj]. unfold interrupted.
    split_and!; [reflexivity|..];
      cbn [files trace clock_reads suspended count missing_keys
             error_s3_keys error_count need_to_resume resume_from_key].
    + rewrite Hsplit. by apply prefix_app_r.
    + by rewrite count_checked.
    + by rewrite missing_keys_checked.
    + by rewrite error_s3_keys_checked.
    + by rewrite error_count_checked.
    + done.
    + done.
    + simpl. lia.
    + right. by exists ctx, obj, rest.
Qed.

Lemma list_events_replicate amb cfg :
  list_events amb cfg
  = replicate
      (length (s3_paginate amb (OPENSEARCH_BUCKET cfg)
                 (OPENSEARCH_PATH_PREFIX cfg)))
      (EvListObjects (OPENSEARCH_BUCKET cfg) (OPENSEARCH_PATH_PREFIX cfg)).
Proof.
  unfold list_events.
  induction (s3_paginate amb _ _) as [|page pages IH]; [done|].
  simpl. by rewrite IH.
Qed.

Lemma sink_events_output cfg format output_file sns_topic missing :
  Forall (λ e, is_output_call e = true)
    (sink_events cfg format output_file sns_topic missing).
Proof.
  unfold sink_events, summary.
  destruct (decide (format = "plain")).
  - destruct output_file as [path|]; [|done].
    destruct (Py.truthy (Some path)); [|done].
    constructor; [done|]. by apply Forall_map, Forall_true.
  - apply Forall_app. split; [by apply Forall_map, Forall_true|].
    destruct sns_topic as [topic|]; [|done].
    destruct (Py.truthy (Some topic)); [|done]. by constructor.
Qed.

(** X3.  The calls of a run come in four phases that never mix: one
    listing call for every page, all with the configured bucket and path
    prefix; then the lookups, one for every object counted; then the
    output; then, when the run is suspended and only then, one
    re-invocation.  So the whole listing is fetched before the first
    lookup, and nothing is written or queued before the last one. *)
Theorem calls_come_in_phases amb cfg format output_file sns_topic resume
    lambda_ctx w :
  read_config (environ amb) = Some cfg →
  (format = "mock-s3" → Py.truthy output_file = true) →
  ∃ st w' lookup_calls output_calls invoke_calls,
    audit amb format output_file sns_topic resume lambda_ctx w
    = (Returned st, w')
    ∧ trace w'
      = trace w
        ++ replicate
             (length (s3_paginate amb (OPENSEARCH_BUCKET cfg)
                        (OPENSEARCH_PATH_PREFIX cfg)))
             (EvListObjects (OPENSEARCH_BUCKET cfg)
                (OPENSEARCH_PATH_PREFIX cfg))
        ++ lookup_calls ++ output_calls ++ invoke_calls
    ∧ Forall (λ e, is_lookup_call e = true) lookup_calls
    ∧ length lookup_calls = count st
    ∧ Forall (λ e, is_output_call e = true) output_calls
    ∧ Forall (λ e, is_invoke e = true) invoke_calls
    ∧ length invoke_calls = (if need_to_resume st then 1 else 0).
Proof.
  intros Hcfg Hdest.
  destruct (audit_shape amb cfg format output_file sns_topic resume
              lambda_ctx w Hcfg Hdest)
    as (st & w' & pre & tail & Hrun & Hpre & Hcount & Hmissing & Hkeys
        & Herrors & Hfiles & Htrace & Hclock & Hend).
  exists st, w', (map (lookup_event cfg) pre),
    (sink_events cfg format output_file sns_topic (missing_of amb cfg pre)),
    tail.
  split_and!.
  - done.
  - by rewrite Htrace, list_events_replicate.
  - by apply Forall_map, Forall_true.
  - by rewrite length_map.
  - apply sink_events_output.
  - destruct Hend as [(_ & -> & _)|(ctx & obj & rest & _ & _ & _ & -> & _)];
      [done|by constructor].
  - by destruct Hend
      as [(-> & -> & _)|(ctx & obj & rest & _ & -> & _ & -> & _)].
Qed.

(** The run of the example that the clock cuts short after [a] and
    [b]: three pages listed, two lookups, one re-invocation. *)
Lemma calls_come_in_phases_witness :
  ∃ st w' lookup_calls output_calls invoke_calls,
    audit Example.amb "plain" (Some "report.txt") None None
      (Some Example.ctx) (initial_world ∅) = (Returned st, w')
    ∧ trace w'
      = replicate 3 (EvListObjects "insitu" EmptyString)
        ++ lookup_calls ++ output_calls ++ invoke_calls
    ∧ length lookup_calls = 2
    ∧ length invoke_calls = 1.
Proof.
  destruct (calls_come_in_phases Example.amb Example.cfg "plain"
              (Some "report.txt") None None (Some Example.ctx)
              (initial_world ∅) eq_refl ltac:(done))
    as (st & w' & lookup_calls & output_calls & invoke_calls & Hrun
        & Htrace & _ & Hcount & _ & _ & Hinvoke).
  exists st, w', lookup_calls, output_calls, invoke_calls.
  split; [exact Hrun|]. split; [exact Htrace|].
  pose proof Hrun as Hvalue. vm_compute in Hvalue.
  injection Hvalue as <- _. split; [exact Hcount|exact Hinvoke].
Defined.

Lemma exclusive_filters {A} (p q : A → bool) (l : list A) :
  (∀ x, p x = true → q x = false) →
  (length (List.filter p l) + length (List.filter q l) ≤ length l)%nat.
Proof.
  intros Hpq. induction l as [|x l IH]; simpl; [lia|].
  destruct (p x) eqn:Hp; [rewrite (Hpq x Hp)|destruct (q x)]; simpl; lia.
Qed.

Lemma is_missing_not_other r :
  is_missing r = true → is_other_error r = false.
Proof. by destruct r as [[| |[[|]|]]| |]. Qed.

(** X4.  The local counters of every run, whatever the clock and the
    answers: [count] is the number of objects checked, a beginning of
    the objects to scan; [error_s3_keys] is the same list as
    [missing_keys]; [error_count] is the number of missing keys plus the
    number of lookups that ended in the last handler, and never more
    than [count]; the clock is read once for every object checked and
    once more when the run is suspended, and never outside a Lambda. *)
Theorem counters_add_up amb cfg format output_file sns_topic resume
    lambda_ctx w :
  read_config (environ amb) = Some cfg →
  (format = "mock-s3" → Py.truthy output_file = true) →
  ∃ st w' pre,
    audit amb format output_file sns_topic resume lambda_ctx w
    = (Returned st, w')
    ∧ pre `prefix_of` to_scan amb cfg resume
    ∧ count st = length pre
    ∧ missing_keys st = missing_of amb cfg pre
    ∧ error_s3_keys st = missing_keys st
    ∧ error_count st
      = length (missing_keys st) + failed_lookups amb cfg pre
    ∧ (error_count st ≤ count st)%nat
    ∧ clock_reads w'
      = clock_reads w
        + match lambda_ctx with
          | Some _ => count st + (if need_to_resume st then 1 else 0)
          | None => 0
          end.
Proof.
  intros Hcfg Hdest.
  destruct (audit_shape amb cfg format output_file sns_topic resume
              lambda_ctx w Hcfg Hdest)
    as (st & w' & pre & tail & Hrun & Hpre & Hcount & Hmissing & Hkeys
        & Herrors & Hfiles & Htrace & Hclock & Hend).
  exists st, w', pre. split_and!; [done..| | | |].
  - by rewrite Hkeys, Hmissing.
  - by rewrite Herrors, Hmissing.
  - rewrite Herrors, Hcount. unfold missing_of, failed_lookups.
    rewrite length_map. apply exclusive_filters.
    intros obj. apply is_missing_not_other.
  - rewrite Hclock, Hcount.
    destruct Hend
      as [(-> & -> & _)|(ctx & obj & rest & -> & -> & _ & -> & _)];
      simpl; [destruct lambda_ctx; simpl|]; lia.
Qed.

(** The run of the example whose lookup of [a] fails with another
    error and that has no record of [b]: two objects checked, two
    errors, one missing key. *)
Lemma counters_add_up_witness :
  ∃ st w',
    audit Example.amb_failing "plain" None None None None
      (initial_world ∅) = (Returned st, w')
    ∧ count st = 2 ∧ error_count st = 2 ∧ missing_keys st = ["b"]
    ∧ error_s3_keys st = ["b"] ∧ clock_reads w' = 0.
Proof.
  destruct (counters_add_up Example.amb_failing Example.cfg "plain" None
              None None None (initial_world ∅) eq_refl ltac:(done))
    as (st & w' & pre & Hrun & _ & _ & _ & Hkeys & _ & _ & Hclock).
  exists st, w'. split; [exact Hrun|].
  pose proof Hrun as Hvalue. vm_compute in Hvalue.
  injection Hvalue as <- _.
  split_and!; [reflexivity..|exact Hkeys|exact Hclock].
Defined.

Lemma sent_list_events amb cfg : sent (list_events amb cfg) = [].
Proof.
  apply omap_all_none. unfold list_events.
  by apply Forall_map, Forall_true.
Qed.

Lemma published_list_events amb cfg :
  published (list_events amb cfg) = [].
Proof.
  apply omap_all_none. unfold list_events.
  by apply Forall_map, Forall_true.
Qed.

Lemma filter_none {A} (p : A → bool) (l : list A) :
  Forall (λ x, p x = false) l → List.filter p l = [].
Proof. induction 1 as [|x l Hx _ IH]; [done|]. simpl. by rewrite Hx. Qed.

Lemma invokes_list_events amb cfg :
  List.filter is_invoke (list_events amb cfg) = [].
Proof.
  apply filter_none. unfold list_events.
  by apply Forall_map, Forall_true.
Qed.

Lemma invokes_lookup_events cfg objs :
  List.filter is_invoke (map (lookup_event cfg) objs) = [].
Proof. apply filter_none. by apply Forall_map, Forall_true. Qed.

Lemma invokes_sink_events cfg format output_file sns_topic missing :
  List.filter is_invoke
    (sink_events cfg format output_file sns_topic missing) = [].
Proof.
  apply filter_none.
  eapply Forall_impl; [apply sink_events_output|].
  intros e He. by destruct e.
Qed.

Lemma prefix_of_nil {A} (l : list A) : l `prefix_of` [] → l = [].
Proof.
  intros [k Hk]. symmetry in Hk. by apply app_eq_nil in Hk as [-> _].
Qed.

(** X5.  An empty listing: the run returns with nothing counted and
    nothing missing, and is never suspended, not even in a Lambda that
    is out of time, whose clock it does not read.  It asks the catalog
    nothing and queues nothing; but in report mode the destination file
    is still created, or emptied, and in requeue mode the notification is
    still published, with a count of 0. *)
Theorem empty_listing_is_reported amb cfg format output_file sns_topic
    resume lambda_ctx w :
  read_config (environ amb) = Some cfg →
  (format = "mock-s3" → Py.truthy output_file = true) →
  listing amb cfg = [] →
  ∃ st w',
    audit amb format output_file sns_topic resume lambda_ctx w
    = (Returned st, w')
    ∧ count st = 0 ∧ missing_keys st = [] ∧ need_to_resume st = false
    ∧ clock_reads w' = clock_reads w
    ∧ lookups (trace w') = lookups (trace w)
    ∧ sent (trace w') = sent (trace w)
    ∧ List.filter is_invoke (trace w') = List.filter is_invoke (trace w)
    ∧ (format = "plain" →
       ∀ path, output_file = Some path → path ≠ EmptyString →
               files w' = <[path := EmptyString]> (files w))
    ∧ (format ≠ "plain" →
       files w' = files w
       ∧ ∀ topic, sns_topic = Some topic → topic ≠ EmptyString →
           published (trace w')
           = published (trace w)
             ++ [(topic,
                  "Parquet stats audit found 0 missing keys. Trying to republish to SQS.",
                  "Insitu audit")]).
Proof.
  intros Hcfg Hdest Hempty.
  destruct (audit_shape amb cfg format output_file sns_topic resume
              lambda_ctx w Hcfg Hdest)
    as (st & w' & pre & tail & Hrun & Hpre & Hcount & Hmissing & Hkeys
        & Herrors & Hfiles & Htrace & Hclock & Hend).
  assert (to_scan amb cfg resume = []) as Hscan.
  { unfold to_scan. rewrite Hempty. by rewrite drop_nil. }
  rewrite Hscan in Hpre. apply prefix_of_nil in Hpre as ->.
  destruct Hend
    as [(Hresume & -> & _)|(ctx & obj & rest & _ & _ & _ & _ & Hsplit)];
    last first.
  { rewrite Hscan in Hsplit. by destruct (app_cons_not_nil _ _ _ Hsplit). }
  change (missing_of amb cfg []) with (@nil string) in *.
  simpl in Htrace. rewrite app_nil_r in Htrace.
  exists st, w'. split_and!; [done..| | | | | |].
  - rewrite Hclock. unfold ticks. destruct lambda_ctx; simpl; lia.
  - by rewrite Htrace, !lookups_app, lookups_list_events,
      lookups_sink_events, !app_nil_r.
  - rewrite Htrace, !sent_app.
    rewrite sent_list_events.
    unfold sink_events. destruct (decide (format = "plain")).
    + destruct output_file as [path|]; [|by rewrite app_nil_r].
      destruct (Py.truthy (Some path)); by rewrite app_nil_r.
    + simpl. by rewrite sent_summary, app_nil_r.
  - by rewrite Htrace, !List.filter_app, invokes_list_events,
      invokes_sink_events, !app_nil_r.
  - intros -> path -> Hpath. rewrite Hfiles. unfold sink_files. simpl.
    by destruct path.
  - intros Hformat. split.
    { rewrite Hfiles. unfold sink_files. by rewrite decide_False. }
    intros topic -> Htopic. rewrite Htrace, !published_app.
    rewrite published_list_events.
    unfold sink_events. rewrite decide_False by done. simpl.
    by destruct topic.
Qed.

(** In a Lambda that is out of time, with nothing listed: the file is
    emptied and there is no re-invocation. *)
Lemma empty_listing_is_reported_witness :
  ∃ st w',
    audit empty_bucket "plain" (Some "report.txt") None None
      (Some Example.ctx_late)
      (initial_world {[ "report.txt" := "old" ]}) = (Returned st, w')
    ∧ need_to_resume st = false
    ∧ clock_reads w' = 0
    ∧ files w' = {[ "report.txt" := EmptyString ]}
    ∧ List.filter is_invoke (trace w') = [].
Proof.
  destruct (empty_listing_is_reported empty_bucket Example.cfg "plain"
              (Some "report.txt") None None (Some Example.ctx_late)
              (initial_world {[ "report.txt" := "old" ]})
              eq_refl ltac:(done) eq_refl)
    as (st & w' & Hrun & _ & _ & Hresume & Hclock & _ & _ & Hinvoke
        & Hfile & _).
  exists st, w'. split_and!; [exact Hrun|exact Hresume|exact Hclock|
                              |exact Hinvoke].
  rewrite (Hfile eq_refl "report.txt" eq_refl ltac:(done)).
  apply insert_singleton_eq.
Defined.

(** What a projection of the trace that looks at output calls only sees
    of a run: the output step. *)
Lemma omap_run {B} (f : Event → option B) amb cfg pre sinks tail :
  (∀ e, is_output_call e = false → f e = None) →
  Forall (λ e, is_invoke e = true) tail →
  omap f (list_events amb cfg ++ map (lookup_event cfg) pre ++ sinks
          ++ tail)
  = omap f sinks.
Proof.
  intros Hf Htail. rewrite !omap_app.
  rewrite (omap_all_none f (list_events amb cfg)); last first.
  { unfold list_events. apply Forall_map, Forall_true. intros _.
    by apply Hf. }
  rewrite (omap_all_none f (map (lookup_event cfg) pre)); last first.
  { apply Forall_map, Forall_true. intros obj. by apply Hf. }
  rewrite (omap_all_none f tail); last first.
  { eapply Forall_impl; [exact Htail|]. intros e He. apply Hf.
    by destruct e. }
  by rewrite app_nil_r.
Qed.

Lemma sent_message_output e :
  is_output_call e = false → sent_message e = None.
Proof. by destruct e. Qed.

Lemma published_message_output e :
  is_output_call e = false → published_message e = None.
Proof. by destruct e. Qed.

(** The re-invocation of a run, if there is one, is a call to Lambda. *)
Lemma audit_shape_tail amb cfg lambda_ctx resume st pre tail :
  (need_to_resume st = false ∧ tail = [] ∧ pre = to_scan amb cfg resume)
  ∨ (∃ ctx obj rest,
       lambda_ctx = Some ctx ∧ need_to_resume st = true
       ∧ resume_from_key st = Some (PyStr (Key obj))
       ∧ tail = [invoke_event ctx obj]
       ∧ to_scan amb cfg resume = pre ++ obj :: rest) →
  Forall (λ e, is_invoke e = true) tail.
Proof.
  intros [(_ & -> & _)|(ctx & obj & rest & _ & _ & _ & -> & _)];
    [done|by constructor].
Qed.

(** X6.  What a run leaves on the file system and on the queue, whatever
    the clock and the resume key.  In report mode with a destination the
    file holds the report of the missing keys and nothing of what it held
    before, every other file is as it was, and nothing is queued or
    published.  In report mode without a destination and in requeue mode
    no file changes. *)
Theorem only_the_report_is_written amb cfg format output_file sns_topic
    resume lambda_ctx w :
  read_config (environ amb) = Some cfg →
  (format = "mock-s3" → Py.truthy output_file = true) →
  ∃ st w',
    audit amb format output_file sns_topic resume lambda_ctx w
    = (Returned st, w')
    ∧ (format = "plain" →
       sent (trace w') = sent (trace w)
       ∧ published (trace w') = published (trace w)
       ∧ (∀ path,
            output_file = Some path → path ≠ EmptyString →
            files w' = <[path := report (missing_keys st)]> (files w))
       ∧ (Py.truthy output_file = false → files w' = files w))
    ∧ (format ≠ "plain" → files w' = files w).
Proof.
  intros Hcfg Hdest.
  destruct (audit_shape amb cfg format output_file sns_topic resume
              lambda_ctx w Hcfg Hdest)
    as (st & w' & pre & tail & Hrun & Hpre & Hcount & Hmissing & Hkeys
        & Herrors & Hfiles & Htrace & Hclock & Hend).
  apply audit_shape_tail in Hend.
  exists st, w'. split; [done|]. split.
  - intros ->.
    assert (omap sent_message
              (sink_events cfg "plain" output_file sns_topic
                 (missing_of amb cfg pre)) = []
            ∧ omap published_message
                (sink_events cfg "plain" output_file sns_topic
                   (missing_of amb cfg pre)) = []) as [Hsent Hpublished].
    { unfold sink_events. simpl.
      destruct output_file as [path|]; [|done].
      destruct (Py.truthy (Some path)); [|done]. simpl.
      split; by apply omap_all_none, Forall_map, Forall_true. }
    split_and!.
    + unfold sent. rewrite Htrace, omap_app.
      rewrite omap_run by (done || apply sent_message_output).
      by rewrite Hsent, app_nil_r.
    + unfold published. rewrite Htrace, omap_app.
      rewrite omap_run by (done || apply published_message_output).
      by rewrite Hpublished, app_nil_r.
    + intros path -> Hpath. rewrite Hfiles, Hmissing. unfold sink_files.
      simpl. by destruct path.
    + intros Hnone. rewrite Hfiles. unfold sink_files. simpl.
      destruct output_file as [path|]; [|done]. by rewrite Hnone.
  - intros Hformat. rewrite Hfiles. unfold sink_files.
    by rewrite decide_False.
Qed.

(** The report of the example replaces what the file held; the file
    next to it stays. *)
Lemma only_the_report_is_written_witness :
  ∃ st w',
    audit Example.amb "plain" (Some "report.txt") None None None
      (initial_world {[ "report.txt" := "old"; "other.txt" := "kept" ]})
    = (Returned st, w')
    ∧ files w' !! "report.txt" = Some (report ["a"; "c"; "d"])
    ∧ files w' !! "other.txt" = Some "kept"
    ∧ sent (trace w') = [].
Proof.
  destruct (only_the_report_is_written Example.amb Example.cfg "plain"
              (Some "report.txt") None None None
              (initial_world
                 {[ "report.txt" := "old"; "other.txt" := "kept" ]})
              eq_refl ltac:(done))
    as (st & w' & Hrun & Hplain & _).
  destruct (Hplain eq_refl) as (Hsent & _ & Hfile & _).
  specialize (Hfile "report.txt" eq_refl ltac:(done)).
  exists st, w'. split; [exact Hrun|].
  pose proof Hrun as Hvalue. vm_compute in Hvalue.
  injection Hvalue as Hst _. rewrite <- Hst in Hfile.
  rewrite Hfile. split_and!; [reflexivity|reflexivity|exact Hsent].
Defined.

Lemma published_lookup_events cfg objs :
  published (map (lookup_event cfg) objs) = [].
Proof. by apply omap_all_none, Forall_map, Forall_true. Qed.

Lemma published_sink_events_no_topic cfg format output_file sns_topic
    missing :
  Py.truthy sns_topic = false →
  published (sink_events cfg format output_file sns_topic missing) = [].
Proof.
  intros Htopic. unfold sink_events, summary.
  destruct (decide (format = "plain")).
  - destruct output_file as [path|]; [|done].
    destruct (Py.truthy (Some path)); [|done].
    apply omap_all_none. constructor; [done|].
    by apply Forall_map, Forall_true.
  - rewrite published_app, published_sends.
    destruct sns_topic as [topic|]; [|done]. by rewrite Htopic.
Qed.

(** X7.  The script run from the command line: with the format
    [mock-s3] and no output, or an empty one, it raises before any call.
    Otherwise it checks every listed object, in listing order and
    whatever time that takes: it reads no clock, is never suspended,
    does not invoke itself and publishes no notification. *)
Theorem command_line_scans_everything amb args w :
  (args_format args = "mock-s3" →
   Py.truthy (args_output args) = false →
   main amb args w
   = (Raised
        (ValueError
           "Output file MUST be defined with mock-s3 output format"),
      w))
  ∧ ∀ cfg,
      read_config (environ amb) = Some cfg →
      (args_format args = "mock-s3" →
       Py.truthy (args_output args) = true) →
      ∃ st w',
        main amb args w = (Returned st, w')
        ∧ count st = length (listing amb cfg)
        ∧ missing_keys st = missing_of amb cfg (listing amb cfg)
        ∧ need_to_resume st = false
        ∧ lookups (trace w')
          = lookups (trace w) ++ map (opensearch_id cfg) (listing amb cfg)
        ∧ clock_reads w' = clock_reads w
        ∧ published (trace w') = published (trace w)
        ∧ List.filter is_invoke (trace w')
          = List.filter is_invoke (trace w).
Proof.
  split.
  - intros Hformat Hnone. unfold main, audit.
    by rewrite Hformat, Hnone.
  - intros cfg Hcfg Hdest. unfold main.
    rewrite (audit_configured amb cfg) by done.
    rewrite audit_run_completed by (by intros ctx [=]).
    unfold completed. eexists _, _. split; [reflexivity|].
    rewrite to_scan_none. cbn [trace clock_reads ticks].
    split_and!.
    + by rewrite count_checked.
    + by rewrite missing_keys_checked.
    + by rewrite need_to_resume_checked.
    + by rewrite !lookups_app, lookups_list_events, lookups_lookup_events,
        lookups_sink_events, app_nil_r.
    + lia.
    + by rewrite !published_app, published_list_events,
        published_lookup_events, published_sink_events_no_topic,
        !app_nil_r.
    + by rewrite !List.filter_app, invokes_list_events,
        invokes_lookup_events, invokes_sink_events, !app_nil_r.
Qed.

(** The command line on the example, without options. *)
Lemma command_line_scans_everything_witness :
  ∃ st w',
    main Example.amb {| args_format := "plain"; args_output := None |}
      (initial_world ∅) = (Returned st, w')
    ∧ count st = 4
    ∧ missing_keys st = ["a"; "c"; "d"]
    ∧ need_to_resume st = false.
Proof.
  destruct (proj2 (command_line_scans_everything Example.amb
                     {| args_format := "plain"; args_output := None |}
                     (initial_world ∅))
              Example.cfg eq_refl ltac:(done))
    as (st & w' & Hrun & Hcount & Hmissing & Hresume & _).
  exists st, w'. split_and!; [exact Hrun| | |exact Hresume].
  - rewrite Hcount. reflexivity.
  - rewrite Hmissing. vm_compute. reflexivity.
Defined.

(** ** The resume key *)

Lemma py_index_entry before entry rest :
  entry ∉ before →
  py_index (PyDict entry) (before ++ entry :: rest) = Some (length before).
Proof.
  induction before as [|o before IH]; simpl.
  - intros _. by rewrite bool_decide_eq_true_2.
  - intros [Hne Hnot]%not_elem_of_cons.
    rewrite bool_decide_eq_false_2 by done. by rewrite IH.
Qed.

Lemma start_of_entry before entry rest :
  entry ∉ before →
  start_of (Some (PyDict entry)) (before ++ entry :: rest) = length before.
Proof. intros Hnot. unfold start_of. simpl. by rewrite py_index_entry. Qed.

(** X8.  A resume value that is an entry of the listing, the dict and
    not its key: the scan starts at the first entry equal to it.  The
    entries before it are not looked up and not counted; without time
    pressure all the others are, in listing order. *)
Theorem resume_starts_at_the_listed_entry amb cfg format output_file
    sns_topic lambda_ctx w before entry rest :
  read_config (environ amb) = Some cfg →
  (format = "mock-s3" → Py.truthy output_file = true) →
  listing amb cfg = before ++ entry :: rest →
  entry ∉ before →
  unhurried lambda_ctx (clock_reads w) (S (length rest)) →
  ∃ st w',
    audit amb format output_file sns_topic (Some (PyDict entry))
      lambda_ctx w = (Returned st, w')
    ∧ lookups (trace w')
      = lookups (trace w) ++ map (opensearch_id cfg) (entry :: rest)
    ∧ count st = S (length rest)
    ∧ missing_keys st = missing_of amb cfg (entry :: rest)
    ∧ need_to_resume st = false.
Proof.
  intros Hcfg Hdest Hlisting Hfirst Hok.
  assert (to_scan amb cfg (Some (PyDict entry)) = entry :: rest) as Hscan.
  { unfold to_scan. rewrite Hlisting, start_of_entry by done.
    by rewrite drop_app_length. }
  rewrite (audit_configured amb cfg) by done.
  rewrite audit_run_completed by (by rewrite Hscan).
  unfold completed. rewrite Hscan. eexists _, _.
  split; [reflexivity|]. cbn [trace]. split_and!.
  - by rewrite !lookups_app, lookups_list_events, lookups_lookup_events,
      lookups_sink_events, app_nil_r.
  - by rewrite count_checked.
  - by rewrite missing_keys_checked.
  - by rewrite need_to_resume_checked.
Qed.

(** Resuming the example from the entry of [c]: [a] and [b] are
    skipped. *)
Lemma resume_starts_at_the_listed_entry_witness :
  ∃ st w',
    audit Example.amb "plain" None None
      (Some (PyDict (Example.obj "c"))) None (initial_world ∅)
    = (Returned st, w')
    ∧ lookups (trace w') = ["s3://insitu/c"; "s3://insitu/d"]
    ∧ count st = 2
    ∧ missing_keys st = ["c"; "d"].
Proof.
  destruct (resume_starts_at_the_listed_entry Example.amb Example.cfg
              "plain" None None None (initial_world ∅)
              [Example.obj "a"; Example.obj "b"] (Example.obj "c")
              [Example.obj "d"] eq_refl ltac:(done) eq_refl)
    as (st & w' & Hrun & Hlookups & Hcount & Hmissing & _).
  - apply (bool_decide_unpack _). by vm_compute.
  - by intros ctx [=].
  - exists st, w'. split_and!; [exact Hrun| |exact Hcount|].
    + rewrite Hlookups. reflexivity.
    + rewrite Hmissing. vm_compute. reflexivity.
Defined.

Lemma to_scan_unlisted amb cfg v :
  py_in v (listing amb cfg) = false →
  to_scan amb cfg (Some v) = listing amb cfg.
Proof.
  intros Hnot. unfold to_scan, start_of. simpl.
  by rewrite py_index_not_in.
Qed.

(** X9.  A resume value that is not among the entries of the listing,
    be it a string or an entry that is no longer listed, is ignored
    without an error: the run makes the calls, leaves the files and
    returns the counts and missing keys of a run without a resume
    value. *)
Theorem unlisted_resume_value_starts_over amb cfg format output_file
    sns_topic v lambda_ctx w :
  read_config (environ amb) = Some cfg →
  (format = "mock-s3" → Py.truthy output_file = true) →
  py_in v (listing amb cfg) = false →
  ∃ st st' w',
    audit amb format output_file sns_topic (Some v) lambda_ctx w
    = (Returned st, w')
    ∧ audit amb format output_file sns_topic None lambda_ctx w
      = (Returned st', w')
    ∧ count st = count st'
    ∧ error_count st = error_count st'
    ∧ missing_keys st = missing_keys st'
    ∧ need_to_resume st = need_to_resume st'.
Proof.
  intros Hcfg Hdest Hnot.
  pose proof (to_scan_unlisted amb cfg v Hnot) as Hscan.
  rewrite !(audit_configured amb cfg) by done.
  destruct (clock_cases lambda_ctx (clock_reads w) (listing amb cfg))
    as [Hok|(ctx & pre & obj & rest & -> & Hsplit & Hok & Hshort)].
  - rewrite !audit_run_completed by (by rewrite ?Hscan).
    unfold completed. rewrite Hscan, to_scan_none.
    eexists _, _, _. split_and!; [reflexivity|reflexivity|..].
    + by rewrite !count_checked.
    + by rewrite !error_count_checked.
    + by rewrite !missing_keys_checked.
    + by rewrite !need_to_resume_checked.
  - rewrite !(audit_run_interrupted amb cfg _ _ _ _ ctx pre obj rest)
      by (by rewrite ?Hscan).
    unfold interrupted. eexists _, _, _.
    split_and!; [reflexivity|reflexivity|..];
      cbn [suspended count error_count missing_keys need_to_resume].
    + by rewrite !count_checked.
    + by rewrite !error_count_checked.
    + by rewrite !missing_keys_checked.
    + done.
Qed.

(** Resuming the example from an entry that is not listed. *)
Lemma unlisted_resume_value_starts_over_witness :
  ∃ st st' w',
    audit Example.amb "plain" None None (Some (PyDict unlisted_entry))
      None (initial_world ∅) = (Returned st, w')
    ∧ audit Example.amb "plain" None None None None (initial_world ∅)
      = (Returned st', w')
    ∧ missing_keys st = missing_keys st'.
Proof.
  destruct (unlisted_resume_value_starts_over Example.amb Example.cfg
              "plain" None None (PyDict unlisted_entry) None
              (initial_world ∅) eq_refl ltac:(done) eq_refl)
    as (st & st' & w' & Hrun & Hrun' & _ & _ & Hmissing & _).
  by exists st, st', w'.
Defined.

(** ** The format *)

(** X10.  The format is compared with [plain] for the output and with
    [mock-s3] for the first check, and with nothing else: under any
    third format the run takes the requeue branch: it makes one queue
    call for every missing key, with whatever [output_file] is as the
    queue, and writes no file. *)
Theorem other_formats_requeue_unchecked amb cfg format output_file
    sns_topic resume lambda_ctx w :
  read_config (environ amb) = Some cfg →
  format ≠ "plain" →
  format ≠ "mock-s3" →
  ∃ st w',
    audit amb format output_file sns_topic resume lambda_ctx w
    = (Returned st, w')
    ∧ sent (trace w')
      = sent (trace w)
        ++ map (λ key,
                  (output_file,
                   key_to_sqs_msg key (OPENSEARCH_BUCKET cfg)))
             (missing_keys st)
    ∧ files w' = files w.
Proof.
  intros Hcfg Hplain Hrequeue.
  destruct (audit_shape amb cfg format output_file sns_topic resume
              lambda_ctx w Hcfg ltac:(done))
    as (st & w' & pre & tail & Hrun & Hpre & Hcount & Hmissing & Hkeys
        & Herrors & Hfiles & Htrace & Hclock & Hend).
  apply audit_shape_tail in Hend.
  exists st, w'. split_and!; [done| |].
  - unfold sent. rewrite Htrace, omap_app.
    rewrite omap_run by (done || apply sent_message_output).
    f_equal. unfold sink_events. rewrite decide_False by done.
    fold (sent (map (send_event cfg output_file) (missing_of amb cfg pre)
                ++ summary sns_topic (length (missing_of amb cfg pre)))).
    by rewrite sent_app, sent_sends, sent_summary, app_nil_r, Hmissing.
  - rewrite Hfiles. unfold sink_files. by rewrite decide_False.
Qed.

(** The example under a format that the command line would refuse,
    with the name of a file as destination: three messages to a queue of
    that name. *)
Lemma other_formats_requeue_unchecked_witness :
  ∃ st w',
    audit Example.amb "Plain" (Some "report.txt") None None None
      (initial_world ∅) = (Returned st, w')
    ∧ sent (trace w')
      = [(Some "report.txt", key_to_sqs_msg "a" "insitu");
         (Some "report.txt", key_to_sqs_msg "c" "insitu");
         (Some "report.txt", key_to_sqs_msg "d" "insitu")].
Proof.
  destruct (other_formats_requeue_unchecked Example.amb Example.cfg
              "Plain" (Some "report.txt") None None None
              (initial_world ∅) eq_refl ltac:(done) ltac:(done))
    as (st & w' & Hrun & Hsent & _).
  exists st, w'. split; [exact Hrun|]. rewrite Hsent.
  pose proof Hrun as Hvalue. vm_compute in Hvalue.
  injection Hvalue as <- _. reflexivity.
Defined.

(** ** What is reported *)

Lemma list_filter_sublist {A} (p : A → bool) (l : list A) :
  List.filter p l `sublist_of` l.
Proof.
  induction l as [|x l IH]; simpl; [done|].
  destruct (p x); by constructor.
Qed.

(** X11.  No run reports a key that it should not: the missing keys are
    keys of listed objects, in listing order and no more often than
    listed, and each is the key of an object whose lookup came back as
    not found. *)
Theorem reported_keys_are_listed_and_missing amb cfg format output_file
    sns_topic resume lambda_ctx w :
  read_config (environ amb) = Some cfg →
  (format = "mock-s3" → Py.truthy output_file = true) →
  ∃ st w',
    audit amb format output_file sns_topic resume lambda_ctx w
    = (Returned st, w')
    ∧ missing_keys st `sublist_of` map Key (listing amb cfg)
    ∧ ∀ key,
        key ∈ missing_keys st →
        ∃ obj,
          obj ∈ listing amb cfg ∧ Key obj = key
          ∧ is_missing
              (opensearch_get amb (OPENSEARCH_INDEX cfg)
                 (OPENSEARCH_ID_PREFIX cfg +:+ key)) = true.
Proof.
  intros Hcfg Hdest.
  destruct (audit_shape amb cfg format output_file sns_topic resume
              lambda_ctx w Hcfg Hdest)
    as (st & w' & pre & tail & Hrun & Hpre & Hcount & Hmissing & Hkeys
        & Herrors & Hfiles & Htrace & Hclock & Hend).
  assert (pre `sublist_of` listing amb cfg) as Hsub.
  { destruct Hpre as [k Hk].
    trans (to_scan amb cfg resume); [|apply sublist_drop].
    rewrite Hk. by apply sublist_inserts_r. }
  exists st, w'. split_and!; [done| |].
  - rewrite Hmissing. unfold missing_of. apply (fmap_sublist Key).
    etrans; [apply list_filter_sublist|done].
  - intros key. rewrite Hmissing. unfold missing_of.
    intros (obj & -> & Hobj)%list_elem_of_fmap.
    apply list_elem_of_In, filter_In in Hobj as [Hin Hanswer].
    exists obj. split_and!; [|done|done].
    eapply elem_of_sublist; [|exact Hsub]. by apply list_elem_of_In.
Qed.

(** The two keys reported for the failing example's listing are [b]
    alone: the lookup of [a] ended in another error. *)
Lemma reported_keys_are_listed_and_missing_witness :
  ∃ st w',
    audit Example.amb_failing "plain" None None None None
      (initial_world ∅) = (Returned st, w')
    ∧ missing_keys st `sublist_of` ["a"; "b"].
Proof.
  destruct (reported_keys_are_listed_and_missing Example.amb_failing
              Example.cfg "plain" None None None None (initial_world ∅)
              eq_refl ltac:(done))
    as (st & w' & Hrun & Hsub & _).
  by exists st, w'.
Defined.

(** ** The reconcile message read back *)

(** X12.  The message that [key_to_sqs_msg] builds can be read back:
    the reader of JSON string literals finds the bucket and the key in
    it, whatever characters they hold, quotes and backslashes included;
    so two messages are the same only for the same key and the same
    bucket. *)
Theorem reconcile_message_reads_back key bucket :
  read_message (key_to_sqs_msg key bucket) = Some (bucket, key)
  ∧ ∀ key' bucket',
      key_to_sqs_msg key' bucket' = key_to_sqs_msg key bucket →
      key' = key ∧ bucket' = bucket.
Proof.
  split; [apply read_message_key_to_sqs_msg|].
  intros key' bucket' Hsame.
  pose proof (read_message_key_to_sqs_msg key' bucket') as Hread.
  rewrite Hsame, read_message_key_to_sqs_msg in Hread.
  by injection Hread as -> ->.
Qed.

Lemma printable_app s t : printable (s +:+ t) = printable s && printable t.
Proof.
  induction s as [|c s IH]; [done|].
  rewrite str_app_cons. simpl. by rewrite IH, andb_assoc.
Qed.

Lemma printable_escape_char c : printable (escape_char c) = true.
Proof. destruct c as [[] [] [] [] [] [] [] []]; reflexivity. Qed.

Lemma printable_escape s : printable (escape s) = true.
Proof.
  induction s as [|c s IH]; [done|].
  simpl escape. by rewrite printable_app, printable_escape_char, IH.
Qed.

Lemma printable_dumps_str s : printable (dumps_str s) = true.
Proof.
  unfold dumps_str. simpl. by rewrite printable_app, printable_escape.
Qed.

(** X13.  Whatever the key and the bucket hold, the message is
    printable ASCII from its first character to its last: no control
    character, no line break and no character above the tilde gets into
    the body sent to the queue. *)
Theorem reconcile_message_is_printable key bucket :
  printable (key_to_sqs_msg key bucket) = true
  ∧ ∀ c, In c (list_ascii_of_string (key_to_sqs_msg key bucket)) →
         (32 ≤ N_of_ascii c ≤ 126)%N.
Proof.
  assert (printable (key_to_sqs_msg key bucket) = true) as Hprintable.
  { rewrite key_to_sqs_msg_text.
    by rewrite !printable_app, !printable_dumps_str. }
  split; [done|].
  revert Hprintable. generalize (key_to_sqs_msg key bucket) as s.
  induction s as [|a s IH]; simpl; [done|].
  intros [Ha Hs]%andb_true_iff c [<-|Hc]; [|by apply IH].
  unfold printable_ascii in Ha. simpl in Ha.
  apply andb_true_iff in Ha as [Hlow Hhigh].
  apply N.leb_le in Hlow, Hhigh. done.
Qed.

(** ** The indexing pipeline, further *)

Lemma lstrip_all_space pad :
  all_space pad = true → Py.lstrip pad = EmptyString.
Proof.
  induction pad as [|c pad IH]; [done|]. simpl.
  intros [-> Hpad]%andb_true_iff. by apply IH.
Qed.

Lemma rstrip_all_space pad :
  all_space pad = true → Py.rstrip pad = EmptyString.
Proof.
  induction pad as [|c pad IH]; [done|]. simpl.
  intros [-> Hpad]%andb_true_iff. by rewrite IH.
Qed.

Lemma lstrip_pad pad s :
  all_space pad = true → Py.lstrip (pad +:+ s) = Py.lstrip s.
Proof.
  induction pad as [|c pad IH]; [done|]. rewrite str_app_cons. simpl.
  intros [-> Hpad]%andb_true_iff. by apply IH.
Qed.

Lemma rstrip_pad s pad :
  all_space pad = true → Py.rstrip (s +:+ pad) = Py.rstrip s.
Proof.
  intros Hpad. induction s as [|c s IH].
  - rewrite str_app_nil_l. by apply rstrip_all_space.
  - rewrite str_app_cons. simpl. by rewrite IH.
Qed.

Lemma strip_pad pad1 s pad2 :
  all_space pad1 = true → all_space pad2 = true →
  Py.strip (pad1 +:+ s +:+ pad2) = Py.strip s.
Proof.
  intros Hpad1 Hpad2. unfold Py.strip. rewrite lstrip_pad by done.
  induction s as [|c s IH].
  - rewrite str_app_nil_l. by rewrite lstrip_all_space.
  - rewrite str_app_cons. simpl. destruct (Py.isspace c); [done|].
    by rewrite <- str_app_cons, rstrip_pad.
Qed.

Lemma isspace_lower_char c : Py.isspace (Py.lower_char c) = Py.isspace c.
Proof. destruct c as [[] [] [] [] [] [] [] []]; reflexivity. Qed.

Lemma lstrip_lower s : Py.lstrip (Py.lower s) = Py.lower (Py.lstrip s).
Proof.
  induction s as [|c s IH]; [done|]. simpl.
  rewrite isspace_lower_char. by destruct (Py.isspace c).
Qed.

Lemma rstrip_lower s : Py.rstrip (Py.lower s) = Py.lower (Py.rstrip s).
Proof.
  induction s as [|c s IH]; [done|]. simpl.
  rewrite IH, isspace_lower_char.
  destruct (Py.rstrip s); simpl; [|done]. by destruct (Py.isspace c).
Qed.

Lemma strip_lower s : Py.strip (Py.lower s) = Py.lower (Py.strip s).
Proof. unfold Py.strip. by rewrite lstrip_lower, rstrip_lower. Qed.

(** A name that is another one up to case, with white space around it,
    is the same name once trimmed and lower-cased. *)
Lemma loose_name name name' pad1 pad2 :
  all_space pad1 = true → all_space pad2 = true →
  Py.lower name' = Py.lower (pad1 +:+ name +:+ pad2) →
  Py.lower (Py.strip name') = Py.lower (Py.strip name).
Proof.
  intros Hpad1 Hpad2 Hname.
  by rewrite <- (strip_lower name'), Hname, strip_lower, strip_pad.
Qed.

Section IndexerFurther.

Import Indexer.

(** The extraction of statistics, which reads S3 and the local disk:
    [None] where it raises. *)
Variable s3_stats : string → option S3Stat.
Variable local_stats : string → option Doc.

Lemma process_fails r st :
  needs_stats r = true →
  ¬ extractable s3_stats local_stats (s3_url r) →
  process s3_stats local_stats r st
  = (Raised OtherException,
     {| self_s3_url := Some (s3_url r); es_calls := es_calls st |}).
Proof.
  intros Hneeds Hfails. unfold process, needs_stats in *.
  apply andb_true_iff in Hneeds as [Hstaging Hcreated].
  apply negb_true_iff in Hstaging.
  unfold mbind, St_bind, set_s3_url.
  change (existsb (λ k, Py.contains k (s3_url r)) ignoring_phrases)
    with (Py.contains "spark-staging" (s3_url r)
          || (Py.contains "_temporary" (s3_url r) || false)).
  rewrite orb_false_r. fold (is_staging (s3_url r)).
  fold (is_created (event_name r)). rewrite Hstaging, Hcreated.
  unfold ingest_file, extract_stats_locally, mbind, St_bind, get_s3_url.
  cbn [self_s3_url].
  destruct (s3_stats (s3_url r)) as [s3_stat|] eqn:Hs3; [|done].
  cbn [self_s3_url option_bind].
  destruct (local_stats (s3_url r)) as [parquet_stat|] eqn:Hlocal; [|done].
  exfalso. apply Hfails. split; by eexists.
Qed.

(** X14.  [start] has no [try]: when the extraction of statistics
    raises for a file, the exception leaves [start] at that record.  The
    calls made for the records before it stay made, no call is made for
    the record itself, and the records after it, removals included, are
    not looked at; the indexer is left with the url of the file that
    failed. *)
Theorem failed_extraction_ends_the_event pre r rest st :
  (∀ r', r' ∈ pre → needs_stats r' = true →
         extractable s3_stats local_stats (s3_url r')) →
  needs_stats r = true →
  ¬ extractable s3_stats local_stats (s3_url r) →
  start s3_stats local_stats (pre ++ r :: rest) st
  = (Raised OtherException,
     {| self_s3_url := Some (s3_url r);
        es_calls :=
          es_calls st
          ++ concat (map (expected_calls s3_stats local_stats) pre) |}).
Proof.
  intros Hpre Hneeds Hfails. revert st.
  induction pre as [|r' pre IH]; intros st.
  - simpl. unfold mbind, St_bind. rewrite process_fails by done.
    by rewrite app_nil_r.
  - simpl app. simpl start. unfold mbind, St_bind.
    rewrite process_spec by (apply Hpre; by apply list_elem_of_here).
    rewrite IH
      by (intros r'' Hr''; apply Hpre; by apply list_elem_of_further).
    simpl. by rewrite app_assoc.
Qed.

Lemma start_returns records st :
  (∀ r, r ∈ records → needs_stats r = true →
        extractable s3_stats local_stats (s3_url r)) →
  start s3_stats local_stats records st
  = (Returned tt,
     {| self_s3_url :=
          match last records with
          | Some r => Some (s3_url r)
          | None => self_s3_url st
          end;
        es_calls :=
          es_calls st
          ++ concat (map (expected_calls s3_stats local_stats) records) |}).
Proof.
  revert st. induction records as [|r records IH]; intros st Hstats.
  - simpl. destruct st. by rewrite app_nil_r.
  - simpl start. unfold mbind, St_bind.
    rewrite process_spec by (apply Hstats; by apply list_elem_of_here).
    rewrite IH
      by (intros r' Hr'; apply Hstats; by apply list_elem_of_further).
    cbn [self_s3_url es_calls map concat]. rewrite app_assoc.
    destruct records as [|r' records]; [done|].
    change (last (r :: r' :: records)) with (last (r' :: records)).
    destruct (last (r' :: records)) eqn:Hlast; [done|].
    by apply last_None in Hlast.
Qed.

(** X15.  The url that [start] sets for a record stays in the indexer:
    after [start] has returned, the indexer holds the url of the last
    record of the event, also when that record was skipped as a
    temporary file or for its event name, and a call of [remove_file]
    then deletes the document of that url. *)
Theorem url_stays_after_start records r st :
  (∀ r', r' ∈ records → needs_stats r' = true →
         extractable s3_stats local_stats (s3_url r')) →
  last records = Some r →
  ∃ st',
    start s3_stats local_stats records st = (Returned tt, st')
    ∧ self_s3_url st' = Some (s3_url r)
    ∧ remove_file st'
      = (Returned tt,
         {| self_s3_url := Some (s3_url r);
            es_calls := es_calls st' ++ [EsDeleteById (s3_url r)] |}).
Proof.
  intros Hstats Hlast. rewrite start_returns by done. rewrite Hlast.
  eexists. split; [reflexivity|]. split; reflexivity.
Qed.

(** X16.  A new indexer, which has no url yet: [ingest_file] and
    [remove_file] raise [ValueError] and call nothing.  Inside [start]
    that error cannot occur: whatever [start] raises, for any event and
    from any state, is what an extraction raised. *)
Theorem url_is_set_before_use :
  (∀ st,
     self_s3_url st = None →
     ingest_file s3_stats local_stats st
     = (Raised (ValueError "s3 url is null. Set it first"), st)
     ∧ remove_file st
       = (Raised (ValueError "s3 url is null. Set it first"), st))
  ∧ ∀ records st e st',
      start s3_stats local_stats records st = (Raised e, st') →
      ∃ r, r ∈ records ∧ needs_stats r = true
           ∧ ¬ extractable s3_stats local_stats (s3_url r)
           ∧ self_s3_url st' = Some (s3_url r).
Proof.
  split.
  - intros st Hurl. unfold ingest_file, remove_file, mbind, St_bind,
      get_s3_url.
    by rewrite Hurl.
  - intros records. induction records as [|r records IH]; intros st e st'.
    { by intros [=]. }
    simpl start. unfold mbind, St_bind.
    destruct (needs_stats r) eqn:Hneeds.
    + destruct (s3_stats (s3_url r)) as [s3_stat|] eqn:Hs3;
        [destruct (local_stats (s3_url r)) as [parquet_stat|] eqn:Hlocal|].
      * rewrite process_spec by (intros _; split; by eexists).
        intros (r' & Hr' & Hrest)%IH.
        exists r'. split; [by apply list_elem_of_further|done].
      * rewrite process_fails;
          [|done|by intros [_ [? Hsome]]; rewrite Hlocal in Hsome].
        intros [= <- <-].
        exists r. split_and!; [by apply list_elem_of_here|done| |done].
        intros [_ [? Hsome]]. by rewrite Hlocal in Hsome.
      * rewrite process_fails;
          [|done|by intros [[? Hsome] _]; rewrite Hs3 in Hsome].
        intros [= <- <-].
        exists r. split_and!; [by apply list_elem_of_here|done| |done].
        intros [[? Hsome] _]. by rewrite Hs3 in Hsome.
    + rewrite process_spec by (by rewrite Hneeds).
      intros (r' & Hr' & Hrest)%IH.
      exists r'. split; [by apply list_elem_of_further|done].
Qed.

(** X17.  The document that [ingest_file] indexes for a file: a field of
    the local statistics goes in as it is; a field of the S3 statistics
    goes in unless the local statistics have one of the same name; the
    field [s3_url] holds the url of the indexer unless one of the two
    has a field of that name; and there is no other field.  The id of
    the document is the url that the S3 statistics carry. *)
Theorem indexed_document_fields st url s3_stat parquet_stat :
  self_s3_url st = Some url →
  s3_stats url = Some s3_stat →
  local_stats url = Some parquet_stat →
  ∃ doc,
    ingest_file s3_stats local_stats st
    = (Returned tt,
       {| self_s3_url := Some url;
          es_calls :=
            es_calls st ++ [EsIndexOne doc (stat_s3_url s3_stat)] |})
    ∧ (∀ k v, parquet_stat !! k = Some v → doc !! k = Some v)
    ∧ (∀ k v, parquet_stat !! k = None → to_json s3_stat !! k = Some v →
              doc !! k = Some v)
    ∧ (parquet_stat !! "s3_url" = None →
       to_json s3_stat !! "s3_url" = None →
       doc !! "s3_url" = Some (JString url))
    ∧ (∀ k, k ≠ "s3_url" → parquet_stat !! k = None →
            to_json s3_stat !! k = None → doc !! k = None).
Proof.
  intros Hurl Hs3 Hlocal.
  exists (merged url (to_json s3_stat) parquet_stat). split_and!.
  - unfold ingest_file, extract_stats_locally, mbind, St_bind, get_s3_url.
    rewrite Hurl, Hs3. cbv beta. rewrite Hurl. simpl. rewrite Hlocal.
    unfold call. simpl. by rewrite Hurl.
  - intros k v Hk. unfold merged. by apply lookup_union_Some_l.
  - intros k v Hk Hv. unfold merged.
    rewrite lookup_union_r by done. by apply lookup_union_Some_l.
  - intros Hk Hk'. unfold merged.
    rewrite !lookup_union_r by done. by rewrite lookup_singleton_eq.
  - intros k Hne Hk Hk'. unfold merged.
    rewrite !lookup_union_r by done. by rewrite lookup_singleton_ne.
Qed.

(** X18.  Event names are matched loosely: a record whose event name
    is that of another record up to the case of its letters, with white
    space before and after it, is handled as the other record is. *)
Theorem event_names_match_loosely r r' pad1 pad2 st :
  s3_url r' = s3_url r →
  all_space pad1 = true →
  all_space pad2 = true →
  Py.lower (event_name r') = Py.lower (pad1 +:+ event_name r +:+ pad2) →
  process s3_stats local_stats r' st = process s3_stats local_stats r st.
Proof.
  intros Hurl Hpad1 Hpad2 Hname. unfold process.
  by rewrite Hurl, (loose_name (event_name r) (event_name r') pad1 pad2).
Qed.

End IndexerFurther.

(** The extraction fails for the first file of the event: the removal
    of the second is not carried out. *)
Lemma failed_extraction_ends_the_event_witness :
  Indexer.start broken_s3_stat example_statistics broken_records
    {| Indexer.self_s3_url := None; Indexer.es_calls := [] |}
  = (Raised OtherException,
     {| Indexer.self_s3_url := Some "s3://insitu/broken.parquet";
        Indexer.es_calls := [] |}).
Proof.
  apply (failed_extraction_ends_the_event broken_s3_stat
           example_statistics []
           {| Indexer.s3_url := "s3://insitu/broken.parquet";
              Indexer.event_name := "ObjectCreated:Put" |}
           [ {| Indexer.s3_url := "s3://insitu/b.parquet";
                Indexer.event_name := "ObjectRemoved:Delete" |} ]
           {| Indexer.self_s3_url := None; Indexer.es_calls := [] |}).
  - by intros r' ?%elem_of_nil.
  - reflexivity.
  - intros [[s3_stat Hs3] _]. vm_compute in Hs3. discriminate Hs3.
Defined.

(** After the event of the example the indexer holds the url of [c],
    whose event name it did not know. *)
Lemma url_stays_after_start_witness :
  ∃ st',
    Indexer.start example_s3_stat example_statistics example_records
      {| Indexer.self_s3_url := None; Indexer.es_calls := [] |}
    = (Returned tt, st')
    ∧ Indexer.self_s3_url st' = Some "s3://insitu/c.parquet".
Proof.
  destruct (url_stays_after_start example_s3_stat example_statistics
              example_records
              {| Indexer.s3_url := "s3://insitu/c.parquet";
                 Indexer.event_name := "ObjectRestore:Post" |}
              {| Indexer.self_s3_url := None; Indexer.es_calls := [] |})
    as (st' & Hrun & Hurl & _).
  - intros r _ _. split; by eexists.
  - reflexivity.
  - by exists st'.
Defined.

(** The document of the example: the two statistics and the url. *)
Lemma indexed_document_fields_witness :
  ∃ doc,
    Indexer.ingest_file example_s3_stat example_statistics
      {| Indexer.self_s3_url := Some "s3://insitu/a.parquet";
         Indexer.es_calls := [] |}
    = (Returned tt,
       {| Indexer.self_s3_url := Some "s3://insitu/a.parquet";
          Indexer.es_calls :=
            [Indexer.EsIndexOne doc "s3://insitu/a.parquet"] |})
    ∧ doc !! "total" = Some (JInt 10)
    ∧ doc !! "bucket" = Some (JString "insitu")
    ∧ doc !! "s3_url" = Some (JString "s3://insitu/a.parquet").
Proof.
  destruct (indexed_document_fields example_s3_stat example_statistics
              {| Indexer.self_s3_url := Some "s3://insitu/a.parquet";
                 Indexer.es_calls := [] |}
              "s3://insitu/a.parquet" _ _ eq_refl eq_refl eq_refl)
    as (doc & Hrun & Hlocal & Hs3 & Hurl & _).
  exists doc. split_and!.
  - exact Hrun.
  - by apply Hlocal.
  - by apply Hs3.
  - by apply Hurl.
Defined.

(** A creation spelt in capitals, with a tab before and a line break
    after it, is a creation. *)
Lemma event_names_match_loosely_witness :
  Indexer.process example_s3_stat example_statistics
    {| Indexer.s3_url := "s3://insitu/a.parquet";
       Indexer.event_name :=
         String "009" "OBJECTCREATED:PUT" +:+ Py.newline |}
    {| Indexer.self_s3_url := None; Indexer.es_calls := [] |}
  = Indexer.process example_s3_stat example_statistics
      {| Indexer.s3_url := "s3://insitu/a.parquet";
         Indexer.event_name := "ObjectCreated:Put" |}
      {| Indexer.self_s3_url := None; Indexer.es_calls := [] |}.
Proof.
  apply (event_names_match_loosely example_s3_stat example_statistics
           _ _ (String "009" EmptyString) Py.newline);
    reflexivity.
Defined.

(** ** The authenticator, further *)

Lemma find_existsb {A} (p : A → bool) (l : list A) x :
  List.find p l = Some x → existsb p l = true.
Proof.
  induction l as [|y l IH]; simpl; [done|].
  destruct (p y); [done|]. exact IH.
Qed.

Section AuthenticatorFurther.

Import Authenticator.

(** [AwsSecretManager.get_secret] and [json.loads], [None] where they
    raise; and the expression
    [base64.standard_b64decode(v.encode()).decode()] for a string [v],
    [None] where one of its three calls raises. *)
Variable get_secret : string → option string.
Variable json_loads : string → option json.
Variable b64decode_text : string → option string.

(** What [authenticate] returns, and when it accepts. *)
Lemma authenticate_accepts input st :
  ∃ r,
    authenticate b64decode_text input st = (Returned r, st)
    ∧ (r = None
       ↔ ∃ v s,
           input !! "Authorization" = Some (VStr v)
           ∧ b64decode_text v = Some s
           ∧ token st = JString s).
Proof.
  unfold authenticate.
  destruct (input !! "Authorization") as [[v|]|] eqn:Hinput; simpl.
  - destruct (b64decode_text v) as [s|] eqn:Hdecode.
    + unfold mbind, St_bind, get_token.
      destruct (differs s (token st)) eqn:Hdiffers.
      * eexists. split; [reflexivity|]. split; [done|].
        intros (v' & s' & [= <-] & Hs' & Htoken).
        rewrite Hdecode in Hs'. injection Hs' as <-.
        rewrite Htoken in Hdiffers. simpl in Hdiffers.
        by rewrite bool_decide_eq_true_2 in Hdiffers.
      * exists None. split; [reflexivity|]. split; [|done]. intros _.
        exists v, s. split_and!; [done..|].
        destruct (token st) as [| | | |t| |]; try done.
        simpl in Hdiffers.
        apply negb_false_iff, bool_decide_eq_true in Hdiffers.
        by rewrite Hdiffers.
    + eexists. split; [reflexivity|]. split; [done|].
      intros (v' & s' & [= <-] & Hs' & _). by rewrite Hdecode in Hs'.
  - eexists. split; [reflexivity|]. split; [done|].
    by intros (v' & s' & [=] & _).
  - eexists. split; [reflexivity|]. split; [done|].
    by intros (v' & s' & [=] & _).
Qed.

(** X19.  [get_auth_credentials] returns only for a secret that is
    nested twice: the text of the secret must be a JSON dict that has
    under [auth_cred] a dict that has a member [auth_cred] again; that
    inner dict is returned and its member becomes the token.  In every
    other case the call raises and the token stays as it was; the error
    is the [ValueError] of a failed retrieval exactly when the secret
    manager raised, whatever the name. *)
Theorem secret_must_be_nested_twice cred_name st :
  (∀ r st',
     get_auth_credentials get_secret json_loads cred_name st
     = (Returned r, st')
     ↔ ∃ token_str j members t,
         get_secret cred_name = Some token_str
         ∧ json_loads token_str = Some j
         ∧ subscript j auth_cred_key = Some (JObject members)
         ∧ subscript (JObject members) auth_cred_key = Some t
         ∧ r = JObject members
         ∧ st' = {| token := t |})
  ∧ (∀ e st',
       get_auth_credentials get_secret json_loads cred_name st
       = (Raised e, st') →
       st' = st)
  ∧ (get_secret cred_name = None
     ↔ get_auth_credentials get_secret json_loads cred_name st
       = (Raised
            (ValueError
               ("error while retrieving secret manager value: "
                +:+ cred_name)),
          st)).
Proof.
  split_and!.
  - intros r st'. unfold get_auth_credentials. split.
    + destruct (get_secret cred_name) as [token_str|]; [|done].
      destruct (json_loads token_str) as [j|] eqn:Hloads; [|done]. simpl.
      destruct (subscript j auth_cred_key) as [secret_json|] eqn:Hj;
        [|done].
      destruct (contains_key secret_json auth_cred_key) as [[|]|];
        [|done..].
      destruct (subscript secret_json auth_cred_key) as [t|] eqn:Ht;
        [|done].
      intros [= <- <-].
      destruct secret_json as [| | | | | |members]; try done.
      by exists token_str, j, members, t.
    + intros (token_str & j & members & t & -> & -> & Hj & Ht & -> & ->).
      simpl. rewrite Hj. cbn [contains_key]. rewrite Ht.
      simpl in Ht.
      destruct (List.find _ members) as [m|] eqn:Hfind; [|done].
      by rewrite (find_existsb _ _ _ Hfind).
  - intros e st'.
    pose proof (get_auth_credentials_token get_secret json_loads
                  cred_name st) as Htoken.
    destruct (get_auth_credentials get_secret json_loads cred_name st)
      as [[secret|e'] st'']; [done|].
    by intros [= <- <-].
  - unfold get_auth_credentials. split; [by intros ->|].
    destruct (get_secret cred_name) as [token_str|]; [|done].
    destruct (json_loads token_str ≫= _) as [secret_json|]; [|done].
    destruct (contains_key secret_json auth_cred_key) as [[|]|];
      [|done..].
    by destruct (subscript secret_json auth_cred_key).
Qed.

(** X20.  After [get_auth_credentials] has returned, [authenticate]
    accepts an input exactly when its [Authorization] is a string that
    decodes to the string that the returned dict holds under
    [auth_cred]; when the secret holds something else than a string
    there, no input is accepted.  [authenticate] never changes the
    token. *)
Theorem loaded_token_is_what_authenticates cred_name st secret_json st'
    input :
  get_auth_credentials get_secret json_loads cred_name st
  = (Returned secret_json, st') →
  ∃ r,
    authenticate b64decode_text input st' = (Returned r, st')
    ∧ (r = None
       ↔ ∃ v s,
           input !! "Authorization" = Some (VStr v)
           ∧ b64decode_text v = Some s
           ∧ subscript secret_json auth_cred_key = Some (JString s)).
Proof.
  intros Hload.
  pose proof (get_auth_credentials_token get_secret json_loads
                cred_name st) as Htoken.
  rewrite Hload in Htoken.
  destruct (authenticate_accepts input st') as (r & Hrun & Hiff).
  exists r. split; [done|]. rewrite Hiff.
  split; intros (v & s & Hv & Hs & Ht); exists v, s; split_and!;
    try done.
  - by rewrite Htoken, Ht.
  - rewrite Htoken in Ht. by injection Ht.
Qed.

End AuthenticatorFurther.

(** The example secret is loaded, and the header that decodes to its
    token is accepted. *)
Lemma loaded_token_is_what_authenticates_witness :
  ∃ secret_json st',
    Authenticator.get_auth_credentials example_get_secret
      example_json_loads "insitu-auth" Authenticator.init
    = (Returned secret_json, st')
    ∧ Authenticator.authenticate example_b64decode
        {[ "Authorization" := Authenticator.VStr "dXNlcjpwYXNz" ]} st'
      = (Returned None, st').
Proof.
  eexists _, _. split; [reflexivity|].
  destruct (loaded_token_is_what_authenticates example_get_secret
              example_json_loads example_b64decode "insitu-auth"
              Authenticator.init _ _
              {[ "Authorization" := Authenticator.VStr "dXNlcjpwYXNz" ]}
              eq_refl)
    as (r & Hrun & Hiff).
  assert (r = None) as Hr.
  { apply Hiff. exists "dXNlcjpwYXNz", "user:pass".
    split_and!; reflexivity. }
  rewrite Hrun, Hr. reflexivity.
Defined.
